(** * AtlasOra: booking escrow contract and CMS event listener

    A shallow embedding of
    - [contracts/BookingManager.sol]: the booking life cycle (creation,
      check-in window, dispute, escalation, arbiter resolution), and
    - [backend/src/services/event-listener.js]: the polling listener that
      replays contract events into the Strapi CMS,
    followed by the properties proved about them. *)

From Stdlib Require Import ZArith String List Bool Lia Ascii DecimalString.
From stdpp Require Import gmap strings list sorting.

Local Open Scope Z_scope.

(** ** Solidity 0.8 execution model

    [uint256] values are integers in [0, 2^256); arithmetic is checked and
    reverts with a panic instead of wrapping.  A transaction either returns
    a value together with the new world or reverts, in which case no effect
    of the call survives. *)

Module Solidity.

Definition address := Z.

Definition MAX_UINT256 : Z := 2 ^ 256 - 1.

Definition is_uint256 (x : Z) : Prop := 0 <= x <= MAX_UINT256.

Definition one_day : Z := 86400.

Definition hours (n : Z) : Z := n * 3600.

Inductive Revert : Type :=
| Error (reason : string)
| Panic
| OwnableUnauthorizedAccount (account : address)
| OwnableInvalidOwner (account : address)
| SafeERC20FailedOperation.

Inductive Result (A : Type) : Type :=
| Ok (a : A)
| Reverted (e : Revert).

Arguments Ok {A} a.
Arguments Reverted {A} e.

Definition Tx (W A : Type) : Type := W -> Result (A * W).

Definition ret {W A : Type} (a : A) : Tx W A := fun w => Ok (a, w).

Definition bind {W A B : Type} (m : Tx W A) (k : A -> Tx W B) : Tx W B :=
  fun w => match m w with
           | Ok (a, w') => k a w'
           | Reverted e => Reverted e
           end.

Definition revert {W A : Type} (e : Revert) : Tx W A := fun _ => Reverted e.

Definition require {W : Type} (cond : bool) (reason : string) : Tx W unit :=
  if cond then ret tt else revert (Error reason).

Definition get {W : Type} : Tx W W := fun w => Ok (w, w).

Definition modify {W : Type} (f : W -> W) : Tx W unit := fun w => Ok (tt, f w).

Definition checked_add {W : Type} (a b : Z) : Tx W Z :=
  if a + b <=? MAX_UINT256 then ret (a + b) else revert Panic.

Definition checked_sub {W : Type} (a b : Z) : Tx W Z :=
  if b <=? a then ret (a - b) else revert Panic.

Definition checked_mul {W : Type} (a b : Z) : Tx W Z :=
  if a * b <=? MAX_UINT256 then ret (a * b) else revert Panic.

Definition checked_div {W : Type} (a b : Z) : Tx W Z :=
  if b =? 0 then revert Panic else ret (a / b).

(** The [IERC20] interface as the contract uses it through [SafeERC20]:
    a call either yields the new token state or fails.  The first argument
    is the caller of the token contract. *)
Class IERC20 (T : Type) : Type := {
  transfer : address -> address -> Z -> T -> option T;
  transferFrom : address -> address -> address -> Z -> T -> option T
}.

End Solidity.

Declare Scope tx_scope.
Delimit Scope tx_scope with tx.
Notation "x <- m ;; k" := (Solidity.bind m (fun x => k))
  (at level 100, m at next level, k at level 200, right associativity) : tx_scope.
Notation "m ;; k" := (Solidity.bind m (fun _ => k))
  (at level 100, k at level 200, right associativity) : tx_scope.

(** ** PropertyMarketplace, as BookingManager reads it

    Only the two getters used by BookingManager are needed: the public
    [properties] mapping and [platformFeePercentage] (in tenths of a
    percent).  The tuple layout of a property is the one the listener
    destructures. *)

Module PropertyMarketplace.

Record Property : Type := {
  propertyId : string;
  propertyTokenAddress : Solidity.address;
  owner : Solidity.address;
  pricePerNight : Z;
  isActive : bool;
  propertyURI : string
}.

Record State : Type := {
  properties : string -> Property;
  platformFeePercentage : Z
}.

End PropertyMarketplace.

(** ** BookingManager.sol *)

Module BookingManager.
Import Solidity.

Inductive BookingStatus : Type :=
| Active
| CheckInReady
| CheckedIn
| Completed
| Disputed
| Cancelled
| Refunded
| EscalatedToAdmin.

#[global] Instance BookingStatus_eq_dec : EqDecision BookingStatus.
Proof. solve_decision. Defined.

Record Booking : Type := {
  bookingId : Z;
  propertyId : string;
  guest : address;
  host : address;
  checkInDate : Z;
  checkOutDate : Z;
  totalAmount : Z;
  platformFee : Z;
  hostAmount : Z;
  status : BookingStatus;
  checkInWindowStart : Z;
  checkInDeadline : Z;
  disputeDeadline : Z;
  isCheckInComplete : bool;
  isResolvedByHost : bool;
  isResolvedByGuest : bool;
  disputeReason : string;
  bookingURI : string;
  paymentReference : string;
  paidOffChain : bool
}.

(** The value a [mapping(uint256 => Booking)] holds at a key never written. *)
Definition zeroBooking : Booking :=
  {| bookingId := 0; propertyId := ""; guest := 0; host := 0;
     checkInDate := 0; checkOutDate := 0;
     totalAmount := 0; platformFee := 0; hostAmount := 0;
     status := Active;
     checkInWindowStart := 0; checkInDeadline := 0; disputeDeadline := 0;
     isCheckInComplete := false;
     isResolvedByHost := false; isResolvedByGuest := false;
     disputeReason := ""; bookingURI := ""; paymentReference := "";
     paidOffChain := false |}.

Definition set_status (v : BookingStatus) (b : Booking) : Booking :=
  {| bookingId := bookingId b; propertyId := propertyId b;
     guest := guest b; host := host b;
     checkInDate := checkInDate b; checkOutDate := checkOutDate b;
     totalAmount := totalAmount b; platformFee := platformFee b;
     hostAmount := hostAmount b;
     status := v;
     checkInWindowStart := checkInWindowStart b;
     checkInDeadline := checkInDeadline b;
     disputeDeadline := disputeDeadline b;
     isCheckInComplete := isCheckInComplete b;
     isResolvedByHost := isResolvedByHost b;
     isResolvedByGuest := isResolvedByGuest b;
     disputeReason := disputeReason b; bookingURI := bookingURI b;
     paymentReference := paymentReference b;
     paidOffChain := paidOffChain b |}.

Definition set_checkInWindow (start deadline : Z) (b : Booking) : Booking :=
  {| bookingId := bookingId b; propertyId := propertyId b;
     guest := guest b; host := host b;
     checkInDate := checkInDate b; checkOutDate := checkOutDate b;
     totalAmount := totalAmount b; platformFee := platformFee b;
     hostAmount := hostAmount b;
     status := status b;
     checkInWindowStart := start;
     checkInDeadline := deadline;
     disputeDeadline := disputeDeadline b;
     isCheckInComplete := isCheckInComplete b;
     isResolvedByHost := isResolvedByHost b;
     isResolvedByGuest := isResolvedByGuest b;
     disputeReason := disputeReason b; bookingURI := bookingURI b;
     paymentReference := paymentReference b;
     paidOffChain := paidOffChain b |}.

Definition set_isCheckInComplete (v : bool) (b : Booking) : Booking :=
  {| bookingId := bookingId b; propertyId := propertyId b;
     guest := guest b; host := host b;
     checkInDate := checkInDate b; checkOutDate := checkOutDate b;
     totalAmount := totalAmount b; platformFee := platformFee b;
     hostAmount := hostAmount b;
     status := status b;
     checkInWindowStart := checkInWindowStart b;
     checkInDeadline := checkInDeadline b;
     disputeDeadline := disputeDeadline b;
     isCheckInComplete := v;
     isResolvedByHost := isResolvedByHost b;
     isResolvedByGuest := isResolvedByGuest b;
     disputeReason := disputeReason b; bookingURI := bookingURI b;
     paymentReference := paymentReference b;
     paidOffChain := paidOffChain b |}.

Definition set_dispute (deadline : Z) (reason : string) (b : Booking) : Booking :=
  {| bookingId := bookingId b; propertyId := propertyId b;
     guest := guest b; host := host b;
     checkInDate := checkInDate b; checkOutDate := checkOutDate b;
     totalAmount := totalAmount b; platformFee := platformFee b;
     hostAmount := hostAmount b;
     status := status b;
     checkInWindowStart := checkInWindowStart b;
     checkInDeadline := checkInDeadline b;
     disputeDeadline := deadline;
     isCheckInComplete := isCheckInComplete b;
     isResolvedByHost := isResolvedByHost b;
     isResolvedByGuest := isResolvedByGuest b;
     disputeReason := reason; bookingURI := bookingURI b;
     paymentReference := paymentReference b;
     paidOffChain := paidOffChain b |}.

Definition set_isResolvedByHost (v : bool) (b : Booking) : Booking :=
  {| bookingId := bookingId b; propertyId := propertyId b;
     guest := guest b; host := host b;
     checkInDate := checkInDate b; checkOutDate := checkOutDate b;
     totalAmount := totalAmount b; platformFee := platformFee b;
     hostAmount := hostAmount b;
     status := status b;
     checkInWindowStart := checkInWindowStart b;
     checkInDeadline := checkInDeadline b;
     disputeDeadline := disputeDeadline b;
     isCheckInComplete := isCheckInComplete b;
     isResolvedByHost := v;
     isResolvedByGuest := isResolvedByGuest b;
     disputeReason := disputeReason b; bookingURI := bookingURI b;
     paymentReference := paymentReference b;
     paidOffChain := paidOffChain b |}.

Definition set_isResolvedByGuest (v : bool) (b : Booking) : Booking :=
  {| bookingId := bookingId b; propertyId := propertyId b;
     guest := guest b; host := host b;
     checkInDate := checkInDate b; checkOutDate := checkOutDate b;
     totalAmount := totalAmount b; platformFee := platformFee b;
     hostAmount := hostAmount b;
     status := status b;
     checkInWindowStart := checkInWindowStart b;
     checkInDeadline := checkInDeadline b;
     disputeDeadline := disputeDeadline b;
     isCheckInComplete := isCheckInComplete b;
     isResolvedByHost := isResolvedByHost b;
     isResolvedByGuest := v;
     disputeReason := disputeReason b; bookingURI := bookingURI b;
     paymentReference := paymentReference b;
     paidOffChain := paidOffChain b |}.

Inductive Event : Type :=
| BookingCreated (bookingId : Z) (propertyId : string) (guest : address)
    (checkInDate amount : Z)
| BookingCreatedPaid (bookingId : Z) (propertyId : string) (guest : address)
    (checkInDate checkOutDate totalAmount : Z)
    (paymentReference bookingURI : string)
| CheckInWindowOpened (bookingId deadline : Z)
| CheckedInEvent (bookingId : Z) (guest : address)
| CheckInMissed (bookingId : Z)
| DisputeRaised (bookingId : Z) (reason : string)
| DisputeResolved (bookingId : Z) (byHost byGuest : bool)
| DisputeEscalated (bookingId : Z)
| BookingCompleted (bookingId : Z)
| BookingCancelled (bookingId : Z)
| BookingRefunded (bookingId amount : Z)
| OwnershipTransferred (previousOwner newOwner : address).

(** Contract storage.  [owner] is the slot inherited from Ownable. *)
Record Storage : Type := {
  owner : address;
  treasury : address;
  _bookingIdCounter : Z;
  bookings : gmap Z Booking;
  propertyBookings : gmap string (list Z);
  guestBookings : gmap Z (list Z)
}.

(** What a call sees of its surroundings: the block time, the caller as
    [_msgSender()] resolves it (ERC-2771), the contract's own address and
    the marketplace it reads. *)
Record Env : Type := {
  block_timestamp : Z;
  msgSender : address;
  this : address;
  propertyMarketplace : PropertyMarketplace.State
}.

Record World (T : Type) : Type := {
  storage : Storage;
  eurcToken : T;
  emitted : list Event
}.

Arguments storage {T} w.
Arguments eurcToken {T} w.
Arguments emitted {T} w.

Definition CHECK_IN_WINDOW : Z := hours 24.

Definition DISPUTE_RESOLUTION_WINDOW : Z := hours 24.

Definition constructor (deployer _treasury : address) : Storage :=
  {| owner := deployer; treasury := _treasury; _bookingIdCounter := 0;
     bookings := ∅; propertyBookings := ∅; guestBookings := ∅ |}.

(** [bookings[id]]: reading a mapping never fails. *)
Definition booking_at (s : Storage) (id : Z) : Booking :=
  default zeroBooking (bookings s !! id).

Definition propertyBookings_at (s : Storage) (p : string) : list Z :=
  default [] (propertyBookings s !! p).

Definition guestBookings_at (s : Storage) (g : address) : list Z :=
  default [] (guestBookings s !! g).

Definition with_storage {T : Type} (f : Storage -> Storage) (w : World T) : World T :=
  {| storage := f (storage w); eurcToken := eurcToken w; emitted := emitted w |}.

Definition store_booking (id : Z) (b : Booking) (s : Storage) : Storage :=
  {| owner := owner s; treasury := treasury s;
     _bookingIdCounter := _bookingIdCounter s;
     bookings := <[id := b]> (bookings s);
     propertyBookings := propertyBookings s;
     guestBookings := guestBookings s |}.

Definition set_treasury (t : address) (s : Storage) : Storage :=
  {| owner := owner s; treasury := t;
     _bookingIdCounter := _bookingIdCounter s;
     bookings := bookings s;
     propertyBookings := propertyBookings s;
     guestBookings := guestBookings s |}.

Definition set_owner (o : address) (s : Storage) : Storage :=
  {| owner := o; treasury := treasury s;
     _bookingIdCounter := _bookingIdCounter s;
     bookings := bookings s;
     propertyBookings := propertyBookings s;
     guestBookings := guestBookings s |}.

Definition set_bookingIdCounter (n : Z) (s : Storage) : Storage :=
  {| owner := owner s; treasury := treasury s;
     _bookingIdCounter := n;
     bookings := bookings s;
     propertyBookings := propertyBookings s;
     guestBookings := guestBookings s |}.

Definition push_propertyBooking (p : string) (id : Z) (s : Storage) : Storage :=
  {| owner := owner s; treasury := treasury s;
     _bookingIdCounter := _bookingIdCounter s;
     bookings := bookings s;
     propertyBookings := <[p := propertyBookings_at s p ++ [id]]> (propertyBookings s);
     guestBookings := guestBookings s |}.

Definition push_guestBooking (g : address) (id : Z) (s : Storage) : Storage :=
  {| owner := owner s; treasury := treasury s;
     _bookingIdCounter := _bookingIdCounter s;
     bookings := bookings s;
     propertyBookings := propertyBookings s;
     guestBookings := <[g := guestBookings_at s g ++ [id]]> (guestBookings s) |}.

(** [hasBookingConflict], as a loop over the property's booking ids. *)
Fixpoint conflict_loop (s : Storage) (ids : list Z) (_checkInDate _checkOutDate : Z) : bool :=
  match ids with
  | [] => false
  | i :: rest =>
      let existingBooking := booking_at s i in
      if bool_decide (status existingBooking = Cancelled)
         || bool_decide (status existingBooking = Refunded)
      then conflict_loop s rest _checkInDate _checkOutDate
      else if (_checkInDate <? checkOutDate existingBooking)
              && (_checkOutDate >? checkInDate existingBooking)
      then true
      else conflict_loop s rest _checkInDate _checkOutDate
  end.

Definition hasBookingConflict (s : Storage) (_propertyId : string)
    (_checkInDate _checkOutDate : Z) : bool :=
  conflict_loop s (propertyBookings_at s _propertyId) _checkInDate _checkOutDate.

Section Contract.
Context {T : Type} {token : IERC20 T}.

Local Open Scope tx_scope.

Local Abbreviation TxW := (Tx (World T)).

Definition emit (e : Event) : TxW unit :=
  modify (fun w => {| storage := storage w; eurcToken := eurcToken w;
                      emitted := emitted w ++ [e] |}).

Definition sload : TxW Storage := fun w => Ok (storage w, w).

Definition sstore (f : Storage -> Storage) : TxW unit := modify (with_storage f).

Definition safeTransfer (env : Env) (to : address) (value : Z) : TxW unit :=
  fun w => match transfer (this env) to value (eurcToken w) with
           | Some t' => Ok (tt, {| storage := storage w; eurcToken := t';
                                   emitted := emitted w |})
           | None => Reverted SafeERC20FailedOperation
           end.

Definition safeTransferFrom (env : Env) (from to : address) (value : Z) : TxW unit :=
  fun w => match transferFrom (this env) from to value (eurcToken w) with
           | Some t' => Ok (tt, {| storage := storage w; eurcToken := t';
                                   emitted := emitted w |})
           | None => Reverted SafeERC20FailedOperation
           end.

(** Ownable (OpenZeppelin v5), inherited by the contract. *)
Definition onlyOwner (env : Env) : TxW unit :=
  s <- sload ;;
  if owner s =? msgSender env then ret tt
  else revert (OwnableUnauthorizedAccount (msgSender env)).

Definition transferOwnership (env : Env) (newOwner : address) : TxW unit :=
  onlyOwner env ;;
  (if newOwner =? 0 then revert (OwnableInvalidOwner 0) else ret tt) ;;
  s <- sload ;;
  sstore (set_owner newOwner) ;;
  emit (OwnershipTransferred (owner s) newOwner).

Definition renounceOwnership (env : Env) : TxW unit :=
  onlyOwner env ;;
  s <- sload ;;
  sstore (set_owner 0) ;;
  emit (OwnershipTransferred (owner s) 0).

Definition setTreasury (env : Env) (_treasury : address) : TxW unit :=
  onlyOwner env ;;
  require (negb (_treasury =? 0)) "Invalid treasury address" ;;
  sstore (set_treasury _treasury).

Definition createBooking (env : Env) (_propertyId : string)
    (_checkInDate _checkOutDate _totalAmount : Z) (_bookingURI : string) : TxW Z :=
  let p := PropertyMarketplace.properties (propertyMarketplace env) _propertyId in
  let host := PropertyMarketplace.owner p in
  let isActive := PropertyMarketplace.isActive p in
  require isActive "Property not active" ;;
  require (negb (host =? 0)) "Property does not exist" ;;
  let guest := msgSender env in
  require (negb (host =? guest)) "Cannot book own property" ;;
  require (_checkInDate >? block_timestamp env) "Check-in must be in the future" ;;
  require (_checkOutDate >? _checkInDate) "Check-out must be after check-in" ;;
  s <- sload ;;
  require (negb (hasBookingConflict s _propertyId _checkInDate _checkOutDate))
    "Booking dates conflict with existing booking" ;;
  stay <- checked_sub _checkOutDate _checkInDate ;;
  numNights <- checked_div stay one_day ;;
  require (numNights >? 0) "Booking must be at least 1 night" ;;
  safeTransferFrom env guest (this env) _totalAmount ;;
  feeNumerator <- checked_mul _totalAmount
    (PropertyMarketplace.platformFeePercentage (propertyMarketplace env)) ;;
  platformFee <- checked_div feeNumerator 1000 ;;
  hostAmount <- checked_sub _totalAmount platformFee ;;
  bookingId <- checked_add (_bookingIdCounter s) 1 ;;
  sstore (set_bookingIdCounter bookingId) ;;
  sstore (store_booking bookingId
    {| bookingId := bookingId; propertyId := _propertyId;
       guest := guest; host := host;
       checkInDate := _checkInDate; checkOutDate := _checkOutDate;
       totalAmount := _totalAmount; platformFee := platformFee;
       hostAmount := hostAmount;
       status := Active;
       checkInWindowStart := 0; checkInDeadline := 0; disputeDeadline := 0;
       isCheckInComplete := false;
       isResolvedByHost := false; isResolvedByGuest := false;
       disputeReason := ""; bookingURI := _bookingURI;
       paymentReference := ""; paidOffChain := false |}) ;;
  sstore (push_propertyBooking _propertyId bookingId) ;;
  sstore (push_guestBooking guest bookingId) ;;
  emit (BookingCreated bookingId _propertyId guest _checkInDate _totalAmount) ;;
  ret bookingId.

Definition createBookingPaid (env : Env) (_propertyId : string)
    (_checkInDate _checkOutDate _totalAmount : Z)
    (_paymentReference _bookingURI : string) : TxW Z :=
  let p := PropertyMarketplace.properties (propertyMarketplace env) _propertyId in
  let host := PropertyMarketplace.owner p in
  let isActive := PropertyMarketplace.isActive p in
  require isActive "Property not active" ;;
  require (negb (host =? 0)) "Property does not exist" ;;
  require (_checkInDate >? block_timestamp env) "Check-in must be in the future" ;;
  require (_checkOutDate >? _checkInDate) "Check-out must be after check-in" ;;
  s <- sload ;;
  require (negb (hasBookingConflict s _propertyId _checkInDate _checkOutDate))
    "Booking dates conflict with existing booking" ;;
  stay <- checked_sub _checkOutDate _checkInDate ;;
  numNights <- checked_div stay one_day ;;
  require (numNights >? 0) "Booking must be at least 1 night" ;;
  feeNumerator <- checked_mul _totalAmount
    (PropertyMarketplace.platformFeePercentage (propertyMarketplace env)) ;;
  platformFee <- checked_div feeNumerator 1000 ;;
  hostAmount <- checked_sub _totalAmount platformFee ;;
  bookingId <- checked_add (_bookingIdCounter s) 1 ;;
  sstore (set_bookingIdCounter bookingId) ;;
  let guest := msgSender env in
  sstore (store_booking bookingId
    {| bookingId := bookingId; propertyId := _propertyId;
       guest := guest; host := host;
       checkInDate := _checkInDate; checkOutDate := _checkOutDate;
       totalAmount := _totalAmount; platformFee := platformFee;
       hostAmount := hostAmount;
       status := Active;
       checkInWindowStart := 0; checkInDeadline := 0; disputeDeadline := 0;
       isCheckInComplete := false;
       isResolvedByHost := false; isResolvedByGuest := false;
       disputeReason := ""; bookingURI := _bookingURI;
       paymentReference := _paymentReference; paidOffChain := true |}) ;;
  sstore (push_propertyBooking _propertyId bookingId) ;;
  sstore (push_guestBooking guest bookingId) ;;
  emit (BookingCreatedPaid bookingId _propertyId guest _checkInDate _checkOutDate
          _totalAmount _paymentReference _bookingURI) ;;
  ret bookingId.

Definition triggerCheckInWindow (env : Env) (_bookingId : Z) : TxW unit :=
  s <- sload ;;
  let booking := booking_at s _bookingId in
  require (bookingId booking =? _bookingId) "Booking does not exist" ;;
  require (bool_decide (status booking = Active)) "Booking not active" ;;
  require (block_timestamp env >=? checkInDate booking) "Check-in date not reached" ;;
  require (checkInWindowStart booking =? 0) "Check-in window already triggered" ;;
  deadline <- checked_add (block_timestamp env) CHECK_IN_WINDOW ;;
  sstore (store_booking _bookingId
    (set_status CheckInReady
       (set_checkInWindow (block_timestamp env) deadline booking))) ;;
  emit (CheckInWindowOpened _bookingId deadline).

Definition checkIn (env : Env) (_bookingId : Z) : TxW unit :=
  s <- sload ;;
  let booking := booking_at s _bookingId in
  require (guest booking =? msgSender env) "Not the guest" ;;
  require (bool_decide (status booking = CheckInReady)) "Not ready for check-in" ;;
  require (block_timestamp env <=? checkInDeadline booking) "Check-in window expired" ;;
  sstore (store_booking _bookingId
    (set_isCheckInComplete true (set_status CheckedIn booking))) ;;
  emit (CheckedInEvent _bookingId (msgSender env)).

Definition processMissedCheckIn (env : Env) (_bookingId : Z) : TxW unit :=
  s <- sload ;;
  let booking := booking_at s _bookingId in
  require (bool_decide (status booking = CheckInReady)) "Not in check-in window" ;;
  require (block_timestamp env >? checkInDeadline booking) "Check-in window not expired" ;;
  deadline <- checked_add (block_timestamp env) DISPUTE_RESOLUTION_WINDOW ;;
  sstore (store_booking _bookingId
    (set_dispute deadline "Missed check-in" (set_status Disputed booking))) ;;
  emit (CheckInMissed _bookingId) ;;
  emit (DisputeRaised _bookingId "Missed check-in").

Definition _completeBooking (env : Env) (_bookingId : Z) : TxW unit :=
  s <- sload ;;
  let booking := set_status Completed (booking_at s _bookingId) in
  sstore (store_booking _bookingId booking) ;;
  if paidOffChain booking then emit (BookingCompleted _bookingId)
  else
    safeTransfer env (treasury s) (platformFee booking) ;;
    safeTransfer env (host booking) (hostAmount booking) ;;
    emit (BookingCompleted _bookingId).

Definition _refundBooking (env : Env) (_bookingId : Z) : TxW unit :=
  s <- sload ;;
  let booking := set_status Refunded (booking_at s _bookingId) in
  sstore (store_booking _bookingId booking) ;;
  if paidOffChain booking then emit (BookingRefunded _bookingId (hostAmount booking))
  else
    safeTransfer env (guest booking) (hostAmount booking) ;;
    safeTransfer env (treasury s) (platformFee booking) ;;
    emit (BookingRefunded _bookingId (hostAmount booking)).

Definition hostResolveDispute (env : Env) (_bookingId : Z) : TxW unit :=
  s <- sload ;;
  let booking := booking_at s _bookingId in
  require (host booking =? msgSender env) "Not the property owner" ;;
  require (bool_decide (status booking = Disputed)) "Not in dispute" ;;
  require (block_timestamp env <=? disputeDeadline booking) "Dispute window expired" ;;
  sstore (store_booking _bookingId (set_isResolvedByHost true booking)) ;;
  (if isResolvedByGuest booking then _completeBooking env _bookingId else ret tt) ;;
  emit (DisputeResolved _bookingId true (isResolvedByGuest booking)).

Definition guestResolveDispute (env : Env) (_bookingId : Z) : TxW unit :=
  s <- sload ;;
  let booking := booking_at s _bookingId in
  require (guest booking =? msgSender env) "Not the guest" ;;
  require (bool_decide (status booking = Disputed)) "Not in dispute" ;;
  require (block_timestamp env <=? disputeDeadline booking) "Dispute window expired" ;;
  sstore (store_booking _bookingId (set_isResolvedByGuest true booking)) ;;
  (if isResolvedByHost booking then _completeBooking env _bookingId else ret tt) ;;
  emit (DisputeResolved _bookingId (isResolvedByHost booking) true).

Definition escalateDispute (env : Env) (_bookingId : Z) : TxW unit :=
  s <- sload ;;
  let booking := booking_at s _bookingId in
  require (bool_decide (status booking = Disputed)) "Not in dispute" ;;
  require (block_timestamp env >? disputeDeadline booking)
    "Dispute resolution window not expired" ;;
  require (negb (isResolvedByHost booking && isResolvedByGuest booking))
    "Dispute already resolved" ;;
  sstore (store_booking _bookingId (set_status EscalatedToAdmin booking)) ;;
  emit (DisputeEscalated _bookingId).

Definition adminResolveDispute (env : Env) (_bookingId _guestPercentage : Z) : TxW unit :=
  onlyOwner env ;;
  s <- sload ;;
  let booking := booking_at s _bookingId in
  require (bool_decide (status booking = EscalatedToAdmin)) "Not escalated to admin" ;;
  require (_guestPercentage <=? 100) "Invalid percentage" ;;
  let outcome := if _guestPercentage =? 100 then Refunded else Completed in
  if paidOffChain booking then
    sstore (store_booking _bookingId (set_status outcome booking)) ;;
    emit (BookingCompleted _bookingId)
  else
    scaled <- checked_mul (hostAmount booking) _guestPercentage ;;
    guestRefund <- checked_div scaled 100 ;;
    hostPayout <- checked_sub (hostAmount booking) guestRefund ;;
    (if guestRefund >? 0 then safeTransfer env (guest booking) guestRefund else ret tt) ;;
    (if hostPayout >? 0 then safeTransfer env (host booking) hostPayout else ret tt) ;;
    safeTransfer env (treasury s) (platformFee booking) ;;
    sstore (store_booking _bookingId (set_status outcome booking)) ;;
    emit (BookingCompleted _bookingId) ;;
    (if guestRefund >? 0 then emit (BookingRefunded _bookingId guestRefund) else ret tt).

Definition cancelBooking (env : Env) (_bookingId : Z) : TxW unit :=
  s <- sload ;;
  let booking := booking_at s _bookingId in
  require (guest booking =? msgSender env) "Not the guest" ;;
  require (bool_decide (status booking = Active)) "Cannot cancel booking" ;;
  require (block_timestamp env <? checkInDate booking) "Past check-in date" ;;
  sstore (store_booking _bookingId (set_status Cancelled booking)) ;;
  if paidOffChain booking then emit (BookingCancelled _bookingId)
  else
    safeTransfer env (guest booking) (hostAmount booking) ;;
    safeTransfer env (treasury s) (platformFee booking) ;;
    emit (BookingCancelled _bookingId) ;;
    emit (BookingRefunded _bookingId (hostAmount booking)).

(** The token side of [_completeBooking]: nothing for a booking paid off
    chain, else the fee to the treasury and then the host amount to the
    host. *)
Definition settlement (env : Env) (s : Storage) (b : Booking) (tok : T) : option T :=
  if paidOffChain b then Some tok
  else match transfer (this env) (treasury s) (platformFee b) tok with
       | Some tok1 => transfer (this env) (host b) (hostAmount b) tok1
       | None => None
       end.

(** The token side of [adminResolveDispute] for an escrowed booking: the
    refund to the guest and the payout to the host, each only when
    positive, then the fee to the treasury. *)
Definition transfer_if_positive (env : Env) (to : address) (value : Z) (tok : T) : option T :=
  if value >? 0 then transfer (this env) to value tok else Some tok.

Definition admin_payout (env : Env) (s : Storage) (b : Booking)
    (guestRefund hostPayout : Z) (tok : T) : option T :=
  match transfer_if_positive env (guest b) guestRefund tok with
  | Some tok1 =>
      match transfer_if_positive env (host b) hostPayout tok1 with
      | Some tok2 => transfer (this env) (treasury s) (platformFee b) tok2
      | None => None
      end
  | None => None
  end.

(** The externally callable functions. *)
Inductive Call : Type :=
| Call_transferOwnership (newOwner : address)
| Call_renounceOwnership
| Call_setTreasury (_treasury : address)
| Call_createBooking (_propertyId : string)
    (_checkInDate _checkOutDate _totalAmount : Z) (_bookingURI : string)
| Call_createBookingPaid (_propertyId : string)
    (_checkInDate _checkOutDate _totalAmount : Z)
    (_paymentReference _bookingURI : string)
| Call_triggerCheckInWindow (_bookingId : Z)
| Call_checkIn (_bookingId : Z)
| Call_processMissedCheckIn (_bookingId : Z)
| Call_hostResolveDispute (_bookingId : Z)
| Call_guestResolveDispute (_bookingId : Z)
| Call_escalateDispute (_bookingId : Z)
| Call_adminResolveDispute (_bookingId _guestPercentage : Z)
| Call_cancelBooking (_bookingId : Z).

Definition discard {A : Type} (m : TxW A) : TxW unit := _ <- m ;; ret tt.

Definition call (env : Env) (c : Call) : TxW unit :=
  match c with
  | Call_transferOwnership newOwner => transferOwnership env newOwner
  | Call_renounceOwnership => renounceOwnership env
  | Call_setTreasury t => setTreasury env t
  | Call_createBooking p ci co amount uri =>
      discard (createBooking env p ci co amount uri)
  | Call_createBookingPaid p ci co amount ref uri =>
      discard (createBookingPaid env p ci co amount ref uri)
  | Call_triggerCheckInWindow id => triggerCheckInWindow env id
  | Call_checkIn id => checkIn env id
  | Call_processMissedCheckIn id => processMissedCheckIn env id
  | Call_hostResolveDispute id => hostResolveDispute env id
  | Call_guestResolveDispute id => guestResolveDispute env id
  | Call_escalateDispute id => escalateDispute env id
  | Call_adminResolveDispute id pct => adminResolveDispute env id pct
  | Call_cancelBooking id => cancelBooking env id
  end.

(** A transaction runs on the storage and the token state it finds and
    starts with an empty log. *)
Definition run {A : Type} (m : TxW A) (s : Storage) (tok : T) : Result (A * World T) :=
  m {| storage := s; eurcToken := tok; emitted := [] |}.

(** Storage states the contract can be in: the deployed state, and any
    state reached from one by a call that did not revert.  The token state
    and the marketplace are whatever they happen to be at each call. *)
Inductive reachable : Storage -> Prop :=
| reachable_deployed (deployer _treasury : address) :
    reachable (constructor deployer _treasury)
| reachable_call (s : Storage) (env : Env) (c : Call) (tok : T) (w : World T) :
    reachable s ->
    0 <= block_timestamp env ->
    run (call env c) s tok = Ok (tt, w) ->
    reachable (storage w).

End Contract.

(** Vocabulary of the specification. *)

Definition DateConflict : Revert := Error "Booking dates conflict with existing booking".

Definition NotDisputed : Revert := Error "Not in dispute".

Definition DisputeWindowOpen : Revert := Error "Dispute resolution window not expired".

Definition AlreadyResolved : Revert := Error "Dispute already resolved".

Definition DisputeExpired : Revert := Error "Dispute window expired".

Definition NotEscalated : Revert := Error "Not escalated to admin".

Definition InvalidPercentage : Revert := Error "Invalid percentage".

Definition InvalidDateRange (e : Revert) : Prop :=
  e = Error "Check-in must be in the future"
  \/ e = Error "Check-out must be after check-in"
  \/ e = Error "Booking must be at least 1 night".

Definition inactive (b : Booking) : Prop :=
  status b = Cancelled \/ status b = Refunded.

(** The half-open stays [[checkIn, checkOut)] of two bookings share an instant. *)
Definition stays_overlap (b1 b2 : Booking) : Prop :=
  exists t : Z, checkInDate b1 <= t < checkOutDate b1
                /\ checkInDate b2 <= t < checkOutDate b2.

(** The overlap test of [hasBookingConflict] against one existing booking. *)
Definition conflicts_with (_checkInDate _checkOutDate : Z) (existing : Booking) : Prop :=
  _checkInDate < checkOutDate existing /\ _checkOutDate > checkInDate existing.

(** Some stored booking on the property is neither Cancelled nor Refunded
    and fails the overlap test against the requested stay. *)
Definition active_conflict (s : Storage) (p : string) (_checkInDate _checkOutDate : Z) : Prop :=
  exists j b, bookings s !! j = Some b
              /\ propertyId b = p
              /\ ~ inactive b
              /\ conflicts_with _checkInDate _checkOutDate b.

(** The checks of a creation call that come before the conflict check:
    the property is active and exists, the guest is not the host (escrowed
    variant only), check-in is in the future and check-out after check-in. *)
Definition property_checks (env : Env) (p : string) (escrowed : bool) : Prop :=
  let prop := PropertyMarketplace.properties (propertyMarketplace env) p in
  PropertyMarketplace.isActive prop = true
  /\ PropertyMarketplace.owner prop <> 0
  /\ (escrowed = true -> PropertyMarketplace.owner prop <> msgSender env).

Definition date_order_checks (env : Env) (_checkInDate _checkOutDate : Z) : Prop :=
  block_timestamp env < _checkInDate /\ _checkInDate < _checkOutDate.

(** The fee split fits: neither the product nor the subtraction nor the
    id counter leaves [uint256]. *)
Definition arithmetic_fits (env : Env) (s : Storage) (_totalAmount : Z) : Prop :=
  let pct := PropertyMarketplace.platformFeePercentage (propertyMarketplace env) in
  _totalAmount * pct <= MAX_UINT256
  /\ _totalAmount * pct / 1000 <= _totalAmount
  /\ _bookingIdCounter s + 1 <= MAX_UINT256.

(** The record either creation variant stores under the next id. *)
Definition new_booking (env : Env) (s : Storage) (_propertyId : string)
    (_checkInDate _checkOutDate _totalAmount : Z)
    (_paymentReference _bookingURI : string) (_paidOffChain : bool) : Booking :=
  let fee := _totalAmount
             * PropertyMarketplace.platformFeePercentage (propertyMarketplace env)
             / 1000 in
  {| bookingId := _bookingIdCounter s + 1; propertyId := _propertyId;
     guest := msgSender env;
     host := PropertyMarketplace.owner
               (PropertyMarketplace.properties (propertyMarketplace env) _propertyId);
     checkInDate := _checkInDate; checkOutDate := _checkOutDate;
     totalAmount := _totalAmount; platformFee := fee;
     hostAmount := _totalAmount - fee;
     status := Active;
     checkInWindowStart := 0; checkInDeadline := 0; disputeDeadline := 0;
     isCheckInComplete := false;
     isResolvedByHost := false; isResolvedByGuest := false;
     disputeReason := ""; bookingURI := _bookingURI;
     paymentReference := _paymentReference; paidOffChain := _paidOffChain |}.

Definition record_booking (nb : Booking) (s : Storage) : Storage :=
  push_guestBooking (guest nb) (bookingId nb)
    (push_propertyBooking (propertyId nb) (bookingId nb)
       (store_booking (bookingId nb) nb
          (set_bookingIdCounter (bookingId nb) s))).

(** A reference ERC-20 ledger to instantiate [IERC20] with: balances and
    allowances, a transfer failing on insufficient balance or allowance. *)
Record Ledger : Type := {
  balanceOf : gmap Z Z;
  allowance : gmap (Z * Z) Z
}.

Definition balance (l : Ledger) (a : address) : Z := default 0 (balanceOf l !! a).

Definition allowed (l : Ledger) (holder spender : address) : Z :=
  default 0 (allowance l !! (holder, spender)).

Definition move (from to : address) (value : Z) (l : Ledger) : Ledger :=
  let debited := <[from := balance l from - value]> (balanceOf l) in
  {| balanceOf := <[to := default 0 (debited !! to) + value]> debited;
     allowance := allowance l |}.

Definition spend (holder spender : address) (value : Z) (l : Ledger) : Ledger :=
  {| balanceOf := balanceOf l;
     allowance := <[(holder, spender) := allowed l holder spender - value]> (allowance l) |}.

#[global] Instance Ledger_IERC20 : IERC20 Ledger := {|
  transfer caller to value l :=
    if (0 <=? value) && (value <=? balance l caller)
    then Some (move caller to value l) else None;
  transferFrom caller from to value l :=
    if (0 <=? value) && (value <=? balance l from) && (value <=? allowed l from caller)
    then Some (move from to value (spend from caller value l)) else None
|}.

End BookingManager.

(** ** backend/src/services/event-listener.js *)

Module EventListener.

(** *** Events and their identity *)

(** An event argument as ethers decodes it. *)
Inductive Value : Type :=
| VBigInt (n : Z)
| VString (s : string)
| VBool (b : bool).

(** An event object: the listener accepts its own format ([name]) and the
    ethers format ([eventName]).  A field that is absent is [None]. *)
Record Event : Type := {
  name : option string;
  eventName : option string;
  args : option (list Value);
  timestamp : option Z;
  transactionHash : option string;
  blockNumber : Z;
  transactionIndex : Z
}.

(** JavaScript truthiness of a string field: absent and empty are falsy. *)
Definition truthy (o : option string) : bool :=
  match o with
  | Some s => negb (String.eqb s "")
  | None => false
  end.

(** [x || fallback] on a string field. *)
Definition or_else (o : option string) (fallback : string) : string :=
  match o with
  | Some s => if String.eqb s "" then fallback else s
  | None => fallback
  end.

Definition double_quote : ascii := ascii_of_nat 34.

Definition backslash : ascii := ascii_of_nat 92.

Definition hex_digit (n : Z) : ascii :=
  nth (Z.to_nat n) (list_ascii_of_string "0123456789abcdef") "0"%char.

(** [JSON.stringify] of one character of a string. *)
Definition JSON_escape_char (c : ascii) : string :=
  let n := Z.of_N (N_of_ascii c) in
  if n =? 34 then String backslash (String double_quote "")
  else if n =? 92 then String backslash (String backslash "")
  else if n =? 8 then "\b"
  else if n =? 9 then "\t"
  else if n =? 10 then "\n"
  else if n =? 12 then "\f"
  else if n =? 13 then "\r"
  else if n <? 32 then "\u00" ++ String (hex_digit (n / 16)) (String (hex_digit (n mod 16)) "")
  else String c "".

Fixpoint JSON_escape (s : string) : string :=
  match s with
  | EmptyString => EmptyString
  | String c rest => JSON_escape_char c ++ JSON_escape rest
  end.

Definition JSON_string (s : string) : string :=
  String double_quote (JSON_escape s ++ String double_quote "").

(** The replacer of [processEvent]: a bigint becomes its decimal string. *)
Definition BigInt_toString (n : Z) : string := NilZero.string_of_int (Z.to_int n).

Definition safeArg (v : Value) : Value :=
  match v with
  | VBigInt n => VString (BigInt_toString n)
  | other => other
  end.

Definition JSON_stringify_value (v : Value) : string :=
  match v with
  | VBigInt n => BigInt_toString n
  | VString s => JSON_string s
  | VBool true => "true"
  | VBool false => "false"
  end.

Definition JSON_stringify (vs : list Value) : string :=
  "[" ++ String.concat "," (map JSON_stringify_value vs) ++ "]".

Definition eventId (transactionHash eventName : string) (eventArgs : list Value) : string :=
  transactionHash ++ "-" ++ eventName ++ "-" ++ JSON_stringify (map safeArg eventArgs).

(** *** Handlers *)

(** The table of [getEventHandler]; the three OpenZeppelin events share
    the handler that does nothing.  (Event names are those of the two
    contract ABIs, none of which is a member of [Object.prototype].) *)
Inductive Handler : Type :=
| handlePropertyListed
| handlePropertyUpdated
| handlePropertyRemoved
| handlePropertyMetadataUpdated
| handleBookingCreated
| handleBookingCreatedPaid
| handleCheckedIn
| handleBookingCompleted
| handleBookingCancelled
| ignoreSilently.

Definition getEventHandler (eventName : string) : option Handler :=
  if String.eqb eventName "PropertyListed" then Some handlePropertyListed
  else if String.eqb eventName "PropertyUpdated" then Some handlePropertyUpdated
  else if String.eqb eventName "PropertyRemoved" then Some handlePropertyRemoved
  else if String.eqb eventName "PropertyMetadataUpdated"
  then Some handlePropertyMetadataUpdated
  else if String.eqb eventName "BookingCreated" then Some handleBookingCreated
  else if String.eqb eventName "BookingCreatedPaid" then Some handleBookingCreatedPaid
  else if String.eqb eventName "CheckedIn" then Some handleCheckedIn
  else if String.eqb eventName "BookingCompleted" then Some handleBookingCompleted
  else if String.eqb eventName "BookingCancelled" then Some handleBookingCancelled
  else if String.eqb eventName "OwnershipTransferred" then Some ignoreSilently
  else if String.eqb eventName "Approval" then Some ignoreSilently
  else if String.eqb eventName "Transfer" then Some ignoreSilently
  else None.

(** What [processEvent] hands to a handler. *)
Record HandlerInput : Type := {
  input_name : string;
  input_args : list Value;
  input_timestamp : option Z;
  input_transactionHash : string
}.

(** A handler either returns or throws; either way it may have changed
    what lies outside the listener. *)
Inductive Completion (W : Type) : Type :=
| Returned (w : W)
| Threw (w : W).

Arguments Returned {W} w.
Arguments Threw {W} w.

Definition world_after {W : Type} (c : Completion W) : W :=
  match c with
  | Returned w => w
  | Threw w => w
  end.

(** *** The listener *)

Record Listener : Type := {
  lastProcessedBlock : Z;
  processedEvents : gset string;
  processingEvents : gset string
}.

Definition mark_processing (id : string) (l : Listener) : Listener :=
  {| lastProcessedBlock := lastProcessedBlock l;
     processedEvents := processedEvents l;
     processingEvents := {[ id ]} ∪ processingEvents l |}.

Definition mark_processed (id : string) (l : Listener) : Listener :=
  {| lastProcessedBlock := lastProcessedBlock l;
     processedEvents := {[ id ]} ∪ processedEvents l;
     processingEvents := processingEvents l |}.

Definition release (id : string) (l : Listener) : Listener :=
  {| lastProcessedBlock := lastProcessedBlock l;
     processedEvents := processedEvents l;
     processingEvents := processingEvents l ∖ {[ id ]} |}.

Definition set_lastProcessedBlock (n : Z) (l : Listener) : Listener :=
  {| lastProcessedBlock := n;
     processedEvents := processedEvents l;
     processingEvents := processingEvents l |}.

(** The line [processEvent] logs for an event. *)
Inductive Outcome : Type :=
| UnknownEventFormat
| AlreadyBeingProcessed
| AlreadyProcessed
| NoHandlerForEvent
| ProcessedSuccessfully
| ErrorProcessingEvent
| ThrewBeforeTry.

#[global] Instance Outcome_eq_dec : EqDecision Outcome.
Proof. solve_decision. Defined.

(** The part of [processEvent] before the [try]: it reads the event in one
    of the two formats and computes its identity.  Stringifying absent
    arguments makes [JSON.parse] throw, outside the [try]. *)
Inductive Parsed : Type :=
| ParsedEvent (eventId : string) (input : HandlerInput)
| ParsedUnknown
| ParsedThrow.

Definition parseEvent (now : Z) (event : Event) : Parsed :=
  let parsed :=
    if truthy (name event)
    then Some (default "" (name event), args event, timestamp event,
               or_else (transactionHash event) "unknown")
    else if truthy (eventName event)
    then Some (default "" (eventName event), args event, Some now,
               or_else (transactionHash event) "unknown")
    else None in
  match parsed with
  | None => ParsedUnknown
  | Some (eventName, None, _, _) => ParsedThrow
  | Some (eventName, Some eventArgs, eventTimestamp, transactionHash) =>
      ParsedEvent (eventId transactionHash eventName eventArgs)
        {| input_name := eventName; input_args := eventArgs;
           input_timestamp := eventTimestamp;
           input_transactionHash := transactionHash |}
  end.

(** [processEvent] up to the call of the handler: either the event is
    settled at once, or it is marked in flight and its handler is due. *)
Inductive Entered : Type :=
| Settled (o : Outcome) (l : Listener)
| InFlight (id : string) (h : Handler) (input : HandlerInput) (l : Listener).

Definition processEvent_enter (now : Z) (event : Event) (l : Listener) : Entered :=
  match parseEvent now event with
  | ParsedUnknown => Settled UnknownEventFormat l
  | ParsedThrow => Settled ThrewBeforeTry l
  | ParsedEvent id input =>
      if bool_decide (id ∈ processingEvents l) then Settled AlreadyBeingProcessed l
      else if bool_decide (id ∈ processedEvents l) then Settled AlreadyProcessed l
      else
        let l1 := mark_processing id l in
        match getEventHandler (input_name input) with
        | Some h => InFlight id h input l1
        | None => Settled NoHandlerForEvent (release id l1)
        end
  end.

(** [processEvent] once the handler has settled: a handler that returned
    has its event marked processed; in both cases the in-flight mark is
    removed ([finally]). *)
Definition processEvent_leave {W : Type} (id : string) (c : Completion W) (l : Listener)
    : Outcome * Listener :=
  match c with
  | Returned _ => (ProcessedSuccessfully, release id (mark_processed id l))
  | Threw _ => (ErrorProcessingEvent, release id l)
  end.

Section Listener.
Context {W : Type}.

(** What each handler does to the outside world. *)
Variable runHandler : Handler -> HandlerInput -> W -> Completion W.

(** One call of [processEvent] run to its end with nothing interleaved. *)
Definition processEvent (now : Z) (event : Event) (st : Listener * W)
    : Outcome * (Listener * W) :=
  match processEvent_enter now event (fst st) with
  | Settled o l => (o, (l, snd st))
  | InFlight id h input l =>
      let c := runHandler h input (snd st) in
      let (o, l') := processEvent_leave id c l in
      (o, (l', world_after c))
  end.

(** The [for ... of events] loop of the two polling functions: a throw out
    of [processEvent] ends the loop. *)
Fixpoint processEvents (now : Z) (events : list Event) (st : Listener * W)
    : list Outcome * (Listener * W) :=
  match events with
  | [] => ([], st)
  | event :: rest =>
      let (o, st1) := processEvent now event st in
      match o with
      | ThrewBeforeTry => ([o], st1)
      | _ => let (os, st2) := processEvents now rest st1 in (o :: os, st2)
      end
  end.

(** The RPC provider and the two contracts' logs.  A request may fail. *)
Record Provider : Type := {
  getBlockNumber : option Z;
  propertyMarketplace_queryFilter : Z -> Z -> option (list Event);
  bookingManager_queryFilter : Z -> Z -> option (list Event)
}.

(** The comparator of [getAllEvents]: block number, then transaction index. *)
Definition compareEvents (a b : Event) : Z :=
  if negb (blockNumber a =? blockNumber b) then blockNumber a - blockNumber b
  else transactionIndex a - transactionIndex b.

(** [Array.prototype.sort] is stable: an element goes after those that do
    not compare greater. *)
Fixpoint insertEvent (e : Event) (sorted : list Event) : list Event :=
  match sorted with
  | [] => [e]
  | x :: rest => if compareEvents e x <? 0 then e :: x :: rest
                 else x :: insertEvent e rest
  end.

Definition sortEvents (events : list Event) : list Event :=
  fold_left (fun sorted e => insertEvent e sorted) events [].

Definition getAllEvents (provider : Provider) (fromBlock toBlock : Z) : list Event :=
  match propertyMarketplace_queryFilter provider fromBlock toBlock with
  | None => []
  | Some propertyEvents =>
      match bookingManager_queryFilter provider fromBlock toBlock with
      | None => propertyEvents
      | Some bookingEvents => sortEvents (propertyEvents ++ bookingEvents)
      end
  end.

Definition ends_in_throw (os : list Outcome) : bool :=
  match last os with
  | Some ThrewBeforeTry => true
  | _ => false
  end.

(** [processNewBlocks]: one poll.  The cursor moves to the current block
    once the loop over the events has run through. *)
Definition processNewBlocks (now : Z) (provider : Provider) (st : Listener * W)
    : list Outcome * (Listener * W) :=
  match getBlockNumber provider with
  | None => ([], st)
  | Some currentBlock =>
      if currentBlock >? lastProcessedBlock (fst st) then
        let events := getAllEvents provider (lastProcessedBlock (fst st) + 1) currentBlock in
        let (os, st') := processEvents now events st in
        if ends_in_throw os then (os, st')
        else (os, (set_lastProcessedBlock currentBlock (fst st'), snd st'))
      else ([], st)
  end.

(** [processHistoricalEvents], run once at start-up.  The block number is
    read outside the [try]; without a cursor the last 1000 blocks are
    scanned. *)
Definition processHistoricalEvents (now : Z) (provider : Provider) (st : Listener * W)
    : list Outcome * (Listener * W) :=
  match getBlockNumber provider with
  | None => ([], st)
  | Some currentBlock =>
      let fromBlock :=
        if lastProcessedBlock (fst st) >? 0 then lastProcessedBlock (fst st) + 1
        else Z.max 0 (currentBlock - 1000) in
      let events := getAllEvents provider fromBlock currentBlock in
      let (os, st') := processEvents now events st in
      if ends_in_throw os then (os, st')
      else (os, (set_lastProcessedBlock currentBlock (fst st'), snd st'))
  end.

End Listener.

(** *** The Strapi store

    The CMS is reached over HTTP.  It is modelled as the lists of its
    property and booking entries with the fields the listener reads or
    writes, together with the fate of the coming requests: [true] for a
    request that fails (network error, timeout, error status), in the order
    the requests are made; when the list is used up, requests succeed. *)

Record CmsProperty : Type := {
  property_id : Z;
  BlockchainPropertyId : option string;
  Title : string
}.

Record CmsBooking : Type := {
  booking_id : Z;
  property : option Z;
  StartDate : string;
  EndDate : string;
  Guests : Z;
  Rooms : Z;
  PriceperNight : Z;
  NumberOfNights : Z;
  AtlasFee : Z;
  CleaningFee : Z;
  TotalPaid : Z;
  PaidBy : string;
  BookingStatus : string;
  blockchainBookingId : option string;
  booking_transactionHash : option string;
  ipfsUri : option string;
  paymentReference : option string;
  users_permissions_user : option Z
}.

Record CmsUser : Type := {
  user_id : Z;
  walletAddress : string
}.

Record Cms : Type := {
  cms_properties : list CmsProperty;
  cms_bookings : list CmsBooking;
  cms_users : list CmsUser;
  next_id : Z;
  failures : list bool
}.

(** One HTTP request: whether it goes through, and the store with that
    request's fate consumed. *)
Definition request (cms : Cms) : bool * Cms :=
  match failures cms with
  | [] => (true, cms)
  | failed :: rest =>
      (negb failed,
       {| cms_properties := cms_properties cms; cms_bookings := cms_bookings cms;
          cms_users := cms_users cms; next_id := next_id cms; failures := rest |})
  end.

Definition add_booking (b : CmsBooking) (cms : Cms) : Cms :=
  {| cms_properties := cms_properties cms;
     cms_bookings := cms_bookings cms ++ [b];
     cms_users := cms_users cms;
     next_id := next_id cms + 1;
     failures := failures cms |}.

Definition set_bookings (bs : list CmsBooking) (cms : Cms) : Cms :=
  {| cms_properties := cms_properties cms; cms_bookings := bs;
     cms_users := cms_users cms; next_id := next_id cms;
     failures := failures cms |}.

(** The [bookingData] object handed to [createBookingInStrapi]. *)
Record BookingData : Type := {
  bookingId : string;
  propertyId : string;
  guest : string;
  checkInDate : Z;
  checkOutDate : Z;
  totalAmount : string;
  platformFee : string;
  hostAmount : string;
  status : string;
  numberOfNights : Z;
  paidViaFiat : bool;
  paidOffChain : bool;
  paymentMethod : option string;
  data_paymentReference : option string;
  data_ipfsUri : option string;
  data_transactionHash : option string;
  maxGuests : option Z
}.

(** [getBookingStatusString] *)
Definition getBookingStatusString (status : Z) : string :=
  if status =? 0 then "Upcoming"
  else if status =? 1 then "Upcoming"
  else if status =? 2 then "Active"
  else if status =? 3 then "Complete"
  else if status =? 4 then "Upcoming"
  else if status =? 5 then "Cancelled"
  else if status =? 6 then "Cancelled"
  else if status =? 7 then "Upcoming"
  else "Upcoming".

Definition set_BookingStatus (v : string) (b : CmsBooking) : CmsBooking :=
  {| booking_id := booking_id b; property := property b;
     StartDate := StartDate b; EndDate := EndDate b;
     Guests := Guests b; Rooms := Rooms b;
     PriceperNight := PriceperNight b; NumberOfNights := NumberOfNights b;
     AtlasFee := AtlasFee b; CleaningFee := CleaningFee b;
     TotalPaid := TotalPaid b; PaidBy := PaidBy b;
     BookingStatus := v;
     blockchainBookingId := blockchainBookingId b;
     booking_transactionHash := booking_transactionHash b;
     ipfsUri := ipfsUri b; paymentReference := paymentReference b;
     users_permissions_user := users_permissions_user b |}.

(** [findBookingByBlockchainId]: all bookings are fetched and then
    filtered by a predicate that is constantly false. *)
Definition findBookingByBlockchainId (blockchainBookingId : string) (cms : Cms)
    : list CmsBooking * Cms :=
  let (ok, cms1) := request cms in
  if ok then (filter (fun booking => false = true) (cms_bookings cms1), cms1)
  else ([], cms1).

(** [findPropertyByBlockchainId] *)
Definition findPropertyByBlockchainId (blockchainPropertyId : string) (cms : Cms)
    : list CmsProperty * Cms :=
  let (ok, cms1) := request cms in
  if ok
  then (filter (fun p => BlockchainPropertyId p = Some blockchainPropertyId)
          (cms_properties cms1), cms1)
  else ([], cms1).

(** [findBookingsByPropertyId] *)
Definition findBookingsByPropertyId (strapiPropertyId : Z) (cms : Cms)
    : list CmsBooking * Cms :=
  let (ok, cms1) := request cms in
  if ok
  then (filter (fun b => property b = Some strapiPropertyId) (cms_bookings cms1), cms1)
  else ([], cms1).

Section Sync.

(** Whether auto-sync is switched on ([STRAPI_AUTO_SYNC]). *)
Variable autoSync : bool.

(** Left open: the case-insensitive containment test of the user query,
    the number conversions of the amounts (floating point) and the ISO
    date of an instant; [toISOString] throws on an instant outside the
    range of [Date], which is [None] here. *)
Variable containsi : string -> string -> bool.
Variable microUnits : string -> Z.
Variable parseInt_or_0 : string -> Z.
Variable roundedQuotient : Z -> Z -> Z.
Variable isoDate : Z -> option string.

(** Left open: the recovery of a missing property from chain state (chain
    read, IPFS fetch, [createPropertyInStrapi]); [true] when it ran through
    without throwing. *)
Variable createPropertyFromChain : string -> Cms -> bool * Cms.

(** [findUserByWalletAddress] *)
Definition findUserByWalletAddress (wallet : string) (cms : Cms) : option CmsUser * Cms :=
  if String.eqb wallet "" then (None, cms)
  else
    let (ok, cms1) := request cms in
    if ok
    then (head (filter (fun u => containsi (walletAddress u) wallet = true)
                  (cms_users cms1)), cms1)
    else (None, cms1).

(** [x || null] on an optional string, [x || 2] on the guest count. *)
Definition or_null (o : option string) : option string :=
  match o with
  | Some s => if String.eqb s "" then None else Some s
  | None => None
  end.

Definition guests_or_2 (o : option Z) : Z :=
  match o with
  | Some n => if n =? 0 then 2 else n
  | None => 2
  end.

(** The relation to the user found, when it has an id. *)
Definition userRelation (user : option CmsUser) : option Z :=
  match user with
  | Some u => if user_id u =? 0 then None else Some (user_id u)
  | None => None
  end.

(** The entry [createBookingInStrapi] posts. *)
Definition new_entry (bookingData : BookingData) (strapiPropertyId : Z)
    (user : option CmsUser) (startDate endDate : string) (id : Z) : CmsBooking :=
  let offChain := paidOffChain bookingData || paidViaFiat bookingData in
  let method := default (if offChain then "Credit Card" else "ETH")
                  (or_null (paymentMethod bookingData)) in
  let totalPaid := if offChain then parseInt_or_0 (totalAmount bookingData)
                   else microUnits (totalAmount bookingData) in
  let platformFeeAmount := if offChain then parseInt_or_0 (platformFee bookingData)
                           else microUnits (platformFee bookingData) in
  {| booking_id := id;
     property := Some strapiPropertyId;
     StartDate := startDate;
     EndDate := endDate;
     Guests := guests_or_2 (maxGuests bookingData);
     Rooms := 1;
     PriceperNight := roundedQuotient totalPaid (numberOfNights bookingData);
     NumberOfNights := numberOfNights bookingData;
     AtlasFee := platformFeeAmount;
     CleaningFee := 0;
     TotalPaid := totalPaid;
     PaidBy := method;
     BookingStatus := status bookingData;
     blockchainBookingId := Some (bookingId bookingData);
     booking_transactionHash := or_null (data_transactionHash bookingData);
     ipfsUri := or_null (data_ipfsUri bookingData);
     paymentReference := or_null (data_paymentReference bookingData);
     users_permissions_user := userRelation user |}.

(** [createBookingInStrapi]: the entry returned (none for [null] or
    [undefined]), or a throw when a date of the request body cannot be
    formatted (no request is made then) or the POST fails. *)
Definition createBookingInStrapi (bookingData : BookingData) (cms : Cms)
    : Completion (option CmsBooking * Cms) :=
  if negb autoSync then Returned (None, cms)
  else
    let (existingBookings, cms1) := findBookingByBlockchainId (bookingId bookingData) cms in
    match existingBookings with
    | existing :: _ => Returned (Some existing, cms1)
    | [] =>
        let (properties, cms2) := findPropertyByBlockchainId (propertyId bookingData) cms1 in
        let (properties, cms3) :=
          match properties with
          | [] =>
              let (ran, cms') := createPropertyFromChain (propertyId bookingData) cms2 in
              if ran then findPropertyByBlockchainId (propertyId bookingData) cms'
              else ([], cms')
          | _ => (properties, cms2)
          end in
        match properties with
        | [] => Returned (None, cms3)
        | found :: _ =>
            let strapiPropertyId := property_id found in
            let (existingPropertyBookings, cms4) :=
              findBookingsByPropertyId strapiPropertyId cms3 in
            match existingPropertyBookings with
            | existing :: _ => Returned (Some existing, cms4)
            | [] =>
                let (user, cms5) := findUserByWalletAddress (guest bookingData) cms4 in
                match isoDate (checkInDate bookingData),
                      isoDate (checkOutDate bookingData) with
                | Some startDate, Some endDate =>
                    let (ok, cms6) := request cms5 in
                    if ok then
                      let entry := new_entry bookingData strapiPropertyId user
                                     startDate endDate (next_id cms6) in
                      Returned (Some entry, add_booking entry cms6)
                    else Threw (None, cms6)
                | _, _ => Threw (None, cms5)
                end
            end
        end
    end.

(** [updateBookingInStrapi] *)
Definition updateBookingInStrapi (bookingId : string) (newStatus : string) (cms : Cms)
    : Completion Cms :=
  let (found, cms1) := findBookingByBlockchainId bookingId cms in
  match found with
  | [] => Returned cms1
  | booking :: _ =>
      let (ok, cms2) := request cms1 in
      if ok
      then Returned (set_bookings
                       (map (fun b => if booking_id b =? booking_id booking
                                      then set_BookingStatus newStatus b else b)
                          (cms_bookings cms2)) cms2)
      else Threw cms2
  end.

(** Left open: how a booking handler obtains its [bookingData] (the read
    of [bookings(bookingId)] from the chain and the conversions); [None]
    when that throws. *)
Variable fetchBookingData : Handler -> HandlerInput -> option BookingData.

(** Left open: which strings [ethers.formatEther] reads as a number. *)
Variable readsAsNumber : string -> bool.

Definition firstArg (input : HandlerInput) : string :=
  match input_args input with
  | VBigInt n :: _ => BigInt_toString n
  | VString s :: _ => s
  | VBool true :: _ => "true"
  | VBool false :: _ => "false"
  | [] => "undefined"
  end.

(** The handlers, by what they do to the store.  The two booking-creation
    handlers and the three status handlers wrap their work in a
    [try]/[catch] that logs and returns;  [handlePropertyUpdated] formats
    its price argument outside any [try] and throws when that is absent
    or not a number; the rest only log (or remember the owner in the
    listener's own memory).  The payout callback a server may register for
    completed bookings runs in a [try]/[catch] of its own and cannot make
    the handler throw; what it does to the store is not part of the
    model. *)
Definition cmsHandlers (h : Handler) (input : HandlerInput) (cms : Cms) : Completion Cms :=
  match h with
  | handleBookingCreated | handleBookingCreatedPaid =>
      match fetchBookingData h input with
      | None => Returned cms
      | Some bookingData =>
          match createBookingInStrapi bookingData cms with
          | Returned (_, cms') => Returned cms'
          | Threw (_, cms') => Returned cms'
          end
      end
  | handleCheckedIn =>
      Returned (world_after (updateBookingInStrapi (firstArg input) "Active" cms))
  | handleBookingCompleted =>
      Returned (world_after (updateBookingInStrapi (firstArg input) "Complete" cms))
  | handleBookingCancelled =>
      Returned (world_after (updateBookingInStrapi (firstArg input) "Cancelled" cms))
  | handlePropertyUpdated =>
      match input_args input with
      | _ :: VBigInt _ :: _ => Returned cms
      | _ :: VString s :: _ => if readsAsNumber s then Returned cms else Threw cms
      | _ => Threw cms
      end
  | handlePropertyListed | handlePropertyRemoved | handlePropertyMetadataUpdated
  | ignoreSilently => Returned cms
  end.

End Sync.

End EventListener.


(** * Properties of BookingManager *)

Module BookingManagerProofs.
Import Solidity BookingManager.

Section Proofs.
Context {T : Type} {token : IERC20 T}.

(** ** Running the transaction monad *)

Lemma bind_ok {W A B : Type} (m : Tx W A) (k : A -> Tx W B) (w w' : W) (b : B) :
  bind m k w = Ok (b, w') ->
  exists a w1, m w = Ok (a, w1) /\ k a w1 = Ok (b, w').
Proof.
  unfold bind. destruct (m w) as [[a w1]|e]; [|discriminate].
  intros Hk. exists a, w1. split; [reflexivity|exact Hk].
Qed.

Lemma bind_eval {W A B : Type} (m : Tx W A) (k : A -> Tx W B) (w w1 : W) (a : A) :
  m w = Ok (a, w1) -> bind m k w = k a w1.
Proof. unfold bind. intros ->. reflexivity. Qed.

Lemma bind_reverted {W A B : Type} (m : Tx W A) (k : A -> Tx W B) (w : W) (e : Revert) :
  m w = Reverted e -> bind m k w = Reverted e.
Proof. unfold bind. intros ->. reflexivity. Qed.

Lemma require_ok {W : Type} (c : bool) (msg : string) (w w' : W) (u : unit) :
  require c msg w = Ok (u, w') -> c = true /\ w' = w.
Proof.
  unfold require, ret, revert. destruct c; [|discriminate].
  intros [= _ ->]. split; reflexivity.
Qed.

Lemma checked_add_ok {W : Type} (a b r : Z) (w w' : W) :
  checked_add a b w = Ok (r, w') -> r = a + b /\ a + b <= MAX_UINT256 /\ w' = w.
Proof.
  unfold checked_add, ret, revert. destruct (Z.leb_spec (a + b) MAX_UINT256); [|discriminate].
  intros [= <- ->]. auto.
Qed.

Lemma checked_sub_ok {W : Type} (a b r : Z) (w w' : W) :
  checked_sub a b w = Ok (r, w') -> r = a - b /\ b <= a /\ w' = w.
Proof.
  unfold checked_sub, ret, revert. destruct (Z.leb_spec b a); [|discriminate].
  intros [= <- ->]. auto.
Qed.

Lemma checked_mul_ok {W : Type} (a b r : Z) (w w' : W) :
  checked_mul a b w = Ok (r, w') -> r = a * b /\ a * b <= MAX_UINT256 /\ w' = w.
Proof.
  unfold checked_mul, ret, revert. destruct (Z.leb_spec (a * b) MAX_UINT256); [|discriminate].
  intros [= <- ->]. auto.
Qed.

Lemma checked_div_ok {W : Type} (a b r : Z) (w w' : W) :
  checked_div a b w = Ok (r, w') -> r = a / b /\ b <> 0 /\ w' = w.
Proof.
  unfold checked_div, ret, revert. destruct (Z.eqb_spec b 0); [discriminate|].
  intros [= <- ->]. auto.
Qed.

Lemma safeTransfer_ok (env : Env) (to : address) (v : Z) (w w' : World T) (u : unit) :
  safeTransfer env to v w = Ok (u, w') ->
  exists t', transfer (this env) to v (eurcToken w) = Some t'
             /\ w' = {| storage := storage w; eurcToken := t'; emitted := emitted w |}.
Proof.
  unfold safeTransfer. destruct (transfer _ _ _ _) as [t'|]; [|discriminate].
  intros [= <-]. eauto.
Qed.

Lemma safeTransferFrom_ok (env : Env) (from to : address) (v : Z) (w w' : World T) (u : unit) :
  safeTransferFrom env from to v w = Ok (u, w') ->
  exists t', transferFrom (this env) from to v (eurcToken w) = Some t'
             /\ w' = {| storage := storage w; eurcToken := t'; emitted := emitted w |}.
Proof.
  unfold safeTransferFrom. destruct (transferFrom _ _ _ _ _) as [t'|]; [|discriminate].
  intros [= <-]. eauto.
Qed.

Lemma ret_ok {W A : Type} (a a' : A) (w w' : W) :
  ret a w = Ok (a', w') -> a' = a /\ w' = w.
Proof. unfold ret. intros [= <- <-]. auto. Qed.

Lemma sload_ok (s : Storage) (w w' : World T) :
  sload w = Ok (s, w') -> s = storage w /\ w' = w.
Proof. unfold sload. intros [= <- <-]. auto. Qed.

Lemma sstore_ok (f : Storage -> Storage) (w w' : World T) (u : unit) :
  sstore f w = Ok (u, w') -> w' = with_storage f w.
Proof. unfold sstore, modify. intros [= _ Hw]. symmetry. exact Hw. Qed.

Lemma emit_ok (e : Event) (w w' : World T) (u : unit) :
  emit e w = Ok (u, w') ->
  w' = {| storage := storage w; eurcToken := eurcToken w; emitted := emitted w ++ [e] |}.
Proof. unfold emit, modify. intros [= _ Hw]. symmetry. exact Hw. Qed.

(** Inversion of a successful run, one statement at a time. *)
Ltac tx_inv1 :=
  match goal with
  | H : bind _ _ _ = Ok _ |- _ =>
      apply bind_ok in H; destruct H as (? & ? & ? & H); cbv beta in H
  | H : require _ _ _ = Ok _ |- _ =>
      apply require_ok in H; destruct H as [? ?]; subst
  | H : checked_add _ _ _ = Ok _ |- _ =>
      apply checked_add_ok in H; destruct H as (? & ? & ?); subst
  | H : checked_sub _ _ _ = Ok _ |- _ =>
      apply checked_sub_ok in H; destruct H as (? & ? & ?); subst
  | H : checked_mul _ _ _ = Ok _ |- _ =>
      apply checked_mul_ok in H; destruct H as (? & ? & ?); subst
  | H : checked_div _ _ _ = Ok _ |- _ =>
      apply checked_div_ok in H; destruct H as (? & ? & ?); subst
  | H : safeTransfer _ _ _ _ = Ok _ |- _ =>
      apply safeTransfer_ok in H; destruct H as (? & ? & ?); subst
  | H : safeTransferFrom _ _ _ _ _ = Ok _ |- _ =>
      apply safeTransferFrom_ok in H; destruct H as (? & ? & ?); subst
  | H : sload _ = Ok _ |- _ => apply sload_ok in H; destruct H as [? ?]; subst
  | H : sstore _ _ = Ok _ |- _ => apply sstore_ok in H; subst
  | H : emit _ _ = Ok _ |- _ => apply emit_ok in H; subst
  | H : ret _ _ = Ok _ |- _ => apply ret_ok in H; destruct H as [? ?]; subst
  | H : revert _ _ = Ok _ |- _ => discriminate H
  | H : (if ?c then _ else _) _ = Ok _ |- _ => destruct c eqn:?
  end.

Ltac tx_inv := repeat tx_inv1.

(** ** EscalateDispute *)

Lemma escalateDispute_run (env : Env) (id : Z) (s : Storage) (tok : T) :
  run (escalateDispute env id) s tok =
  let b := booking_at s id in
  if negb (bool_decide (status b = Disputed)) then Reverted NotDisputed
  else if negb (block_timestamp env >? disputeDeadline b) then Reverted DisputeWindowOpen
  else if isResolvedByHost b && isResolvedByGuest b then Reverted AlreadyResolved
  else Ok (tt, {| storage := store_booking id (set_status EscalatedToAdmin b) s;
                  eurcToken := tok;
                  emitted := [DisputeEscalated id] |}).
Proof.
  unfold run, escalateDispute, bind, sload, require, ret, revert, sstore, emit, modify.
  cbn [storage eurcToken emitted].
  destruct (bool_decide _); [|reflexivity].
  destruct (_ >? _); [|reflexivity].
  destruct (_ && _); reflexivity.
Qed.

Lemma booking_at_store_eq (id : Z) (b : Booking) (s : Storage) :
  booking_at (store_booking id b s) id = b.
Proof. unfold booking_at, store_booking. cbn. by rewrite lookup_insert_eq. Qed.

Lemma booking_at_store_ne (id j : Z) (b : Booking) (s : Storage) :
  j <> id -> booking_at (store_booking id b s) j = booking_at s j.
Proof.
  intros Hne. unfold booking_at, store_booking. cbn.
  by rewrite lookup_insert_ne.
Qed.

Lemma store_booking_twice (id : Z) (b1 b2 : Booking) (s : Storage) :
  store_booking id b2 (store_booking id b1 s) = store_booking id b2 s.
Proof. unfold store_booking. cbn. by rewrite insert_insert_eq. Qed.

(** ** What a successful call can do to the storage *)

(** A booking record only ever changes by moving along its life cycle:
    identity, parties, dates and amounts stay, the consent flags only go
    up, and Completed, Cancelled and Refunded are final. *)
Record evolves (b b' : Booking) : Prop := {
  ev_bookingId : bookingId b' = bookingId b;
  ev_propertyId : propertyId b' = propertyId b;
  ev_guest : guest b' = guest b;
  ev_host : host b' = host b;
  ev_checkInDate : checkInDate b' = checkInDate b;
  ev_checkOutDate : checkOutDate b' = checkOutDate b;
  ev_totalAmount : totalAmount b' = totalAmount b;
  ev_platformFee : platformFee b' = platformFee b;
  ev_hostAmount : hostAmount b' = hostAmount b;
  ev_paidOffChain : paidOffChain b' = paidOffChain b;
  ev_isResolvedByHost : isResolvedByHost b = true -> isResolvedByHost b' = true;
  ev_isResolvedByGuest : isResolvedByGuest b = true -> isResolvedByGuest b' = true;
  ev_isCheckInComplete : isCheckInComplete b = true -> isCheckInComplete b' = true;
  ev_completed : status b = Completed -> status b' = Completed;
  ev_cancelled : status b = Cancelled -> status b' = Cancelled;
  ev_refunded : status b = Refunded -> status b' = Refunded;
  ev_consensus :
    isResolvedByHost b' = true -> isResolvedByGuest b' = true ->
    (isResolvedByHost b = true /\ isResolvedByGuest b = true) \/ status b' = Completed
}.

(** The record a creation call stores under the next id. *)
Record created (env : Env) (s : Storage) (nb : Booking) : Prop := {
  cr_bookingId : bookingId nb = _bookingIdCounter s + 1;
  cr_future : block_timestamp env < checkInDate nb;
  cr_ordered : checkInDate nb < checkOutDate nb;
  cr_nights : 0 < (checkOutDate nb - checkInDate nb) / one_day;
  cr_free : hasBookingConflict s (propertyId nb) (checkInDate nb) (checkOutDate nb) = false;
  cr_platformFee :
    platformFee nb =
    totalAmount nb
    * PropertyMarketplace.platformFeePercentage (propertyMarketplace env) / 1000;
  cr_hostAmount : hostAmount nb = totalAmount nb - platformFee nb;
  cr_fee_le : platformFee nb <= totalAmount nb;
  cr_status : status nb = Active;
  cr_isResolvedByHost : isResolvedByHost nb = false;
  cr_isResolvedByGuest : isResolvedByGuest nb = false;
  cr_guest : guest nb = msgSender env;
  cr_host :
    host nb = PropertyMarketplace.owner
                (PropertyMarketplace.properties (propertyMarketplace env) (propertyId nb))
}.

Inductive transition (env : Env) (s : Storage) : Storage -> Prop :=
| transition_admin (o t : address) :
    transition env s (set_owner o (set_treasury t s))
| transition_create (nb : Booking) :
    created env s nb ->
    transition env s
      (push_guestBooking (guest nb) (bookingId nb)
         (push_propertyBooking (propertyId nb) (bookingId nb)
            (store_booking (bookingId nb) nb
               (set_bookingIdCounter (bookingId nb) s))))
| transition_update (id : Z) (b' : Booking) :
    (bookings s !! id = None ->
       id = 0 \/ block_timestamp env < 0) ->
    evolves (booking_at s id) b' ->
    transition env s (store_booking id b' s).

Lemma evolves_refl (b : Booking) : evolves b b.
Proof. split; auto. Qed.

Lemma zeroBooking_at (s : Storage) (id : Z) :
  bookings s !! id = None -> booking_at s id = zeroBooking.
Proof. unfold booking_at. intros ->. reflexivity. Qed.

Lemma transition_owner (env : Env) (s : Storage) (o : address) :
  transition env s (set_owner o s).
Proof. destruct s as [o0 t n bs pb gb]. exact (transition_admin env _ o t). Qed.

Lemma transition_treasury (env : Env) (s : Storage) (t : address) :
  transition env s (set_treasury t s).
Proof. destruct s as [o t0 n bs pb gb]. exact (transition_admin env _ o t). Qed.

Ltac zbool :=
  repeat match goal with
         | H : negb _ = true |- _ => apply negb_true_iff in H
         | H : negb _ = false |- _ => apply negb_false_iff in H
         | H : (_ >? _) = _ |- _ => rewrite Z.gtb_ltb in H
         | H : (_ >=? _) = _ |- _ => rewrite Z.geb_leb in H
         | H : (_ =? _) = true |- _ => apply Z.eqb_eq in H
         | H : (_ =? _) = false |- _ => apply Z.eqb_neq in H
         | H : (_ <? _) = true |- _ => apply Z.ltb_lt in H
         | H : (_ <? _) = false |- _ => apply Z.ltb_ge in H
         | H : (_ <=? _) = true |- _ => apply Z.leb_le in H
         | H : (_ <=? _) = false |- _ => apply Z.leb_gt in H
         | H : bool_decide _ = true |- _ => apply bool_decide_eq_true_1 in H
         | H : bool_decide _ = false |- _ => apply bool_decide_eq_false_1 in H
         end.

Ltac create_case env :=
  cbn [storage eurcToken emitted with_storage] in *;
  match goal with
  | |- transition _ _
         (push_guestBooking _ _ (push_propertyBooking _ _ (store_booking _ ?nb _))) =>
      apply (transition_create env _ nb)
  end;
  zbool; split; cbn; auto; lia.

Ltac update_case :=
  cbn [storage eurcToken emitted with_storage] in *;
  rewrite ?store_booking_twice;
  apply transition_update;
  [ let Hn := fresh "Hn" in
    intros Hn; apply zeroBooking_at in Hn; zbool; rewrite Hn in *; cbn in *;
    first [congruence | left; lia | right; lia]
  | zbool; split; cbn; rewrite ?booking_at_store_eq; cbn; auto; try congruence ].

Lemma call_transition (env : Env) (c : Call) (s : Storage) (tok : T) (w : World T) :
  run (call env c) s tok = Ok (tt, w) -> transition env s (storage w).
Proof.
  unfold run. destruct c; cbn [call]; intros Hrun.
  - unfold transferOwnership, onlyOwner in Hrun. tx_inv. apply transition_owner.
  - unfold renounceOwnership, onlyOwner in Hrun. tx_inv. apply transition_owner.
  - unfold setTreasury, onlyOwner in Hrun. tx_inv. apply transition_treasury.
  - unfold discard, createBooking in Hrun. cbv zeta in Hrun. tx_inv. create_case env.
  - unfold discard, createBookingPaid in Hrun. cbv zeta in Hrun. tx_inv. create_case env.
  - unfold triggerCheckInWindow in Hrun. cbv zeta in Hrun. tx_inv. update_case.
  - unfold checkIn in Hrun. cbv zeta in Hrun. tx_inv. update_case.
  - unfold processMissedCheckIn in Hrun. cbv zeta in Hrun. tx_inv. update_case.
  - unfold hostResolveDispute, _completeBooking in Hrun. cbv zeta in Hrun. tx_inv; update_case.
  - unfold guestResolveDispute, _completeBooking in Hrun. cbv zeta in Hrun. tx_inv; update_case.
  - unfold escalateDispute in Hrun. cbv zeta in Hrun. tx_inv. update_case.
  - unfold adminResolveDispute, onlyOwner in Hrun. cbv zeta in Hrun. tx_inv; update_case.
  - unfold cancelBooking in Hrun. cbv zeta in Hrun. tx_inv; update_case.
Qed.

(** ** The storage invariant *)

Record Inv (s : Storage) : Prop := {
  inv_counter : 0 <= _bookingIdCounter s;
  inv_dom : forall id, is_Some (bookings s !! id) -> 0 <= id <= _bookingIdCounter s;
  inv_created :
    forall id, 1 <= id <= _bookingIdCounter s ->
    exists b, bookings s !! id = Some b
              /\ bookingId b = id
              /\ checkInDate b < checkOutDate b
              /\ 0 < (checkOutDate b - checkInDate b) / one_day;
  inv_fee :
    forall id, platformFee (booking_at s id) + hostAmount (booking_at s id)
               = totalAmount (booking_at s id);
  inv_index :
    forall id, checkInDate (booking_at s id) < checkOutDate (booking_at s id) ->
    id ∈ propertyBookings_at s (propertyId (booking_at s id));
  inv_index_sound :
    forall p id, id ∈ propertyBookings_at s p ->
    1 <= id <= _bookingIdCounter s /\ propertyId (booking_at s id) = p;
  inv_disjoint :
    forall i j, i <> j ->
    propertyId (booking_at s i) = propertyId (booking_at s j) ->
    stays_overlap (booking_at s i) (booking_at s j) ->
    inactive (booking_at s i) \/ inactive (booking_at s j);
  inv_consensus :
    forall id, isResolvedByHost (booking_at s id) = true ->
    isResolvedByGuest (booking_at s id) = true ->
    status (booking_at s id) = Completed;
  inv_phantom : checkOutDate (booking_at s 0) = 0
}.

Lemma conflict_loop_false (s : Storage) (ids : list Z) (ci co : Z) :
  conflict_loop s ids ci co = false <->
  forall j, j ∈ ids ->
  inactive (booking_at s j) \/ ~ conflicts_with ci co (booking_at s j).
Proof.
  unfold inactive, conflicts_with.
  induction ids as [|i rest IH]; cbn [conflict_loop].
  - split; [|reflexivity]. intros _ j Hj. by apply elem_of_nil in Hj.
  - destruct (bool_decide (status (booking_at s i) = Cancelled)) eqn:Hc;
      [|destruct (bool_decide (status (booking_at s i) = Refunded)) eqn:Hr];
      cbn [orb]; zbool.
    + rewrite IH. split.
      * intros Hrest j [->|Hj]%elem_of_cons; auto.
      * intros Hall j Hj. apply Hall, elem_of_cons. auto.
    + rewrite IH. split.
      * intros Hrest j [->|Hj]%elem_of_cons; auto.
      * intros Hall j Hj. apply Hall, elem_of_cons. auto.
    + destruct (ci <? checkOutDate (booking_at s i)) eqn:H1;
        [destruct (co >? checkInDate (booking_at s i)) eqn:H2|]; cbn [andb]; zbool.
      * split; [discriminate|]. intros Hall.
        destruct (Hall i) as [[?|?]|Hn]; [apply elem_of_cons; auto|congruence..|].
        exfalso. apply Hn. lia.
      * rewrite IH. split.
        -- intros Hrest j [->|Hj]%elem_of_cons; [right; lia|auto].
        -- intros Hall j Hj. apply Hall, elem_of_cons. auto.
      * rewrite IH. split.
        -- intros Hrest j [->|Hj]%elem_of_cons; [right; lia|auto].
        -- intros Hall j Hj. apply Hall, elem_of_cons. auto.
Qed.

Lemma hasBookingConflict_false (s : Storage) (p : string) (ci co : Z) :
  hasBookingConflict s p ci co = false <->
  forall j, j ∈ propertyBookings_at s p ->
  inactive (booking_at s j) \/ ~ conflicts_with ci co (booking_at s j).
Proof. apply conflict_loop_false. Qed.

Lemma hasBookingConflict_true (s : Storage) (p : string) (ci co : Z) :
  hasBookingConflict s p ci co = true <->
  exists j, j ∈ propertyBookings_at s p
            /\ ~ inactive (booking_at s j)
            /\ conflicts_with ci co (booking_at s j).
Proof.
  unfold hasBookingConflict.
  induction (propertyBookings_at s p) as [|i rest IH]; cbn [conflict_loop].
  - split; [discriminate|]. intros (j & Hj & _). by apply elem_of_nil in Hj.
  - unfold inactive, conflicts_with in *.
    destruct (bool_decide (status (booking_at s i) = Cancelled)) eqn:Hc;
      [|destruct (bool_decide (status (booking_at s i) = Refunded)) eqn:Hr];
      cbn [orb]; zbool.
    + rewrite IH. split.
      * intros (j & Hj & Hrest). exists j. split; [apply elem_of_cons; auto|exact Hrest].
      * intros (j & [->|Hj]%elem_of_cons & Hact & Hov); [tauto|eauto].
    + rewrite IH. split.
      * intros (j & Hj & Hrest). exists j. split; [apply elem_of_cons; auto|exact Hrest].
      * intros (j & [->|Hj]%elem_of_cons & Hact & Hov); [tauto|eauto].
    + destruct (ci <? checkOutDate (booking_at s i)) eqn:H1;
        [destruct (co >? checkInDate (booking_at s i)) eqn:H2|]; cbn [andb]; zbool.
      * split; [|reflexivity]. intros _. exists i.
        split; [apply elem_of_cons; auto|]. split; [tauto|lia].
      * rewrite IH. split.
        -- intros (j & Hj & Hrest). exists j. split; [apply elem_of_cons; auto|exact Hrest].
        -- intros (j & [->|Hj]%elem_of_cons & Hact & Hov); [lia|eauto].
      * rewrite IH. split.
        -- intros (j & Hj & Hrest). exists j. split; [apply elem_of_cons; auto|exact Hrest].
        -- intros (j & [->|Hj]%elem_of_cons & Hact & Hov); [lia|eauto].
Qed.

Lemma overlap_conflicts (nb b : Booking) :
  stays_overlap nb b -> conflicts_with (checkInDate nb) (checkOutDate nb) b.
Proof. unfold stays_overlap, conflicts_with. intros (t & ? & ?). lia. Qed.

Lemma stays_overlap_sym (b1 b2 : Booking) : stays_overlap b1 b2 -> stays_overlap b2 b1.
Proof. unfold stays_overlap. intros (t & ? & ?). eauto. Qed.

Lemma overlap_nonempty (b1 b2 : Booking) :
  stays_overlap b1 b2 -> checkInDate b2 < checkOutDate b2.
Proof. unfold stays_overlap. intros (t & ? & ?). lia. Qed.

Lemma Inv_constructor (deployer _treasury : address) : Inv (constructor deployer _treasury).
Proof.
  split; unfold booking_at, propertyBookings_at; cbn.
  - lia.
  - intros id [b Hb]. by rewrite lookup_empty in Hb.
  - intros id Hid. lia.
  - intros id. rewrite lookup_empty. reflexivity.
  - intros id. rewrite lookup_empty. cbn. lia.
  - intros p id. rewrite lookup_empty. cbn. intros Hin. by apply elem_of_nil in Hin.
  - intros i j _ _. rewrite !lookup_empty. intros (t & ? & ?). cbn in *. lia.
  - intros id. rewrite lookup_empty. cbn. discriminate.
  - reflexivity.
Qed.

Lemma Inv_admin (s : Storage) (o t : address) : Inv s -> Inv (set_owner o (set_treasury t s)).
Proof. intros [? ? ? ? ? ? ? ? ?]. split; assumption. Qed.

Lemma Inv_update (env : Env) (s : Storage) (id : Z) (b' : Booking) :
  0 <= block_timestamp env ->
  (bookings s !! id = None -> id = 0 \/ block_timestamp env < 0) ->
  evolves (booking_at s id) b' ->
  Inv s -> Inv (store_booking id b' s).
Proof.
  intros Hts Hguard Hev HI.
  assert (Hat : forall j, booking_at (store_booking id b' s) j
                          = if decide (j = id) then b' else booking_at s j).
  { intros j. destruct (decide (j = id)) as [->|Hne].
    - apply booking_at_store_eq.
    - by apply booking_at_store_ne. }
  assert (Hid : 0 <= id <= _bookingIdCounter s).
  { destruct (bookings s !! id) as [b|] eqn:Hb.
    - apply (inv_dom s HI). eauto.
    - destruct (Hguard eq_refl) as [->|?]; [|lia].
      pose proof (inv_counter s HI). lia. }
  destruct Hev as [Ebid Epid Eg Eh Eci Eco Eta Epf Eha Epo Erh Erg Ecc Ecompl Ecanc Eref Econs].
  split.
  - exact (inv_counter s HI).
  - intros j. cbn. destruct (decide (j = id)) as [->|Hne].
    + intros _. exact Hid.
    + rewrite lookup_insert_ne by congruence. apply (inv_dom s HI).
  - intros j Hj. cbn. destruct (decide (j = id)) as [->|Hne].
    + rewrite lookup_insert_eq. exists b'. split; [reflexivity|].
      destruct (inv_created s HI id Hj) as (b & Hb & ? & ? & ?).
      unfold booking_at in *. rewrite Hb in *. cbn in *.
      repeat split; congruence.
    + rewrite lookup_insert_ne by congruence. apply (inv_created s HI j Hj).
  - intros j. rewrite Hat. destruct (decide (j = id)) as [->|Hne].
    + pose proof (inv_fee s HI id). congruence.
    + apply (inv_fee s HI).
  - intros j. rewrite Hat. unfold propertyBookings_at. cbn.
    destruct (decide (j = id)) as [->|Hne].
    + pose proof (inv_index s HI id) as Hx. unfold propertyBookings_at in Hx.
      rewrite Epid, Eci, Eco. exact Hx.
    + apply (inv_index s HI).
  - intros p j Hin. rewrite Hat.
    destruct (inv_index_sound s HI p j Hin) as [Hr Hp].
    split; [exact Hr|]. destruct (decide (j = id)) as [->|Hne]; congruence.
  - intros i j Hne. rewrite !Hat. unfold inactive, stays_overlap.
    pose proof (inv_disjoint s HI i j Hne) as Hd. unfold inactive, stays_overlap in Hd.
    destruct (decide (i = id)) as [->|Hi]; destruct (decide (j = id)) as [->|Hj];
      try congruence.
    + rewrite Epid, Eci, Eco.
      intros Hp Ho. destruct (Hd Hp Ho) as [[?|?]|?]; auto.
    + rewrite Epid, Eci, Eco.
      intros Hp Ho. destruct (Hd Hp Ho) as [?|[?|?]]; auto.
    + exact Hd.
  - intros j. rewrite Hat. destruct (decide (j = id)) as [->|Hne].
    + intros Hh Hg. destruct (Econs Hh Hg) as [[Hh0 Hg0]|?]; [|assumption].
      apply Ecompl. apply (inv_consensus s HI id Hh0 Hg0).
    + apply (inv_consensus s HI).
  - rewrite Hat. destruct (decide (0 = id)) as [<-|Hne].
    + rewrite Eco. apply (inv_phantom s HI).
    + apply (inv_phantom s HI).
Qed.

Lemma Inv_create (env : Env) (s : Storage) (nb : Booking) :
  created env s nb ->
  Inv s ->
  Inv (push_guestBooking (guest nb) (bookingId nb)
         (push_propertyBooking (propertyId nb) (bookingId nb)
            (store_booking (bookingId nb) nb
               (set_bookingIdCounter (bookingId nb) s)))).
Proof.
  intros Hcr HI.
  pose proof (inv_counter s HI) as Hc.
  pose proof (cr_bookingId _ _ _ Hcr) as Hn.
  set (n := bookingId nb) in *.
  set (s' := push_guestBooking _ _ _).
  assert (Hfresh : bookings s !! n = None).
  { destruct (bookings s !! n) as [b|] eqn:Hb; [|reflexivity].
    assert (0 <= n <= _bookingIdCounter s) by (apply (inv_dom s HI); eauto). lia. }
  assert (Hat : forall j, booking_at s' j = if decide (j = n) then nb else booking_at s j).
  { intros j. unfold booking_at, s'. cbn. destruct (decide (j = n)) as [->|Hne].
    - by rewrite lookup_insert_eq.
    - by rewrite lookup_insert_ne. }
  assert (Hpb : forall q, propertyBookings_at s' q
                          = if decide (q = propertyId nb)
                            then propertyBookings_at s (propertyId nb) ++ [n]
                            else propertyBookings_at s q).
  { intros q. unfold propertyBookings_at, s'. cbn.
    destruct (decide (q = propertyId nb)) as [->|Hne].
    - by rewrite lookup_insert_eq.
    - by rewrite lookup_insert_ne. }
  assert (Hzero : booking_at s n = zeroBooking) by (by apply zeroBooking_at).
  split.
  - cbn. lia.
  - intros j. cbn. destruct (decide (j = n)) as [->|Hne].
    + intros _. lia.
    + rewrite lookup_insert_ne by congruence. intros Hj.
      pose proof (inv_dom s HI j Hj). lia.
  - intros j. cbn. intros Hj. destruct (decide (j = n)) as [->|Hne].
    + rewrite lookup_insert_eq. exists nb.
      repeat split; [apply (cr_ordered _ _ _ Hcr)|apply (cr_nights _ _ _ Hcr)].
    + rewrite lookup_insert_ne by congruence. apply (inv_created s HI). lia.
  - intros j. rewrite Hat. destruct (decide (j = n)) as [->|Hne].
    + rewrite (cr_hostAmount _ _ _ Hcr). lia.
    + apply (inv_fee s HI).
  - intros j. rewrite Hat, Hpb. destruct (decide (j = n)) as [->|Hne].
    + intros _. rewrite decide_True by reflexivity. apply elem_of_app. right.
      by apply list_elem_of_singleton.
    + intros Hj. pose proof (inv_index s HI j Hj) as Hin.
      destruct (decide (propertyId (booking_at s j) = propertyId nb)) as [Hp|Hp].
      * apply elem_of_app. left. by rewrite <- Hp.
      * exact Hin.
  - intros p j. rewrite Hat, Hpb. cbn.
    destruct (decide (p = propertyId nb)) as [->|Hp].
    + intros [Hin|Hin]%elem_of_app.
      * destruct (inv_index_sound s HI _ _ Hin) as [Hr Hpj].
        rewrite decide_False by lia. split; [lia|exact Hpj].
      * apply list_elem_of_singleton in Hin. subst j.
        rewrite decide_True by reflexivity. split; [lia|reflexivity].
    + intros Hin. destruct (inv_index_sound s HI _ _ Hin) as [Hr Hpj].
      rewrite decide_False by lia. split; [lia|exact Hpj].
  - assert (Hnew : forall j, j <> n ->
               propertyId nb = propertyId (booking_at s j) ->
               stays_overlap nb (booking_at s j) -> inactive (booking_at s j)).
    { intros j Hj Hp Ho.
      pose proof (proj1 (hasBookingConflict_false _ _ _ _) (cr_free _ _ _ Hcr)) as Hfree.
      destruct (Hfree j) as [?|Hno]; [|assumption|].
      - rewrite Hp. apply (inv_index s HI). by apply (overlap_nonempty nb).
      - exfalso. apply Hno. by apply overlap_conflicts. }
    intros i j Hne. rewrite !Hat.
    destruct (decide (i = n)) as [->|Hi]; destruct (decide (j = n)) as [->|Hj];
      try congruence.
    + intros Hp Ho. right. by apply Hnew.
    + intros Hp Ho. left. apply Hnew; [assumption|congruence|by apply stays_overlap_sym].
    + by apply (inv_disjoint s HI).
  - intros j. rewrite Hat. destruct (decide (j = n)) as [->|Hne].
    + rewrite (cr_isResolvedByHost _ _ _ Hcr). discriminate.
    + apply (inv_consensus s HI).
  - rewrite Hat. rewrite decide_False by lia. apply (inv_phantom s HI).
Qed.

Lemma Inv_transition (env : Env) (s s' : Storage) :
  0 <= block_timestamp env -> transition env s s' -> Inv s -> Inv s'.
Proof.
  intros Hts [o t|nb Hcr|id b' Hguard Hev] HI.
  - by apply Inv_admin.
  - by apply (Inv_create env).
  - by apply (Inv_update env).
Qed.

Lemma reachable_Inv (s : Storage) : reachable s -> Inv s.
Proof.
  induction 1 as [deployer t|s env c tok w Hreach IH Hts Hrun].
  - apply Inv_constructor.
  - apply (Inv_transition env s); [exact Hts| |exact IH].
    by apply (call_transition env c s tok).
Qed.

(** ** Creation, statement by statement *)

Lemma createBooking_run (env : Env) (p : string) (ci co amount : Z) (uri : string)
    (s : Storage) (tok : T) :
  run (createBooking env p ci co amount uri) s tok =
  let prop := PropertyMarketplace.properties (propertyMarketplace env) p in
  let pct := PropertyMarketplace.platformFeePercentage (propertyMarketplace env) in
  let nb := new_booking env s p ci co amount "" uri false in
  if negb (PropertyMarketplace.isActive prop) then Reverted (Error "Property not active")
  else if PropertyMarketplace.owner prop =? 0 then Reverted (Error "Property does not exist")
  else if PropertyMarketplace.owner prop =? msgSender env
  then Reverted (Error "Cannot book own property")
  else if negb (ci >? block_timestamp env)
  then Reverted (Error "Check-in must be in the future")
  else if negb (co >? ci) then Reverted (Error "Check-out must be after check-in")
  else if hasBookingConflict s p ci co then Reverted DateConflict
  else if negb ((co - ci) / one_day >? 0)
  then Reverted (Error "Booking must be at least 1 night")
  else match transferFrom (this env) (msgSender env) (this env) amount tok with
       | None => Reverted SafeERC20FailedOperation
       | Some tok' =>
           if negb (amount * pct <=? MAX_UINT256) then Reverted Panic
           else if negb (amount * pct / 1000 <=? amount) then Reverted Panic
           else if negb (_bookingIdCounter s + 1 <=? MAX_UINT256) then Reverted Panic
           else Ok (_bookingIdCounter s + 1,
                    {| storage := record_booking nb s;
                       eurcToken := tok';
                       emitted := [BookingCreated (_bookingIdCounter s + 1) p
                                     (msgSender env) ci amount] |})
       end.
Proof.
  unfold run, createBooking. cbv zeta.
  unfold bind at 1. unfold require at 1.
  destruct (PropertyMarketplace.isActive _); [|reflexivity]. cbn [negb ret].
  unfold bind at 1. unfold require at 1.
  destruct (PropertyMarketplace.owner _ =? 0); [reflexivity|]. cbn [negb ret].
  unfold bind at 1. unfold require at 1.
  destruct (PropertyMarketplace.owner _ =? msgSender env); [reflexivity|]. cbn [negb ret].
  unfold bind at 1. unfold require at 1.
  destruct (ci >? block_timestamp env); [|reflexivity]. cbn [negb ret].
  unfold bind at 1. unfold require at 1.
  destruct (co >? ci) eqn:Hord; [|reflexivity]. cbn [negb ret].
  unfold bind at 1. unfold sload at 1. cbn [storage].
  unfold bind at 1. unfold require at 1.
  destruct (hasBookingConflict s p ci co); [reflexivity|]. cbn [negb ret].
  unfold bind at 1. unfold checked_sub at 1.
  assert (Hle : (ci <=? co) = true) by (zbool; apply Z.leb_le; lia).
  rewrite Hle. cbn [ret].
  unfold bind at 1. unfold checked_div at 1. cbn [one_day Z.eqb ret].
  unfold bind at 1. unfold require at 1.
  destruct (_ >? 0); [|reflexivity]. cbn [negb ret].
  unfold bind at 1. unfold safeTransferFrom at 1. cbn [eurcToken].
  destruct (transferFrom _ _ _ _ _) as [tok'|]; [|reflexivity].
  unfold bind at 1. unfold checked_mul at 1.
  destruct (_ <=? MAX_UINT256); [|reflexivity]. cbn [negb ret].
  unfold bind at 1. unfold checked_div at 1. cbn [Z.eqb ret].
  unfold bind at 1. unfold checked_sub at 1.
  destruct (_ <=? amount); [|reflexivity]. cbn [negb ret].
  unfold bind at 1. unfold checked_add at 1.
  destruct (_ <=? MAX_UINT256); [|reflexivity]. cbn [negb ret].
  reflexivity.
Qed.

Lemma createBookingPaid_run (env : Env) (p : string) (ci co amount : Z) (ref uri : string)
    (s : Storage) (tok : T) :
  run (createBookingPaid env p ci co amount ref uri) s tok =
  let prop := PropertyMarketplace.properties (propertyMarketplace env) p in
  let pct := PropertyMarketplace.platformFeePercentage (propertyMarketplace env) in
  let nb := new_booking env s p ci co amount ref uri true in
  if negb (PropertyMarketplace.isActive prop) then Reverted (Error "Property not active")
  else if PropertyMarketplace.owner prop =? 0 then Reverted (Error "Property does not exist")
  else if negb (ci >? block_timestamp env)
  then Reverted (Error "Check-in must be in the future")
  else if negb (co >? ci) then Reverted (Error "Check-out must be after check-in")
  else if hasBookingConflict s p ci co then Reverted DateConflict
  else if negb ((co - ci) / one_day >? 0)
  then Reverted (Error "Booking must be at least 1 night")
  else if negb (amount * pct <=? MAX_UINT256) then Reverted Panic
  else if negb (amount * pct / 1000 <=? amount) then Reverted Panic
  else if negb (_bookingIdCounter s + 1 <=? MAX_UINT256) then Reverted Panic
  else Ok (_bookingIdCounter s + 1,
           {| storage := record_booking nb s;
              eurcToken := tok;
              emitted := [BookingCreatedPaid (_bookingIdCounter s + 1) p
                            (msgSender env) ci co amount ref uri] |}).
Proof.
  unfold run, createBookingPaid. cbv zeta.
  unfold bind at 1. unfold require at 1.
  destruct (PropertyMarketplace.isActive _); [|reflexivity]. cbn [negb ret].
  unfold bind at 1. unfold require at 1.
  destruct (PropertyMarketplace.owner _ =? 0); [reflexivity|]. cbn [negb ret].
  unfold bind at 1. unfold require at 1.
  destruct (ci >? block_timestamp env); [|reflexivity]. cbn [negb ret].
  unfold bind at 1. unfold require at 1.
  destruct (co >? ci) eqn:Hord; [|reflexivity]. cbn [negb ret].
  unfold bind at 1. unfold sload at 1. cbn [storage].
  unfold bind at 1. unfold require at 1.
  destruct (hasBookingConflict s p ci co); [reflexivity|]. cbn [negb ret].
  unfold bind at 1. unfold checked_sub at 1.
  assert (Hle : (ci <=? co) = true) by (zbool; apply Z.leb_le; lia).
  rewrite Hle. cbn [ret].
  unfold bind at 1. unfold checked_div at 1. cbn [one_day Z.eqb ret].
  unfold bind at 1. unfold require at 1.
  destruct (_ >? 0); [|reflexivity]. cbn [negb ret].
  unfold bind at 1. unfold checked_mul at 1.
  destruct (_ <=? MAX_UINT256); [|reflexivity]. cbn [negb ret].
  unfold bind at 1. unfold checked_div at 1. cbn [Z.eqb ret].
  unfold bind at 1. unfold checked_sub at 1.
  destruct (_ <=? amount); [|reflexivity]. cbn [negb ret].
  unfold bind at 1. unfold checked_add at 1.
  destruct (_ <=? MAX_UINT256); [|reflexivity]. cbn [negb ret].
  reflexivity.
Qed.

(** In a state satisfying the invariant the property index lists exactly
    the stored bookings of the property that have a stay. *)
Lemma conflict_found (s : Storage) (p : string) (ci co : Z) :
  Inv s -> hasBookingConflict s p ci co = true -> active_conflict s p ci co.
Proof.
  intros HI. rewrite hasBookingConflict_true. unfold active_conflict.
  intros (j & Hin & Hact & Hov).
  destruct (inv_index_sound s HI p j Hin) as [Hr Hp].
  destruct (inv_created s HI j Hr) as (b & Hb & _).
  assert (Hat : booking_at s j = b) by (unfold booking_at; by rewrite Hb).
  rewrite Hat in *. exists j, b. auto.
Qed.

Lemma conflict_detected (s : Storage) (p : string) (ci co : Z) :
  Inv s -> 0 <= ci ->
  active_conflict s p ci co -> hasBookingConflict s p ci co = true.
Proof.
  intros HI Hci. rewrite hasBookingConflict_true. unfold active_conflict.
  intros (j & b & Hb & Hp & Hact & Hov).
  assert (Hat : booking_at s j = b) by (unfold booking_at; by rewrite Hb).
  exists j. rewrite Hat. split; [|auto].
  assert (Hj : 0 <= j <= _bookingIdCounter s) by (apply (inv_dom s HI); eauto).
  destruct (decide (j = 0)) as [->|Hj0].
  - pose proof (inv_phantom s HI) as Hz. rewrite Hat in Hz.
    unfold conflicts_with in Hov. lia.
  - destruct (inv_created s HI j) as (b0 & Hb0 & _ & Hord & _); [lia|].
    assert (b0 = b) by congruence. subst b0.
    pose proof (inv_index s HI j) as Hin. rewrite Hat in Hin.
    rewrite <- Hp. by apply Hin.
Qed.

Lemma no_conflict_when_apart (s : Storage) (p : string) (ci co : Z) :
  Inv s ->
  (forall j b, bookings s !! j = Some b -> propertyId b = p -> ~ inactive b ->
               checkOutDate b <= ci \/ co <= checkInDate b) ->
  hasBookingConflict s p ci co = false.
Proof.
  intros HI Hapart. apply hasBookingConflict_false. intros j Hin.
  destruct (inv_index_sound s HI p j Hin) as [Hr Hp].
  destruct (inv_created s HI j Hr) as (b & Hb & _).
  assert (Hat : booking_at s j = b) by (unfold booking_at; by rewrite Hb).
  rewrite Hat in *.
  destruct (decide (status b = Cancelled)) as [?|Hc]; [left; by left|].
  destruct (decide (status b = Refunded)) as [?|Hr']; [left; by right|].
  right. unfold conflicts_with.
  destruct (Hapart j b Hb Hp) as [?|?]; [unfold inactive; tauto|lia..].
Qed.

(** C1 (no double booking).  In every reachable state, two distinct stored
    bookings of one property whose stays [checkIn, checkOut) share an
    instant are not both live: one of them is Cancelled or Refunded.  A
    creation call of either variant that reverts with the date-conflict
    error was given a stay that fails the overlap test
    [newCheckIn < existingCheckOut && newCheckOut > existingCheckIn]
    against a stored booking of the property that is neither Cancelled nor
    Refunded, and passed the property and date-order checks placed before
    the conflict check; conversely such a stay is always rejected, and
    with the date-conflict error whenever those earlier checks pass.  A stay that every live booking of the
    property ends before or at (back-to-back: existingCheckOut =
    newCheckIn) or starts after is accepted, once the remaining
    requirements of the call hold. *)
Theorem no_double_booking (s : Storage) :
  reachable s ->
  (forall i j bi bj,
      bookings s !! i = Some bi -> bookings s !! j = Some bj -> i <> j ->
      propertyId bi = propertyId bj -> stays_overlap bi bj ->
      inactive bi \/ inactive bj)
  /\ (forall env p ci co amount uri (tok : T),
        run (createBooking env p ci co amount uri) s tok = Reverted DateConflict ->
        active_conflict s p ci co
        /\ property_checks env p true /\ date_order_checks env ci co)
  /\ (forall env p ci co amount ref uri (tok : T),
        run (createBookingPaid env p ci co amount ref uri) s tok = Reverted DateConflict ->
        active_conflict s p ci co
        /\ property_checks env p false /\ date_order_checks env ci co)
  /\ (forall env p ci co amount uri (tok : T),
        0 <= block_timestamp env -> active_conflict s p ci co ->
        (exists e, run (createBooking env p ci co amount uri) s tok = Reverted e)
        /\ (property_checks env p true -> date_order_checks env ci co ->
            run (createBooking env p ci co amount uri) s tok = Reverted DateConflict))
  /\ (forall env p ci co amount ref uri (tok : T),
        0 <= block_timestamp env -> active_conflict s p ci co ->
        (exists e, run (createBookingPaid env p ci co amount ref uri) s tok = Reverted e)
        /\ (property_checks env p false -> date_order_checks env ci co ->
            run (createBookingPaid env p ci co amount ref uri) s tok
            = Reverted DateConflict))
  /\ (forall env p ci co amount uri (tok tok' : T),
        property_checks env p true -> date_order_checks env ci co ->
        one_day <= co - ci ->
        (forall j b, bookings s !! j = Some b -> propertyId b = p -> ~ inactive b ->
                     checkOutDate b <= ci \/ co <= checkInDate b) ->
        transferFrom (this env) (msgSender env) (this env) amount tok = Some tok' ->
        arithmetic_fits env s amount ->
        run (createBooking env p ci co amount uri) s tok
        = Ok (_bookingIdCounter s + 1,
              {| storage := record_booking (new_booking env s p ci co amount "" uri false) s;
                 eurcToken := tok';
                 emitted := [BookingCreated (_bookingIdCounter s + 1) p
                               (msgSender env) ci amount] |}))
  /\ (forall env p ci co amount ref uri (tok : T),
        property_checks env p false -> date_order_checks env ci co ->
        one_day <= co - ci ->
        (forall j b, bookings s !! j = Some b -> propertyId b = p -> ~ inactive b ->
                     checkOutDate b <= ci \/ co <= checkInDate b) ->
        arithmetic_fits env s amount ->
        run (createBookingPaid env p ci co amount ref uri) s tok
        = Ok (_bookingIdCounter s + 1,
              {| storage := record_booking (new_booking env s p ci co amount ref uri true) s;
                 eurcToken := tok;
                 emitted := [BookingCreatedPaid (_bookingIdCounter s + 1) p
                               (msgSender env) ci co amount ref uri] |})).
Proof.
  intros Hreach. pose proof (reachable_Inv s Hreach) as HI.
  split; [|split; [|split; [|split; [|split; [|split]]]]].
  - intros i j bi bj Hi Hj Hne Hp Ho.
    pose proof (inv_disjoint s HI i j Hne) as Hd.
    unfold booking_at in Hd. rewrite Hi, Hj in Hd. by apply Hd.
  - intros env p ci co amount uri tok. rewrite createBooking_run. cbv zeta.
    destruct (hasBookingConflict s p ci co) eqn:Hc;
      [|repeat (case_match; try discriminate)].
    destruct (PropertyMarketplace.isActive _) eqn:Hact; cbn [negb]; [|discriminate].
    destruct (PropertyMarketplace.owner _ =? 0) eqn:Hex; [discriminate|].
    destruct (PropertyMarketplace.owner _ =? msgSender env) eqn:Hself; [discriminate|].
    destruct (ci >? block_timestamp env) eqn:Hfut; cbn [negb]; [|discriminate].
    destruct (co >? ci) eqn:Hord; cbn [negb]; [|discriminate].
    intros _. zbool. split; [by apply conflict_found|].
    split; [|split; lia]. split; [exact Hact|]. split; [exact Hex|]. intros _. exact Hself.
  - intros env p ci co amount ref uri tok. rewrite createBookingPaid_run. cbv zeta.
    destruct (hasBookingConflict s p ci co) eqn:Hc;
      [|repeat (case_match; try discriminate)].
    destruct (PropertyMarketplace.isActive _) eqn:Hact; cbn [negb]; [|discriminate].
    destruct (PropertyMarketplace.owner _ =? 0) eqn:Hex; [discriminate|].
    destruct (ci >? block_timestamp env) eqn:Hfut; cbn [negb]; [|discriminate].
    destruct (co >? ci) eqn:Hord; cbn [negb]; [|discriminate].
    intros _. zbool. split; [by apply conflict_found|].
    split; [|split; lia]. split; [exact Hact|]. split; [exact Hex|]. intros; discriminate.
  - intros env p ci co amount uri tok Hts Hconf. rewrite createBooking_run. cbv zeta.
    split.
    + destruct (negb (ci >? block_timestamp env)) eqn:Hfut.
      { repeat (case_match; eauto). }
      zbool. rewrite (conflict_detected s p ci co HI) by (assumption || lia).
      repeat (case_match; eauto).
    + intros (Hact & Hex & Hself) [Hfut Hord].
      rewrite Hact. cbn [negb].
      rewrite (proj2 (Z.eqb_neq _ _) Hex).
      rewrite (proj2 (Z.eqb_neq _ _) (Hself eq_refl)).
      rewrite !Z.gtb_ltb.
      rewrite (proj2 (Z.ltb_lt _ _) Hfut), (proj2 (Z.ltb_lt _ _) Hord). cbn [negb].
      rewrite (conflict_detected s p ci co HI) by (assumption || lia).
      reflexivity.
  - intros env p ci co amount ref uri tok Hts Hconf. rewrite createBookingPaid_run. cbv zeta.
    split.
    + destruct (negb (ci >? block_timestamp env)) eqn:Hfut.
      { repeat (case_match; eauto). }
      zbool. rewrite (conflict_detected s p ci co HI) by (assumption || lia).
      repeat (case_match; eauto).
    + intros (Hact & Hex & _) [Hfut Hord].
      rewrite Hact. cbn [negb].
      rewrite (proj2 (Z.eqb_neq _ _) Hex).
      rewrite !Z.gtb_ltb.
      rewrite (proj2 (Z.ltb_lt _ _) Hfut), (proj2 (Z.ltb_lt _ _) Hord). cbn [negb].
      rewrite (conflict_detected s p ci co HI) by (assumption || lia).
      reflexivity.
  - intros env p ci co amount uri tok tok' (Hact & Hex & Hself) [Hfut Hord] Hstay
      Hapart Htok (Hmul & Hfee & Hctr).
    rewrite createBooking_run. cbv zeta.
    rewrite Hact. cbn [negb].
    rewrite (proj2 (Z.eqb_neq _ _) Hex).
    rewrite (proj2 (Z.eqb_neq _ _) (Hself eq_refl)).
    rewrite !Z.gtb_ltb.
    rewrite (proj2 (Z.ltb_lt _ _) Hfut), (proj2 (Z.ltb_lt _ _) Hord). cbn [negb].
    rewrite (no_conflict_when_apart s p ci co HI Hapart).
    assert (Hn : 0 < (co - ci) / one_day).
    { apply Z.div_str_pos. unfold one_day in *. lia. }
    rewrite (proj2 (Z.ltb_lt _ _) Hn). cbn [negb].
    rewrite Htok.
    rewrite (proj2 (Z.leb_le _ _) Hmul), (proj2 (Z.leb_le _ _) Hfee),
      (proj2 (Z.leb_le _ _) Hctr).
    reflexivity.
  - intros env p ci co amount ref uri tok (Hact & Hex & _) [Hfut Hord] Hstay
      Hapart (Hmul & Hfee & Hctr).
    rewrite createBookingPaid_run. cbv zeta.
    rewrite Hact. cbn [negb].
    rewrite (proj2 (Z.eqb_neq _ _) Hex).
    rewrite !Z.gtb_ltb.
    rewrite (proj2 (Z.ltb_lt _ _) Hfut), (proj2 (Z.ltb_lt _ _) Hord). cbn [negb].
    rewrite (no_conflict_when_apart s p ci co HI Hapart).
    assert (Hn : 0 < (co - ci) / one_day).
    { apply Z.div_str_pos. unfold one_day in *. lia. }
    rewrite (proj2 (Z.ltb_lt _ _) Hn). cbn [negb].
    rewrite (proj2 (Z.leb_le _ _) Hmul), (proj2 (Z.leb_le _ _) Hfee),
      (proj2 (Z.leb_le _ _) Hctr).
    reflexivity.
Qed.

(** ** What a successful creation established *)

Lemma createBooking_ok (env : Env) (p : string) (ci co amount : Z) (uri : string)
    (s : Storage) (tok : T) (id : Z) (w : World T) :
  run (createBooking env p ci co amount uri) s tok = Ok (id, w) ->
  id = _bookingIdCounter s + 1
  /\ storage w = record_booking (new_booking env s p ci co amount "" uri false) s
  /\ transferFrom (this env) (msgSender env) (this env) amount tok = Some (eurcToken w)
  /\ property_checks env p true
  /\ date_order_checks env ci co
  /\ hasBookingConflict s p ci co = false
  /\ 0 < (co - ci) / one_day
  /\ arithmetic_fits env s amount.
Proof.
  rewrite createBooking_run. cbv zeta.
  unfold property_checks, date_order_checks, arithmetic_fits.
  destruct (PropertyMarketplace.isActive _) eqn:Hact; [|discriminate]. cbn [negb].
  destruct (PropertyMarketplace.owner _ =? 0) eqn:Hex; [discriminate|].
  destruct (PropertyMarketplace.owner _ =? msgSender env) eqn:Hself; [discriminate|].
  destruct (ci >? block_timestamp env) eqn:Hfut; [|discriminate]. cbn [negb].
  destruct (co >? ci) eqn:Hord; [|discriminate]. cbn [negb].
  destruct (hasBookingConflict s p ci co) eqn:Hconf; [discriminate|].
  destruct (_ >? 0) eqn:Hn; [|discriminate]. cbn [negb].
  destruct (transferFrom _ _ _ _ _) as [tok'|] eqn:Htok; [|discriminate].
  destruct (amount * _ <=? MAX_UINT256) eqn:Hmul; [|discriminate]. cbn [negb].
  destruct (_ / 1000 <=? amount) eqn:Hfee; [|discriminate]. cbn [negb].
  destruct (_bookingIdCounter s + 1 <=? MAX_UINT256) eqn:Hctr; [|discriminate]. cbn [negb].
  intros [= <- <-]. cbn [storage eurcToken]. zbool.
  repeat split; auto.
Qed.

Lemma createBookingPaid_ok (env : Env) (p : string) (ci co amount : Z) (ref uri : string)
    (s : Storage) (tok : T) (id : Z) (w : World T) :
  run (createBookingPaid env p ci co amount ref uri) s tok = Ok (id, w) ->
  id = _bookingIdCounter s + 1
  /\ storage w = record_booking (new_booking env s p ci co amount ref uri true) s
  /\ eurcToken w = tok
  /\ property_checks env p false
  /\ date_order_checks env ci co
  /\ hasBookingConflict s p ci co = false
  /\ 0 < (co - ci) / one_day
  /\ arithmetic_fits env s amount.
Proof.
  rewrite createBookingPaid_run. cbv zeta.
  unfold property_checks, date_order_checks, arithmetic_fits.
  destruct (PropertyMarketplace.isActive _) eqn:Hact; [|discriminate]. cbn [negb].
  destruct (PropertyMarketplace.owner _ =? 0) eqn:Hex; [discriminate|].
  destruct (ci >? block_timestamp env) eqn:Hfut; [|discriminate]. cbn [negb].
  destruct (co >? ci) eqn:Hord; [|discriminate]. cbn [negb].
  destruct (hasBookingConflict s p ci co) eqn:Hconf; [discriminate|].
  destruct (_ >? 0) eqn:Hn; [|discriminate]. cbn [negb].
  destruct (amount * _ <=? MAX_UINT256) eqn:Hmul; [|discriminate]. cbn [negb].
  destruct (_ / 1000 <=? amount) eqn:Hfee; [|discriminate]. cbn [negb].
  destruct (_bookingIdCounter s + 1 <=? MAX_UINT256) eqn:Hctr; [|discriminate]. cbn [negb].
  intros [= <- <-]. cbn [storage eurcToken]. zbool.
  repeat split; auto.
Qed.

Lemma record_booking_lookup (nb : Booking) (s : Storage) :
  bookings (record_booking nb s) !! bookingId nb = Some nb.
Proof. unfold record_booking. cbn. by rewrite lookup_insert_eq. Qed.

(** Amounts never change once a booking is stored. *)
Lemma transition_amounts (env : Env) (s s' : Storage) (id : Z) (b : Booking) :
  Inv s -> transition env s s' -> bookings s !! id = Some b ->
  exists b', bookings s' !! id = Some b'
             /\ totalAmount b' = totalAmount b
             /\ platformFee b' = platformFee b
             /\ hostAmount b' = hostAmount b.
Proof.
  intros HI [o t|nb Hcr|j b' Hguard Hev] Hb.
  - exists b. auto.
  - exists b. split; [|auto]. cbn. rewrite lookup_insert_ne; [exact Hb|].
    assert (0 <= id <= _bookingIdCounter s) by (apply (inv_dom s HI); eauto).
    rewrite (cr_bookingId _ _ _ Hcr). lia.
  - cbn. destruct (decide (id = j)) as [->|Hne].
    + exists b'. rewrite lookup_insert_eq. split; [reflexivity|].
      unfold booking_at in Hev. rewrite Hb in Hev. cbn in Hev.
      destruct Hev. auto.
    + exists b. rewrite lookup_insert_ne by congruence. auto.
Qed.

(** C2 (fee conservation).  Every stored booking of a reachable state
    satisfies [platformFee + hostAmount = totalAmount].  Both creation
    variants store [platformFee = totalAmount * feeRate / 1000] (the rate
    read from the marketplace at creation time, in tenths of a percent) and
    [hostAmount = totalAmount - platformFee]; and no later call, the
    arbiter's resolution included, changes any of the three amounts. *)
Theorem fee_conservation (s : Storage) :
  reachable s ->
  (forall id b, bookings s !! id = Some b ->
                platformFee b + hostAmount b = totalAmount b)
  /\ (forall env p ci co amount uri (tok : T) id w,
        run (createBooking env p ci co amount uri) s tok = Ok (id, w) ->
        exists b, bookings (storage w) !! id = Some b
                  /\ totalAmount b = amount
                  /\ platformFee b
                     = amount
                       * PropertyMarketplace.platformFeePercentage (propertyMarketplace env)
                       / 1000
                  /\ platformFee b + hostAmount b = totalAmount b)
  /\ (forall env p ci co amount ref uri (tok : T) id w,
        run (createBookingPaid env p ci co amount ref uri) s tok = Ok (id, w) ->
        exists b, bookings (storage w) !! id = Some b
                  /\ totalAmount b = amount
                  /\ platformFee b
                     = amount
                       * PropertyMarketplace.platformFeePercentage (propertyMarketplace env)
                       / 1000
                  /\ platformFee b + hostAmount b = totalAmount b)
  /\ (forall env c (tok : T) w id b,
        run (call env c) s tok = Ok (tt, w) ->
        bookings s !! id = Some b ->
        exists b', bookings (storage w) !! id = Some b'
                   /\ totalAmount b' = totalAmount b
                   /\ platformFee b' = platformFee b
                   /\ hostAmount b' = hostAmount b
                   /\ platformFee b' + hostAmount b' = totalAmount b').
Proof.
  intros Hreach. pose proof (reachable_Inv s Hreach) as HI.
  assert (Hfee : forall id b, bookings s !! id = Some b ->
                              platformFee b + hostAmount b = totalAmount b).
  { intros id b Hb. pose proof (inv_fee s HI id) as Hf.
    unfold booking_at in Hf. by rewrite Hb in Hf. }
  split; [exact Hfee|]. split; [|split].
  - intros env p ci co amount uri tok id w Hrun.
    destruct (createBooking_ok _ _ _ _ _ _ _ _ _ _ Hrun) as (-> & -> & _).
    eexists. split; [apply (record_booking_lookup (new_booking _ _ _ _ _ _ _ _ _))|].
    cbn. repeat split; lia.
  - intros env p ci co amount ref uri tok id w Hrun.
    destruct (createBookingPaid_ok _ _ _ _ _ _ _ _ _ _ _ Hrun) as (-> & -> & _).
    eexists. split; [apply (record_booking_lookup (new_booking _ _ _ _ _ _ _ _ _))|].
    cbn. repeat split; lia.
  - intros env c tok w id b Hrun Hb.
    pose proof (call_transition env c s tok w Hrun) as Htr.
    destruct (transition_amounts env s (storage w) id b HI Htr Hb)
      as (b' & Hb' & Ht & Hp & Hh).
    exists b'. repeat split; auto.
    pose proof (Hfee id b Hb). lia.
Qed.

(** C9 (EscalateDispute).  Whoever calls it, the call succeeds exactly when
    the booking is Disputed, the block time is past [disputeDeadline] and
    the two parties have not both resolved; a booking only one party
    resolved is escalated all the same.  Its whole effect is the status
    EscalatedToAdmin on that booking (and the DisputeEscalated event).
    Otherwise it reverts with NotDisputed, then DisputeWindowOpen, then
    AlreadyResolved, in the order the source checks them. *)
Theorem escalateDispute_correct (env : Env) (id : Z) (s : Storage) (tok : T) :
  let b := booking_at s id in
  let escalated :=
    {| storage := store_booking id (set_status EscalatedToAdmin b) s;
       eurcToken := tok;
       emitted := [DisputeEscalated id] |} in
  ((status b = Disputed
    /\ block_timestamp env > disputeDeadline b
    /\ ~ (isResolvedByHost b = true /\ isResolvedByGuest b = true))
   <-> exists w, run (escalateDispute env id) s tok = Ok (tt, w))
  /\ (forall w, run (escalateDispute env id) s tok = Ok (tt, w) -> w = escalated)
  /\ booking_at (storage escalated) id = set_status EscalatedToAdmin b
  /\ (forall j, j <> id -> booking_at (storage escalated) j = booking_at s j)
  /\ (status b = Disputed -> block_timestamp env > disputeDeadline b ->
      isResolvedByHost b <> isResolvedByGuest b ->
      run (escalateDispute env id) s tok = Ok (tt, escalated))
  /\ (status b <> Disputed ->
      run (escalateDispute env id) s tok = Reverted NotDisputed)
  /\ (status b = Disputed -> block_timestamp env <= disputeDeadline b ->
      run (escalateDispute env id) s tok = Reverted DisputeWindowOpen)
  /\ (status b = Disputed -> block_timestamp env > disputeDeadline b ->
      isResolvedByHost b = true -> isResolvedByGuest b = true ->
      run (escalateDispute env id) s tok = Reverted AlreadyResolved)
  /\ (forall env', block_timestamp env' = block_timestamp env ->
      run (escalateDispute env' id) s tok = run (escalateDispute env id) s tok).
Proof.
  cbv zeta.
  assert (Hanyone : forall env', block_timestamp env' = block_timestamp env ->
            run (escalateDispute env' id) s tok = run (escalateDispute env id) s tok).
  { intros env' Hsame. rewrite !escalateDispute_run. cbv zeta. by rewrite Hsame. }
  pose proof (escalateDispute_run env id s tok) as Hrun. cbv zeta in Hrun.
  cbn [storage]. rewrite booking_at_store_eq.
  assert (Hother : forall j, j <> id ->
            booking_at (store_booking id (set_status EscalatedToAdmin (booking_at s id)) s) j
            = booking_at s j) by (intros j Hj; by apply booking_at_store_ne).
  destruct (bool_decide (status (booking_at s id) = Disputed)) eqn:Hst;
    [destruct (block_timestamp env >? disputeDeadline (booking_at s id)) eqn:Hts;
     [destruct (isResolvedByHost (booking_at s id)) eqn:Hh;
      destruct (isResolvedByGuest (booking_at s id)) eqn:Hg|]|];
    cbn [negb andb] in Hrun; zbool.
  all: split;
    [split;
     [intros (? & ? & Hno); rewrite Hrun;
      first [solve [eauto] | exfalso; first [congruence | lia | apply Hno; auto]]
     |intros [w Hw]; rewrite Hrun in Hw;
      first [discriminate Hw
            | repeat split; first [lia | congruence | intros [? ?]; congruence]]]
    |].
  all: split; [intros w Hw; rewrite Hrun in Hw; first [discriminate Hw | congruence]|].
  all: split; [reflexivity|].
  all: split; [exact Hother|].
  all: split; [intros; first [exact Hrun | congruence | lia]|].
  all: split; [intros; first [exact Hrun | congruence | lia]|].
  all: split; [intros; first [exact Hrun | congruence | lia]|].
  all: split; [intros; first [exact Hrun | congruence | lia]|].
  all: exact Hanyone.
Qed.

(** ** Dispute resolution by the parties *)

Lemma completeBooking_run (env : Env) (id : Z) (w : World T) :
  _completeBooking env id w =
  let b := set_status Completed (booking_at (storage w) id) in
  match settlement env (storage w) b (eurcToken w) with
  | Some tok' =>
      Ok (tt, {| storage := store_booking id b (storage w);
                 eurcToken := tok';
                 emitted := emitted w ++ [BookingCompleted id] |})
  | None => Reverted SafeERC20FailedOperation
  end.
Proof.
  unfold _completeBooking, settlement. cbv zeta.
  unfold bind at 1. unfold sload at 1.
  unfold bind at 1. unfold sstore, modify at 1. unfold with_storage.
  cbn [storage eurcToken emitted].
  destruct (paidOffChain _) eqn:Hoff; [reflexivity|].
  unfold bind at 1. unfold safeTransfer at 1. cbn [storage eurcToken emitted].
  destruct (transfer _ _ _ _) as [tok1|]; [|reflexivity].
  unfold bind at 1. unfold safeTransfer at 1. cbn [storage eurcToken emitted].
  destruct (transfer _ _ _ _) as [tok2|]; reflexivity.
Qed.

Lemma hostResolveDispute_run (env : Env) (id : Z) (s : Storage) (tok : T) :
  run (hostResolveDispute env id) s tok =
  let b := booking_at s id in
  if negb (host b =? msgSender env) then Reverted (Error "Not the property owner")
  else if negb (bool_decide (status b = Disputed)) then Reverted NotDisputed
  else if negb (block_timestamp env <=? disputeDeadline b) then Reverted DisputeExpired
  else if isResolvedByGuest b then
    let b' := set_status Completed (set_isResolvedByHost true b) in
    match settlement env s b' tok with
    | Some tok' =>
        Ok (tt, {| storage := store_booking id b' s; eurcToken := tok';
                   emitted := [BookingCompleted id; DisputeResolved id true true] |})
    | None => Reverted SafeERC20FailedOperation
    end
  else Ok (tt, {| storage := store_booking id (set_isResolvedByHost true b) s;
                  eurcToken := tok;
                  emitted := [DisputeResolved id true false] |}).
Proof.
  unfold run, hostResolveDispute. cbv zeta.
  unfold bind at 1. unfold sload at 1. cbn [storage].
  unfold bind at 1. unfold require at 1.
  destruct (host _ =? msgSender env); [|reflexivity]. cbn [negb ret].
  unfold bind at 1. unfold require at 1.
  destruct (bool_decide _); [|reflexivity]. cbn [negb ret].
  unfold bind at 1. unfold require at 1.
  destruct (_ <=? _); [|reflexivity]. cbn [negb ret].
  unfold bind at 1. unfold sstore, modify at 1. unfold with_storage.
  cbn [storage eurcToken emitted].
  unfold bind at 1.
  destruct (isResolvedByGuest (booking_at s id)) eqn:Hg; [|reflexivity].
  rewrite completeBooking_run. cbv zeta. cbn [storage eurcToken emitted].
  rewrite booking_at_store_eq, store_booking_twice.
  unfold settlement. cbn [treasury store_booking].
  destruct (paidOffChain _); [reflexivity|].
  destruct (transfer _ _ _ _) as [tok1|]; [|reflexivity].
  destruct (transfer _ _ _ _) as [tok2|]; reflexivity.
Qed.

Lemma guestResolveDispute_run (env : Env) (id : Z) (s : Storage) (tok : T) :
  run (guestResolveDispute env id) s tok =
  let b := booking_at s id in
  if negb (guest b =? msgSender env) then Reverted (Error "Not the guest")
  else if negb (bool_decide (status b = Disputed)) then Reverted NotDisputed
  else if negb (block_timestamp env <=? disputeDeadline b) then Reverted DisputeExpired
  else if isResolvedByHost b then
    let b' := set_status Completed (set_isResolvedByGuest true b) in
    match settlement env s b' tok with
    | Some tok' =>
        Ok (tt, {| storage := store_booking id b' s; eurcToken := tok';
                   emitted := [BookingCompleted id; DisputeResolved id true true] |})
    | None => Reverted SafeERC20FailedOperation
    end
  else Ok (tt, {| storage := store_booking id (set_isResolvedByGuest true b) s;
                  eurcToken := tok;
                  emitted := [DisputeResolved id false true] |}).
Proof.
  unfold run, guestResolveDispute. cbv zeta.
  unfold bind at 1. unfold sload at 1. cbn [storage].
  unfold bind at 1. unfold require at 1.
  destruct (guest _ =? msgSender env); [|reflexivity]. cbn [negb ret].
  unfold bind at 1. unfold require at 1.
  destruct (bool_decide _); [|reflexivity]. cbn [negb ret].
  unfold bind at 1. unfold require at 1.
  destruct (_ <=? _); [|reflexivity]. cbn [negb ret].
  unfold bind at 1. unfold sstore, modify at 1. unfold with_storage.
  cbn [storage eurcToken emitted].
  unfold bind at 1.
  destruct (isResolvedByHost (booking_at s id)) eqn:Hg; [|reflexivity].
  rewrite completeBooking_run. cbv zeta. cbn [storage eurcToken emitted].
  rewrite booking_at_store_eq, store_booking_twice.
  unfold settlement. cbn [treasury store_booking].
  destruct (paidOffChain _); [reflexivity|].
  destruct (transfer _ _ _ _) as [tok1|]; [|reflexivity].
  destruct (transfer _ _ _ _) as [tok2|]; reflexivity.
Qed.

(** The consent flags of every booking only go up, whatever call is made. *)
Lemma transition_flags (env : Env) (s s' : Storage) (j : Z) :
  Inv s -> transition env s s' ->
  (isResolvedByHost (booking_at s j) = true -> isResolvedByHost (booking_at s' j) = true)
  /\ (isResolvedByGuest (booking_at s j) = true -> isResolvedByGuest (booking_at s' j) = true).
Proof.
  intros HI [o t|nb Hcr|id b' Hguard Hev].
  - split; auto.
  - assert (Hfresh : bookings s !! bookingId nb = None).
    { destruct (bookings s !! bookingId nb) eqn:Hb; [|reflexivity].
      assert (0 <= bookingId nb <= _bookingIdCounter s) by (apply (inv_dom s HI); eauto).
      rewrite (cr_bookingId _ _ _ Hcr) in *. lia. }
    destruct (decide (j = bookingId nb)) as [->|Hne].
    + rewrite (zeroBooking_at s _ Hfresh). cbn. split; discriminate.
    + assert (Hsame : booking_at
                (push_guestBooking (guest nb) (bookingId nb)
                   (push_propertyBooking (propertyId nb) (bookingId nb)
                      (store_booking (bookingId nb) nb
                         (set_bookingIdCounter (bookingId nb) s)))) j
              = booking_at s j).
      { unfold booking_at. cbn. by rewrite lookup_insert_ne. }
      rewrite Hsame. split; auto.
  - destruct (decide (j = id)) as [->|Hne].
    + rewrite booking_at_store_eq.
      split; [apply (ev_isResolvedByHost _ _ Hev)|apply (ev_isResolvedByGuest _ _ Hev)].
    + rewrite booking_at_store_ne by assumption. split; auto.
Qed.

(** C3 (dual consent).  On a Disputed booking inside the dispute window,
    [hostResolveDispute] is for the host alone and sets [isResolvedByHost],
    [guestResolveDispute] is for the guest alone and sets
    [isResolvedByGuest].  The call that finds the other party's flag
    already set completes the booking in the same transaction; the call
    that does not leaves it Disputed: after a resolve call the status is
    Completed exactly when both flags are set.  No call of a reachable
    state ever clears a flag, and in a reachable state a booking with both
    flags set is Completed. *)
Theorem dual_consent_resolution (env : Env) (id : Z) (s : Storage) (tok : T) :
  let b := booking_at s id in
  (host b <> msgSender env ->
   run (hostResolveDispute env id) s tok = Reverted (Error "Not the property owner"))
  /\ (guest b <> msgSender env ->
      run (guestResolveDispute env id) s tok = Reverted (Error "Not the guest"))
  /\ (status b = Disputed -> block_timestamp env <= disputeDeadline b ->
      host b = msgSender env -> isResolvedByGuest b = false ->
      run (hostResolveDispute env id) s tok
      = Ok (tt, {| storage := store_booking id (set_isResolvedByHost true b) s;
                   eurcToken := tok;
                   emitted := [DisputeResolved id true false] |}))
  /\ (status b = Disputed -> block_timestamp env <= disputeDeadline b ->
      guest b = msgSender env -> isResolvedByHost b = false ->
      run (guestResolveDispute env id) s tok
      = Ok (tt, {| storage := store_booking id (set_isResolvedByGuest true b) s;
                   eurcToken := tok;
                   emitted := [DisputeResolved id false true] |}))
  /\ (status b = Disputed -> block_timestamp env <= disputeDeadline b ->
      host b = msgSender env -> isResolvedByGuest b = true ->
      forall tok',
      settlement env s (set_status Completed (set_isResolvedByHost true b)) tok = Some tok' ->
      run (hostResolveDispute env id) s tok
      = Ok (tt, {| storage :=
                     store_booking id (set_status Completed (set_isResolvedByHost true b)) s;
                   eurcToken := tok';
                   emitted := [BookingCompleted id; DisputeResolved id true true] |}))
  /\ (status b = Disputed -> block_timestamp env <= disputeDeadline b ->
      guest b = msgSender env -> isResolvedByHost b = true ->
      forall tok',
      settlement env s (set_status Completed (set_isResolvedByGuest true b)) tok = Some tok' ->
      run (guestResolveDispute env id) s tok
      = Ok (tt, {| storage :=
                     store_booking id (set_status Completed (set_isResolvedByGuest true b)) s;
                   eurcToken := tok';
                   emitted := [BookingCompleted id; DisputeResolved id true true] |}))
  /\ (forall w, run (hostResolveDispute env id) s tok = Ok (tt, w) ->
      let b' := booking_at (storage w) id in
      status b = Disputed /\ block_timestamp env <= disputeDeadline b
      /\ host b = msgSender env
      /\ isResolvedByHost b' = true
      /\ isResolvedByGuest b' = isResolvedByGuest b
      /\ (status b' = Completed <-> isResolvedByHost b' = true /\ isResolvedByGuest b' = true)
      /\ (status b' <> Completed -> status b' = Disputed))
  /\ (forall w, run (guestResolveDispute env id) s tok = Ok (tt, w) ->
      let b' := booking_at (storage w) id in
      status b = Disputed /\ block_timestamp env <= disputeDeadline b
      /\ guest b = msgSender env
      /\ isResolvedByGuest b' = true
      /\ isResolvedByHost b' = isResolvedByHost b
      /\ (status b' = Completed <-> isResolvedByHost b' = true /\ isResolvedByGuest b' = true)
      /\ (status b' <> Completed -> status b' = Disputed))
  /\ (reachable s ->
      forall env' c (tok0 : T) w j,
      run (call env' c) s tok0 = Ok (tt, w) ->
      (isResolvedByHost (booking_at s j) = true ->
       isResolvedByHost (booking_at (storage w) j) = true)
      /\ (isResolvedByGuest (booking_at s j) = true ->
          isResolvedByGuest (booking_at (storage w) j) = true))
  /\ (reachable s ->
      forall j, isResolvedByHost (booking_at s j) = true ->
                isResolvedByGuest (booking_at s j) = true ->
                status (booking_at s j) = Completed).
Proof.
  cbv zeta.
  pose proof (hostResolveDispute_run env id s tok) as Hh. cbv zeta in Hh.
  pose proof (guestResolveDispute_run env id s tok) as Hg. cbv zeta in Hg.
  split; [|split; [|split; [|split; [|split; [|split; [|split; [|split; [|split]]]]]]]].
  - intros Hne. rewrite Hh. by rewrite (proj2 (Z.eqb_neq _ _) Hne).
  - intros Hne. rewrite Hg. by rewrite (proj2 (Z.eqb_neq _ _) Hne).
  - intros Hst Hts Hwho Hother. rewrite Hh.
    rewrite (proj2 (Z.eqb_eq _ _) Hwho), (bool_decide_eq_true_2 _ Hst),
      (proj2 (Z.leb_le _ _) Hts), Hother. reflexivity.
  - intros Hst Hts Hwho Hother. rewrite Hg.
    rewrite (proj2 (Z.eqb_eq _ _) Hwho), (bool_decide_eq_true_2 _ Hst),
      (proj2 (Z.leb_le _ _) Hts), Hother. reflexivity.
  - intros Hst Hts Hwho Hother tok' Hset. rewrite Hh.
    rewrite (proj2 (Z.eqb_eq _ _) Hwho), (bool_decide_eq_true_2 _ Hst),
      (proj2 (Z.leb_le _ _) Hts), Hother. cbn [negb]. by rewrite Hset.
  - intros Hst Hts Hwho Hother tok' Hset. rewrite Hg.
    rewrite (proj2 (Z.eqb_eq _ _) Hwho), (bool_decide_eq_true_2 _ Hst),
      (proj2 (Z.leb_le _ _) Hts), Hother. cbn [negb]. by rewrite Hset.
  - intros w. rewrite Hh.
    destruct (host _ =? msgSender env) eqn:Hwho; [|discriminate]. cbn [negb].
    destruct (bool_decide _) eqn:Hst; [|discriminate]. cbn [negb].
    destruct (_ <=? _) eqn:Hts; [|discriminate]. cbn [negb]. zbool.
    destruct (isResolvedByGuest (booking_at s id)) eqn:Hother.
    + destruct (settlement _ _ _ _) as [tok'|]; [|discriminate].
      intros [= <-]. cbn [storage]. rewrite booking_at_store_eq. cbn.
      rewrite Hother. repeat split; auto; congruence.
    + intros [= <-]. cbn [storage]. rewrite booking_at_store_eq. cbn.
      rewrite Hother, Hst. repeat split; auto; try congruence.
      intros [_ ?]. discriminate.
  - intros w. rewrite Hg.
    destruct (guest _ =? msgSender env) eqn:Hwho; [|discriminate]. cbn [negb].
    destruct (bool_decide _) eqn:Hst; [|discriminate]. cbn [negb].
    destruct (_ <=? _) eqn:Hts; [|discriminate]. cbn [negb]. zbool.
    destruct (isResolvedByHost (booking_at s id)) eqn:Hother.
    + destruct (settlement _ _ _ _) as [tok'|]; [|discriminate].
      intros [= <-]. cbn [storage]. rewrite booking_at_store_eq. cbn.
      rewrite Hother. repeat split; auto; congruence.
    + intros [= <-]. cbn [storage]. rewrite booking_at_store_eq. cbn.
      rewrite Hother, Hst. repeat split; auto; try congruence.
      intros [? _]. discriminate.
  - intros Hreach env' c tok0 w j Hrun.
    apply (transition_flags env'); [by apply reachable_Inv|].
    by apply (call_transition env' c s tok0).
  - intros Hreach j. apply (inv_consensus s). by apply reachable_Inv.
Qed.

(** ** Resolution by the arbiter *)

Lemma adminResolveDispute_run (env : Env) (id pct : Z) (s : Storage) (tok : T) :
  run (adminResolveDispute env id pct) s tok =
  let b := booking_at s id in
  let outcome := if pct =? 100 then Refunded else Completed in
  let guestRefund := hostAmount b * pct / 100 in
  let hostPayout := hostAmount b - guestRefund in
  if negb (owner s =? msgSender env)
  then Reverted (OwnableUnauthorizedAccount (msgSender env))
  else if negb (bool_decide (status b = EscalatedToAdmin)) then Reverted NotEscalated
  else if negb (pct <=? 100) then Reverted InvalidPercentage
  else if paidOffChain b
  then Ok (tt, {| storage := store_booking id (set_status outcome b) s;
                  eurcToken := tok;
                  emitted := [BookingCompleted id] |})
  else if negb (hostAmount b * pct <=? MAX_UINT256) then Reverted Panic
  else if negb (guestRefund <=? hostAmount b) then Reverted Panic
  else match admin_payout env s b guestRefund hostPayout tok with
       | Some tok' =>
           Ok (tt, {| storage := store_booking id (set_status outcome b) s;
                      eurcToken := tok';
                      emitted := BookingCompleted id
                                 :: (if guestRefund >? 0
                                     then [BookingRefunded id guestRefund] else []) |})
       | None => Reverted SafeERC20FailedOperation
       end.
Proof.
  unfold run, adminResolveDispute, onlyOwner. cbv zeta.
  unfold bind at 1. unfold bind at 1. unfold sload at 1. cbn [storage].
  destruct (owner s =? msgSender env); [|reflexivity]. cbn [negb ret].
  unfold bind at 1. unfold sload at 1. cbn [storage].
  unfold bind at 1. unfold require at 1.
  destruct (bool_decide _); [|reflexivity]. cbn [negb ret].
  unfold bind at 1. unfold require at 1.
  destruct (pct <=? 100); [|reflexivity]. cbn [negb ret].
  destruct (paidOffChain (booking_at s id)); [reflexivity|].
  unfold bind at 1. unfold checked_mul at 1.
  destruct (_ <=? MAX_UINT256); [|reflexivity]. cbn [negb ret].
  unfold bind at 1. unfold checked_div at 1. cbn [Z.eqb ret].
  unfold bind at 1. unfold checked_sub at 1.
  destruct (_ <=? hostAmount (booking_at s id)); [|reflexivity]. cbn [negb ret].
  unfold admin_payout, transfer_if_positive.
  set (gr := hostAmount (booking_at s id) * pct / 100).
  destruct (gr >? 0) eqn:Hg; destruct (hostAmount (booking_at s id) - gr >? 0) eqn:Hh;
    cbn [ret].
  - unfold bind at 1. unfold safeTransfer at 1. cbn [storage eurcToken emitted].
    destruct (transfer _ _ _ _) as [tok1|]; [|reflexivity].
    unfold bind at 1. unfold safeTransfer at 1. cbn [storage eurcToken emitted].
    destruct (transfer _ _ _ _) as [tok2|]; [|reflexivity].
    unfold bind at 1. unfold safeTransfer at 1. cbn [storage eurcToken emitted].
    destruct (transfer _ _ _ _) as [tok3|]; reflexivity.
  - unfold bind at 1. unfold safeTransfer at 1. cbn [storage eurcToken emitted].
    destruct (transfer _ _ _ _) as [tok1|]; [|reflexivity].
    unfold bind at 1. unfold ret at 1.
    unfold bind at 1. unfold safeTransfer at 1. cbn [storage eurcToken emitted].
    destruct (transfer _ _ _ _) as [tok3|]; reflexivity.
  - unfold bind at 1. unfold ret at 1.
    unfold bind at 1. unfold safeTransfer at 1. cbn [storage eurcToken emitted].
    destruct (transfer _ _ _ _) as [tok2|]; [|reflexivity].
    unfold bind at 1. unfold safeTransfer at 1. cbn [storage eurcToken emitted].
    destruct (transfer _ _ _ _) as [tok3|]; reflexivity.
  - unfold bind at 1. unfold ret at 1.
    unfold bind at 1. unfold ret at 1.
    unfold bind at 1. unfold safeTransfer at 1. cbn [storage eurcToken emitted].
    destruct (transfer _ _ _ _) as [tok3|]; reflexivity.
Qed.

(** C8 (AdminResolve).  The call succeeds only for the contract owner (the
    arbiter), on a booking in status EscalatedToAdmin, with
    [guestPercentage <= 100]; another caller is turned away by Ownable, a
    booking in another status with NotEscalated, a larger percentage with
    InvalidPercentage.  On success the booking's status is Refunded when
    the percentage is 100 and Completed otherwise, and nothing else in the
    storage changes.  For an escrowed booking the token calls are: the
    guest's share [hostAmount * guestPercentage / 100] to the guest, the
    rest of [hostAmount] to the host (each only when positive), and the
    platform fee to the treasury; the three add up to [totalAmount].  A
    booking paid off chain gets the same status update and no token call. *)
Theorem adminResolveDispute_correct (env : Env) (id pct : Z) (s : Storage) (tok : T) :
  let b := booking_at s id in
  let outcome := if pct =? 100 then Refunded else Completed in
  let guestRefund := hostAmount b * pct / 100 in
  let hostPayout := hostAmount b - guestRefund in
  (forall w, run (adminResolveDispute env id pct) s tok = Ok (tt, w) ->
     owner s = msgSender env /\ status b = EscalatedToAdmin /\ pct <= 100
     /\ storage w = store_booking id (set_status outcome b) s
     /\ (paidOffChain b = true -> eurcToken w = tok)
     /\ (paidOffChain b = false ->
         admin_payout env s b guestRefund hostPayout tok = Some (eurcToken w)))
  /\ (owner s <> msgSender env ->
      run (adminResolveDispute env id pct) s tok
      = Reverted (OwnableUnauthorizedAccount (msgSender env)))
  /\ (owner s = msgSender env -> status b <> EscalatedToAdmin ->
      run (adminResolveDispute env id pct) s tok = Reverted NotEscalated)
  /\ (owner s = msgSender env -> status b = EscalatedToAdmin -> 100 < pct ->
      run (adminResolveDispute env id pct) s tok = Reverted InvalidPercentage)
  /\ (owner s = msgSender env -> status b = EscalatedToAdmin -> pct <= 100 ->
      paidOffChain b = true ->
      run (adminResolveDispute env id pct) s tok
      = Ok (tt, {| storage := store_booking id (set_status outcome b) s;
                   eurcToken := tok;
                   emitted := [BookingCompleted id] |}))
  /\ (owner s = msgSender env -> status b = EscalatedToAdmin -> 0 <= pct <= 100 ->
      paidOffChain b = false ->
      0 <= hostAmount b -> hostAmount b * pct <= MAX_UINT256 ->
      forall tok', admin_payout env s b guestRefund hostPayout tok = Some tok' ->
      run (adminResolveDispute env id pct) s tok
      = Ok (tt, {| storage := store_booking id (set_status outcome b) s;
                   eurcToken := tok';
                   emitted := BookingCompleted id
                              :: (if guestRefund >? 0
                                  then [BookingRefunded id guestRefund] else []) |}))
  /\ (status (set_status outcome b) = Refunded <-> pct = 100)
  /\ (pct <> 100 -> status (set_status outcome b) = Completed)
  /\ guestRefund + hostPayout = hostAmount b
  /\ (reachable s -> guestRefund + hostPayout + platformFee b = totalAmount b).
Proof.
  cbv zeta.
  pose proof (adminResolveDispute_run env id pct s tok) as Hrun. cbv zeta in Hrun.
  split; [|split; [|split; [|split; [|split; [|split; [|split; [|split; [|split]]]]]]]].
  - intros w. rewrite Hrun.
    destruct (owner s =? msgSender env) eqn:Hwho; [|discriminate]. cbn [negb].
    destruct (bool_decide _) eqn:Hst; [|discriminate]. cbn [negb].
    destruct (pct <=? 100) eqn:Hpct; [|discriminate]. cbn [negb]. zbool.
    destruct (paidOffChain (booking_at s id)) eqn:Hoff.
    + intros [= <-]. cbn [storage eurcToken]. repeat split; auto. discriminate.
    + destruct (_ <=? MAX_UINT256); [|discriminate]. cbn [negb].
      destruct (_ <=? hostAmount (booking_at s id)); [|discriminate]. cbn [negb].
      destruct (admin_payout _ _ _ _ _ _) as [tok'|]; [|discriminate].
      intros [= <-]. cbn [storage eurcToken]. repeat split; auto. discriminate.
  - intros Hwho. rewrite Hrun. by rewrite (proj2 (Z.eqb_neq _ _) Hwho).
  - intros Hwho Hst. rewrite Hrun.
    by rewrite (proj2 (Z.eqb_eq _ _) Hwho), (bool_decide_eq_false_2 _ Hst).
  - intros Hwho Hst Hpct. rewrite Hrun.
    rewrite (proj2 (Z.eqb_eq _ _) Hwho), (bool_decide_eq_true_2 _ Hst).
    by rewrite (proj2 (Z.leb_gt _ _) Hpct).
  - intros Hwho Hst Hpct Hoff. rewrite Hrun.
    rewrite (proj2 (Z.eqb_eq _ _) Hwho), (bool_decide_eq_true_2 _ Hst),
      (proj2 (Z.leb_le _ _) Hpct), Hoff. reflexivity.
  - intros Hwho Hst Hpct Hoff Hpos Hmul tok' Hpay. rewrite Hrun.
    rewrite (proj2 (Z.eqb_eq _ _) Hwho), (bool_decide_eq_true_2 _ Hst),
      (proj2 (Z.leb_le _ _) (proj2 Hpct)), Hoff, (proj2 (Z.leb_le _ _) Hmul).
    cbn [negb].
    assert (Hle : hostAmount (booking_at s id) * pct / 100 <= hostAmount (booking_at s id)).
    { apply Z.div_le_upper_bound; [lia|]. nia. }
    rewrite (proj2 (Z.leb_le _ _) Hle). cbn [negb]. by rewrite Hpay.
  - destruct (Z.eqb_spec pct 100); cbn; split; congruence.
  - intros Hne. destruct (Z.eqb_spec pct 100); [congruence|reflexivity].
  - lia.
  - intros Hreach. pose proof (inv_fee s (reachable_Inv s Hreach) id). lia.
Qed.

(** ** The date rules of creation *)

Lemma nights_positive (ci co : Z) :
  ci < co -> (0 < (co - ci) / one_day <-> one_day <= co - ci).
Proof.
  intros Hord. unfold one_day. split.
  - intros Hn. destruct (Z_lt_le_dec (co - ci) 86400) as [Hlt|Hle]; [|exact Hle].
    rewrite Z.div_small in Hn by lia. lia.
  - intros Hle. apply Z.div_str_pos. lia.
Qed.

(** C7, as the code has it.  Either creation variant succeeds only when
    check-in is strictly after the block time, check-out after check-in,
    and the stay spans at least one whole day (the number of nights is the
    integer quotient by one day and must be positive; the stay need not be
    a multiple of a day).  A request breaking one of these rules reverts,
    so no booking is stored; when the property checks pass, the error is
    one of the three date errors, except that a stay shorter than a day
    that also overlaps a live booking is reported as a date conflict, the
    conflict check coming first. *)
Theorem creation_date_rules (env : Env) (p : string) (ci co amount : Z)
    (ref uri : string) (s : Storage) (tok : T) :
  let valid_dates := block_timestamp env < ci /\ ci < co /\ one_day <= co - ci in
  (forall id w, run (createBooking env p ci co amount uri) s tok = Ok (id, w) ->
                valid_dates)
  /\ (forall id w, run (createBookingPaid env p ci co amount ref uri) s tok = Ok (id, w) ->
                   valid_dates)
  /\ (~ valid_dates ->
      (exists e, run (createBooking env p ci co amount uri) s tok = Reverted e)
      /\ (exists e, run (createBookingPaid env p ci co amount ref uri) s tok = Reverted e))
  /\ (~ valid_dates -> property_checks env p true ->
      exists e, run (createBooking env p ci co amount uri) s tok = Reverted e
                /\ (InvalidDateRange e
                    \/ (e = DateConflict /\ date_order_checks env ci co
                        /\ hasBookingConflict s p ci co = true)))
  /\ (~ valid_dates -> property_checks env p false ->
      exists e, run (createBookingPaid env p ci co amount ref uri) s tok = Reverted e
                /\ (InvalidDateRange e
                    \/ (e = DateConflict /\ date_order_checks env ci co
                        /\ hasBookingConflict s p ci co = true))).
Proof.
  cbv zeta.
  assert (Hok1 : forall id w, run (createBooking env p ci co amount uri) s tok = Ok (id, w) ->
                 block_timestamp env < ci /\ ci < co /\ one_day <= co - ci).
  { intros id w Hrun.
    destruct (createBooking_ok _ _ _ _ _ _ _ _ _ _ Hrun)
      as (_ & _ & _ & _ & [Hfut Hord] & _ & Hn & _).
    repeat split; [assumption..|]. by apply nights_positive. }
  assert (Hok2 : forall id w,
                 run (createBookingPaid env p ci co amount ref uri) s tok = Ok (id, w) ->
                 block_timestamp env < ci /\ ci < co /\ one_day <= co - ci).
  { intros id w Hrun.
    destruct (createBookingPaid_ok _ _ _ _ _ _ _ _ _ _ _ Hrun)
      as (_ & _ & _ & _ & [Hfut Hord] & _ & Hn & _).
    repeat split; [assumption..|]. by apply nights_positive. }
  split; [exact Hok1|]. split; [exact Hok2|]. split; [|split].
  - intros Hbad. split.
    + destruct (run (createBooking env p ci co amount uri) s tok) as [[id w]|e] eqn:Hrun;
        [|eauto]. exfalso. apply Hbad. by apply (Hok1 id w).
    + destruct (run (createBookingPaid env p ci co amount ref uri) s tok)
        as [[id w]|e] eqn:Hrun; [|eauto]. exfalso. apply Hbad. by apply (Hok2 id w).
  - intros Hbad (Hact & Hex & Hself). rewrite createBooking_run. cbv zeta.
    rewrite Hact. cbn [negb].
    rewrite (proj2 (Z.eqb_neq _ _) Hex), (proj2 (Z.eqb_neq _ _) (Hself eq_refl)).
    unfold InvalidDateRange, date_order_checks.
    destruct (ci >? block_timestamp env) eqn:Hfut; cbn [negb]; [|eauto 6].
    destruct (co >? ci) eqn:Hord; cbn [negb]; [|eauto 6].
    destruct (hasBookingConflict s p ci co) eqn:Hconf.
    { zbool. eexists. split; [reflexivity|]. right. auto. }
    destruct ((co - ci) / one_day >? 0) eqn:Hn; cbn [negb]; [|eauto 6].
    zbool. exfalso. apply Hbad. repeat split; [assumption..|]. by apply nights_positive.
  - intros Hbad (Hact & Hex & _). rewrite createBookingPaid_run. cbv zeta.
    rewrite Hact. cbn [negb].
    rewrite (proj2 (Z.eqb_neq _ _) Hex).
    unfold InvalidDateRange, date_order_checks.
    destruct (ci >? block_timestamp env) eqn:Hfut; cbn [negb]; [|eauto 6].
    destruct (co >? ci) eqn:Hord; cbn [negb]; [|eauto 6].
    destruct (hasBookingConflict s p ci co) eqn:Hconf.
    { zbool. eexists. split; [reflexivity|]. right. auto. }
    destruct ((co - ci) / one_day >? 0) eqn:Hn; cbn [negb]; [|eauto 6].
    zbool. exfalso. apply Hbad. repeat split; [assumption..|]. by apply nights_positive.
Qed.

(** ** The life cycle of a booking *)

(** The moves of the status of a booking that some function makes. *)
Inductive status_step : BookingStatus -> BookingStatus -> Prop :=
| step_window : status_step Active CheckInReady
| step_cancel : status_step Active Cancelled
| step_checkIn : status_step CheckInReady CheckedIn
| step_missed : status_step CheckInReady Disputed
| step_consent : status_step Disputed Completed
| step_escalate : status_step Disputed EscalatedToAdmin
| step_admin_complete : status_step EscalatedToAdmin Completed
| step_admin_refund : status_step EscalatedToAdmin Refunded.

Lemma booking_at_push_guest (g : address) (i id : Z) (s : Storage) :
  booking_at (push_guestBooking g i s) id = booking_at s id.
Proof. reflexivity. Qed.

Lemma booking_at_push_property (p : string) (i id : Z) (s : Storage) :
  booking_at (push_propertyBooking p i s) id = booking_at s id.
Proof. reflexivity. Qed.

Lemma booking_at_set_counter (n id : Z) (s : Storage) :
  booking_at (set_bookingIdCounter n s) id = booking_at s id.
Proof. reflexivity. Qed.

Lemma booking_at_store (id j : Z) (b : Booking) (s : Storage) :
  booking_at (store_booking id b s) j = if decide (j = id) then b else booking_at s j.
Proof.
  destruct (decide (j = id)) as [->|Hne].
  - apply booking_at_store_eq.
  - by apply booking_at_store_ne.
Qed.

Lemma next_id_unwritten (s : Storage) :
  Inv s -> booking_at s (_bookingIdCounter s + 1) = zeroBooking.
Proof.
  intros HI. apply zeroBooking_at.
  destruct (bookings s !! (_bookingIdCounter s + 1)) as [b|] eqn:Hb; [|done].
  pose proof (inv_dom s HI (_bookingIdCounter s + 1) (ex_intro _ b Hb)). lia.
Qed.

Ltac status_create HI :=
  cbn [storage eurcToken emitted with_storage] in *;
  let id := fresh "id" in
  intros id;
  rewrite booking_at_push_guest, booking_at_push_property, booking_at_store,
    booking_at_set_counter;
  destruct (decide _) as [->|_]; [|by left];
  left; rewrite (next_id_unwritten _ HI); reflexivity.

Ltac status_case :=
  cbn [storage eurcToken emitted with_storage] in *;
  rewrite ?store_booking_twice;
  let id := fresh "id" in
  intros id; rewrite booking_at_store;
  destruct (decide _) as [->|_]; [|by left];
  zbool; cbn [status set_status set_checkInWindow set_isCheckInComplete set_dispute
                set_isResolvedByHost set_isResolvedByGuest];
  repeat match goal with
         | |- context [if ?c then _ else _] => destruct c
         end;
  first [ by left
        | right;
          match goal with
          | H : status _ = _ |- _ => rewrite H
          end; constructor ].

Lemma call_status_step (env : Env) (c : Call) (s : Storage) (tok : T) (w : World T) :
  Inv s ->
  run (call env c) s tok = Ok (tt, w) ->
  forall id, status (booking_at (storage w) id) = status (booking_at s id)
             \/ status_step (status (booking_at s id)) (status (booking_at (storage w) id)).
Proof.
  intros HI. unfold run. destruct c; cbn [call]; intros Hrun.
  - unfold transferOwnership, onlyOwner in Hrun. tx_inv. by left.
  - unfold renounceOwnership, onlyOwner in Hrun. tx_inv. by left.
  - unfold setTreasury, onlyOwner in Hrun. tx_inv. by left.
  - unfold discard, createBooking in Hrun. cbv zeta in Hrun. tx_inv. status_create HI.
  - unfold discard, createBookingPaid in Hrun. cbv zeta in Hrun. tx_inv. status_create HI.
  - unfold triggerCheckInWindow in Hrun. cbv zeta in Hrun. tx_inv. status_case.
  - unfold checkIn in Hrun. cbv zeta in Hrun. tx_inv. status_case.
  - unfold processMissedCheckIn in Hrun. cbv zeta in Hrun. tx_inv. status_case.
  - unfold hostResolveDispute, _completeBooking in Hrun. cbv zeta in Hrun. tx_inv; status_case.
  - unfold guestResolveDispute, _completeBooking in Hrun. cbv zeta in Hrun. tx_inv; status_case.
  - unfold escalateDispute in Hrun. cbv zeta in Hrun. tx_inv. status_case.
  - unfold adminResolveDispute, onlyOwner in Hrun. cbv zeta in Hrun. tx_inv; status_case.
  - unfold cancelBooking in Hrun. cbv zeta in Hrun. tx_inv; status_case.
Qed.

(** Storage states reached from [s] by calls that did not revert. *)
Inductive calls_from (s : Storage) : Storage -> Prop :=
| calls_none : calls_from s s
| calls_more (s1 : Storage) (env : Env) (c : Call) (tok : T) (w : World T) :
    calls_from s s1 ->
    0 <= block_timestamp env ->
    run (call env c) s1 tok = Ok (tt, w) ->
    calls_from s (storage w).

Lemma calls_from_reachable (s s' : Storage) :
  reachable (T:=T) s -> calls_from s s' -> reachable (T:=T) s'.
Proof.
  intros Hs Hcalls. induction Hcalls as [|s1 env c tok w _ IH Hts Hrun]; [exact Hs|].
  by apply (reachable_call s1 env c tok w).
Qed.

(** The statuses no function leaves. *)
Definition final (st : BookingStatus) : Prop :=
  st = CheckedIn \/ st = Completed \/ st = Cancelled \/ st = Refunded.

(** A call that does not revert leaves the status of each booking as it
    is or moves it along one edge of the life cycle: Active to
    CheckInReady or Cancelled, CheckInReady to CheckedIn or Disputed,
    Disputed to Completed or EscalatedToAdmin, EscalatedToAdmin to
    Completed or Refunded. *)
Theorem status_moves_along_life_cycle (s : Storage) (env : Env) (c : Call) (tok : T)
    (w : World T) (id : Z) :
  reachable (T:=T) s ->
  run (call env c) s tok = Ok (tt, w) ->
  status (booking_at (storage w) id) = status (booking_at s id)
  \/ status_step (status (booking_at s id)) (status (booking_at (storage w) id)).
Proof.
  intros Hs Hrun. exact (call_status_step env c s tok w (reachable_Inv s Hs) Hrun id).
Qed.

(** A booking that is checked in, completed, cancelled or refunded keeps
    that status whatever is called afterwards; in particular no function
    completes a stay after the guest has checked in. *)
Theorem final_status_stays (s s' : Storage) (id : Z) :
  reachable (T:=T) s ->
  calls_from s s' ->
  final (status (booking_at s id)) ->
  status (booking_at s' id) = status (booking_at s id).
Proof.
  intros Hs Hcalls Hfinal.
  induction Hcalls as [|s1 env c tok w Hcalls IH Hts Hrun]; [reflexivity|].
  pose proof (calls_from_reachable s s1 Hs Hcalls) as Hs1.
  destruct (call_status_step env c s1 tok w (reachable_Inv s1 Hs1) Hrun id)
    as [Heq|Hstep]; [congruence|].
  rewrite IH in Hstep.
  destruct Hfinal as [Hf|[Hf|[Hf|Hf]]]; rewrite Hf in Hstep; inversion Hstep.
Qed.

(** ** Check-in and cancellation *)

Lemma triggerCheckInWindow_run (env : Env) (id : Z) (s : Storage) (tok : T) :
  run (triggerCheckInWindow env id) s tok =
  let b := booking_at s id in
  let deadline := block_timestamp env + CHECK_IN_WINDOW in
  if negb (bookingId b =? id) then Reverted (Error "Booking does not exist")
  else if negb (bool_decide (status b = Active)) then Reverted (Error "Booking not active")
  else if negb (block_timestamp env >=? checkInDate b)
  then Reverted (Error "Check-in date not reached")
  else if negb (checkInWindowStart b =? 0)
  then Reverted (Error "Check-in window already triggered")
  else if negb (deadline <=? MAX_UINT256) then Reverted Panic
  else Ok (tt, {| storage :=
                    store_booking id
                      (set_status CheckInReady
                         (set_checkInWindow (block_timestamp env) deadline b)) s;
                  eurcToken := tok;
                  emitted := [CheckInWindowOpened id deadline] |}).
Proof.
  unfold run, triggerCheckInWindow. cbv zeta.
  unfold bind at 1. unfold sload at 1. cbn [storage].
  unfold bind at 1. unfold require at 1.
  destruct (bookingId _ =? id); [|reflexivity]. cbn [negb ret].
  unfold bind at 1. unfold require at 1.
  destruct (bool_decide _); [|reflexivity]. cbn [negb ret].
  unfold bind at 1. unfold require at 1.
  destruct (_ >=? _); [|reflexivity]. cbn [negb ret].
  unfold bind at 1. unfold require at 1.
  destruct (checkInWindowStart _ =? 0); [|reflexivity]. cbn [negb ret].
  unfold bind at 1. unfold checked_add at 1.
  destruct (_ <=? MAX_UINT256); reflexivity.
Qed.

Lemma checkIn_run (env : Env) (id : Z) (s : Storage) (tok : T) :
  run (checkIn env id) s tok =
  let b := booking_at s id in
  if negb (guest b =? msgSender env) then Reverted (Error "Not the guest")
  else if negb (bool_decide (status b = CheckInReady))
  then Reverted (Error "Not ready for check-in")
  else if negb (block_timestamp env <=? checkInDeadline b)
  then Reverted (Error "Check-in window expired")
  else Ok (tt, {| storage :=
                    store_booking id (set_isCheckInComplete true (set_status CheckedIn b)) s;
                  eurcToken := tok;
                  emitted := [CheckedInEvent id (msgSender env)] |}).
Proof.
  unfold run, checkIn. cbv zeta.
  unfold bind at 1. unfold sload at 1. cbn [storage].
  unfold bind at 1. unfold require at 1.
  destruct (guest _ =? msgSender env); [|reflexivity]. cbn [negb ret].
  unfold bind at 1. unfold require at 1.
  destruct (bool_decide _); [|reflexivity]. cbn [negb ret].
  unfold bind at 1. unfold require at 1.
  destruct (_ <=? _); reflexivity.
Qed.

Lemma processMissedCheckIn_run (env : Env) (id : Z) (s : Storage) (tok : T) :
  run (processMissedCheckIn env id) s tok =
  let b := booking_at s id in
  let deadline := block_timestamp env + DISPUTE_RESOLUTION_WINDOW in
  if negb (bool_decide (status b = CheckInReady))
  then Reverted (Error "Not in check-in window")
  else if negb (block_timestamp env >? checkInDeadline b)
  then Reverted (Error "Check-in window not expired")
  else if negb (deadline <=? MAX_UINT256) then Reverted Panic
  else Ok (tt, {| storage :=
                    store_booking id
                      (set_dispute deadline "Missed check-in" (set_status Disputed b)) s;
                  eurcToken := tok;
                  emitted := [CheckInMissed id; DisputeRaised id "Missed check-in"] |}).
Proof.
  unfold run, processMissedCheckIn. cbv zeta.
  unfold bind at 1. unfold sload at 1. cbn [storage].
  unfold bind at 1. unfold require at 1.
  destruct (bool_decide _); [|reflexivity]. cbn [negb ret].
  unfold bind at 1. unfold require at 1.
  destruct (_ >? _); [|reflexivity]. cbn [negb ret].
  unfold bind at 1. unfold checked_add at 1.
  destruct (_ <=? MAX_UINT256); reflexivity.
Qed.

(** The token side of a cancellation: nothing for a booking paid off
    chain, else the host amount back to the guest and then the fee to the
    treasury. *)
Definition cancellation_payout (env : Env) (s : Storage) (b : Booking) (tok : T) : option T :=
  if paidOffChain b then Some tok
  else match transfer (this env) (guest b) (hostAmount b) tok with
       | Some tok1 => transfer (this env) (treasury s) (platformFee b) tok1
       | None => None
       end.

Lemma cancelBooking_run (env : Env) (id : Z) (s : Storage) (tok : T) :
  run (cancelBooking env id) s tok =
  let b := booking_at s id in
  if negb (guest b =? msgSender env) then Reverted (Error "Not the guest")
  else if negb (bool_decide (status b = Active)) then Reverted (Error "Cannot cancel booking")
  else if negb (block_timestamp env <? checkInDate b) then Reverted (Error "Past check-in date")
  else match cancellation_payout env s b tok with
       | Some tok' =>
           Ok (tt, {| storage := store_booking id (set_status Cancelled b) s;
                      eurcToken := tok';
                      emitted := if paidOffChain b then [BookingCancelled id]
                                 else [BookingCancelled id;
                                       BookingRefunded id (hostAmount b)] |})
       | None => Reverted SafeERC20FailedOperation
       end.
Proof.
  unfold run, cancelBooking, cancellation_payout. cbv zeta.
  unfold bind at 1. unfold sload at 1. cbn [storage].
  unfold bind at 1. unfold require at 1.
  destruct (guest _ =? msgSender env); [|reflexivity]. cbn [negb ret].
  unfold bind at 1. unfold require at 1.
  destruct (bool_decide _); [|reflexivity]. cbn [negb ret].
  unfold bind at 1. unfold require at 1.
  destruct (_ <? _); [|reflexivity]. cbn [negb ret].
  unfold bind at 1. unfold sstore, modify at 1. unfold with_storage.
  cbn [storage eurcToken emitted].
  destruct (paidOffChain _) eqn:Hoff; [reflexivity|].
  unfold bind at 1. unfold safeTransfer at 1. cbn [storage eurcToken emitted].
  destruct (transfer _ _ _ _) as [tok1|]; [|reflexivity].
  unfold bind at 1. unfold safeTransfer at 1. cbn [storage eurcToken emitted].
  destruct (transfer _ _ _ _) as [tok2|]; reflexivity.
Qed.

(** Cancellation.  Only the guest cancels, only an Active booking and
    only before the check-in date.  The booking becomes Cancelled; for an
    escrowed booking the guest gets the host amount back and the treasury
    gets the platform fee, which together are the amount paid in: the fee
    is not returned.  Nothing is moved for a booking paid off chain. *)
Theorem cancelBooking_correct (env : Env) (id : Z) (s : Storage) (tok : T) :
  reachable (T:=T) s ->
  let b := booking_at s id in
  ((exists w, run (cancelBooking env id) s tok = Ok (tt, w)) <->
   guest b = msgSender env /\ status b = Active /\ block_timestamp env < checkInDate b
   /\ is_Some (cancellation_payout env s b tok))
  /\ (forall w, run (cancelBooking env id) s tok = Ok (tt, w) ->
      storage w = store_booking id (set_status Cancelled b) s
      /\ cancellation_payout env s b tok = Some (eurcToken w)
      /\ status (booking_at (storage w) id) = Cancelled
      /\ emitted w = (if paidOffChain b then [BookingCancelled id]
                      else [BookingCancelled id; BookingRefunded id (hostAmount b)]))
  /\ hostAmount b + platformFee b = totalAmount b
  /\ (guest b <> msgSender env ->
      run (cancelBooking env id) s tok = Reverted (Error "Not the guest"))
  /\ (guest b = msgSender env -> status b <> Active ->
      run (cancelBooking env id) s tok = Reverted (Error "Cannot cancel booking"))
  /\ (guest b = msgSender env -> status b = Active -> checkInDate b <= block_timestamp env ->
      run (cancelBooking env id) s tok = Reverted (Error "Past check-in date")).
Proof.
  intros Hs. cbv zeta. rewrite cancelBooking_run. cbv zeta.
  pose proof (inv_fee s (reachable_Inv s Hs) id) as Hfee.
  set (b := booking_at s id) in *.
  destruct (guest b =? msgSender env) eqn:Hg; cbn [negb];
    [apply Z.eqb_eq in Hg|apply Z.eqb_neq in Hg].
  2:{ split; [split; [intros [w Hw]; discriminate|intros (? & _); done]|].
      split; [intros w Hw; discriminate|]. split; [lia|]. repeat split; done. }
  destruct (bool_decide (status b = Active)) eqn:Ha; cbn [negb];
    [apply bool_decide_eq_true_1 in Ha|apply bool_decide_eq_false_1 in Ha].
  2:{ split; [split; [intros [w Hw]; discriminate|intros (_ & ? & _); done]|].
      split; [intros w Hw; discriminate|]. split; [lia|]. repeat split; done. }
  destruct (block_timestamp env <? checkInDate b) eqn:Ht; cbn [negb];
    [apply Z.ltb_lt in Ht|apply Z.ltb_ge in Ht].
  2:{ split; [split; [intros [w Hw]; discriminate|intros (_ & _ & ? & _); lia]|].
      split; [intros w Hw; discriminate|]. split; [lia|]. repeat split; done. }
  destruct (cancellation_payout env s b tok) as [tok'|] eqn:Hpay.
  - split; [split; [intros _; repeat split; try done; by eexists|intros _; by eexists]|].
    split.
    { intros w [= <-]. cbn [storage eurcToken emitted].
      rewrite booking_at_store_eq. done. }
    split; [lia|]. repeat split; try done; lia.
  - split; [split; [intros [w Hw]; discriminate|intros (_ & _ & _ & [? ?]); done]|].
    split; [intros w Hw; discriminate|]. split; [lia|]. repeat split; try done; lia.
Qed.

(** The existence check of [triggerCheckInWindow] compares the stored id
    with the one asked for.  For an id that was never given out it
    refuses, except for id 0: the empty record of booking 0 passes every
    check, so on a contract where nobody did so before, anybody can open
    a check-in window for the booking 0 that does not exist. *)
Theorem triggerCheckInWindow_unknown_booking (env : Env) (id : Z) (s : Storage) (tok : T) :
  reachable (T:=T) s ->
  (_bookingIdCounter s < id ->
   run (triggerCheckInWindow env id) s tok = Reverted (Error "Booking does not exist"))
  /\ (id < 0 ->
      run (triggerCheckInWindow env id) s tok = Reverted (Error "Booking does not exist"))
  /\ (id = 0 -> bookings s !! 0 = None ->
      0 <= block_timestamp env ->
      block_timestamp env + CHECK_IN_WINDOW <= MAX_UINT256 ->
      exists w,
        run (triggerCheckInWindow env id) s tok = Ok (tt, w)
        /\ eurcToken w = tok
        /\ emitted w = [CheckInWindowOpened 0 (block_timestamp env + CHECK_IN_WINDOW)]
        /\ bookings (storage w) !! 0
           = Some (set_status CheckInReady
                     (set_checkInWindow (block_timestamp env)
                        (block_timestamp env + CHECK_IN_WINDOW) zeroBooking))).
Proof.
  intros Hs. pose proof (reachable_Inv s Hs) as HI.
  assert (Hout : bookings s !! id = None -> id <> 0 ->
                 run (triggerCheckInWindow env id) s tok
                 = Reverted (Error "Booking does not exist")).
  { intros Hnone Hne. rewrite triggerCheckInWindow_run. cbv zeta.
    rewrite (zeroBooking_at s id Hnone). cbn [bookingId zeroBooking].
    by rewrite (proj2 (Z.eqb_neq 0 id)) by lia. }
  assert (Hdom : forall j, ~ (0 <= j <= _bookingIdCounter s) -> bookings s !! j = None).
  { intros j Hj. destruct (bookings s !! j) as [b|] eqn:Hb; [|done].
    destruct Hj. apply (inv_dom s HI j). by eexists. }
  pose proof (inv_counter s HI) as Hc.
  split; [|split].
  - intros Hid. apply Hout; [apply Hdom|]; lia.
  - intros Hid. apply Hout; [apply Hdom|]; lia.
  - intros -> Hnone Hts Hfit. rewrite triggerCheckInWindow_run. cbv zeta.
    rewrite (zeroBooking_at s 0 Hnone).
    cbn [bookingId status checkInDate checkInWindowStart zeroBooking].
    rewrite Z.eqb_refl. cbn [negb].
    rewrite bool_decide_eq_true_2 by reflexivity. cbn [negb].
    rewrite Z.geb_leb, (proj2 (Z.leb_le 0 _) Hts). cbn [negb].
    rewrite (proj2 (Z.leb_le _ _) Hfit). cbn [negb].
    eexists. split; [reflexivity|]. cbn [storage eurcToken emitted].
    repeat split. unfold store_booking. cbn [bookings]. by rewrite lookup_insert_eq.
Qed.

(** While a booking waits for check-in, the guest can check in up to the
    deadline and anybody can declare the check-in missed after it: at no
    time both.  Check-in makes the booking CheckedIn; a missed check-in
    makes it Disputed with a day to resolve. *)
Theorem checkIn_or_missed (env : Env) (id : Z) (s : Storage) (tok : T) :
  let b := booking_at s id in
  status b = CheckInReady ->
  ((exists w, run (checkIn env id) s tok = Ok (tt, w)) <->
   guest b = msgSender env /\ block_timestamp env <= checkInDeadline b)
  /\ ((exists w, run (processMissedCheckIn env id) s tok = Ok (tt, w)) <->
      checkInDeadline b < block_timestamp env
      /\ block_timestamp env + DISPUTE_RESOLUTION_WINDOW <= MAX_UINT256)
  /\ (forall w, run (checkIn env id) s tok = Ok (tt, w) ->
      forall caller w', run (processMissedCheckIn
                               {| block_timestamp := block_timestamp env;
                                  msgSender := caller; this := this env;
                                  propertyMarketplace := propertyMarketplace env |} id) s tok
                        <> Ok (tt, w'))
  /\ (forall w, run (checkIn env id) s tok = Ok (tt, w) ->
      status (booking_at (storage w) id) = CheckedIn
      /\ isCheckInComplete (booking_at (storage w) id) = true
      /\ eurcToken w = tok)
  /\ (forall w, run (processMissedCheckIn env id) s tok = Ok (tt, w) ->
      status (booking_at (storage w) id) = Disputed
      /\ disputeDeadline (booking_at (storage w) id)
         = block_timestamp env + DISPUTE_RESOLUTION_WINDOW
      /\ isResolvedByHost (booking_at (storage w) id) = isResolvedByHost b
      /\ isResolvedByGuest (booking_at (storage w) id) = isResolvedByGuest b
      /\ eurcToken w = tok).
Proof.
  cbv zeta. intros Hst.
  set (b := booking_at s id) in *.
  assert (Hin : forall w, run (checkIn env id) s tok = Ok (tt, w) ->
                guest b = msgSender env /\ block_timestamp env <= checkInDeadline b
                /\ w = {| storage := store_booking id
                                       (set_isCheckInComplete true (set_status CheckedIn b)) s;
                          eurcToken := tok;
                          emitted := [CheckedInEvent id (msgSender env)] |}).
  { intros w. rewrite checkIn_run. cbv zeta. fold b.
    rewrite (bool_decide_eq_true_2 _ Hst). cbn [negb].
    destruct (guest b =? msgSender env) eqn:Hg; cbn [negb]; [|discriminate].
    destruct (block_timestamp env <=? checkInDeadline b) eqn:Hd; cbn [negb];
      [|discriminate].
    apply Z.eqb_eq in Hg. apply Z.leb_le in Hd. by intros [= <-]. }
  assert (Hmiss : forall caller w,
             run (processMissedCheckIn
                    {| block_timestamp := block_timestamp env; msgSender := caller;
                       this := this env; propertyMarketplace := propertyMarketplace env |}
                    id) s tok = Ok (tt, w) ->
             checkInDeadline b < block_timestamp env
             /\ block_timestamp env + DISPUTE_RESOLUTION_WINDOW <= MAX_UINT256
             /\ w = {| storage :=
                         store_booking id
                           (set_dispute (block_timestamp env + DISPUTE_RESOLUTION_WINDOW)
                              "Missed check-in" (set_status Disputed b)) s;
                       eurcToken := tok;
                       emitted := [CheckInMissed id; DisputeRaised id "Missed check-in"] |}).
  { intros caller w. rewrite processMissedCheckIn_run. cbv zeta. fold b.
    cbn [block_timestamp].
    rewrite (bool_decide_eq_true_2 _ Hst). cbn [negb]. rewrite Z.gtb_ltb.
    destruct (checkInDeadline b <? block_timestamp env) eqn:Hd; cbn [negb];
      [|discriminate].
    destruct (_ <=? MAX_UINT256) eqn:Hf; cbn [negb]; [|discriminate].
    apply Z.ltb_lt in Hd. apply Z.leb_le in Hf. by intros [= <-]. }
  assert (Hmiss' : forall w, run (processMissedCheckIn env id) s tok = Ok (tt, w) ->
             checkInDeadline b < block_timestamp env
             /\ block_timestamp env + DISPUTE_RESOLUTION_WINDOW <= MAX_UINT256
             /\ w = {| storage :=
                         store_booking id
                           (set_dispute (block_timestamp env + DISPUTE_RESOLUTION_WINDOW)
                              "Missed check-in" (set_status Disputed b)) s;
                       eurcToken := tok;
                       emitted := [CheckInMissed id; DisputeRaised id "Missed check-in"] |}).
  { intros w Hw. apply (Hmiss (msgSender env) w). by destruct env. }
  split; [|split; [|split; [|split]]].
  - split.
    + intros [w Hw]. by destruct (Hin w Hw) as (? & ? & _).
    + intros [Hg Hd]. rewrite checkIn_run. cbv zeta. fold b.
      rewrite (bool_decide_eq_true_2 _ Hst), (proj2 (Z.eqb_eq _ _) Hg),
        (proj2 (Z.leb_le _ _) Hd). by eexists.
  - split.
    + intros [w Hw]. by destruct (Hmiss' w Hw) as (? & ? & _).
    + intros [Hd Hf]. rewrite processMissedCheckIn_run. cbv zeta. fold b.
      rewrite (bool_decide_eq_true_2 _ Hst), Z.gtb_ltb, (proj2 (Z.ltb_lt _ _) Hd),
        (proj2 (Z.leb_le _ _) Hf). by eexists.
  - intros w Hw caller w' Hw'.
    destruct (Hin w Hw) as (_ & Hd & _). destruct (Hmiss caller w' Hw') as (Hd' & _). lia.
  - intros w Hw. destruct (Hin w Hw) as (_ & _ & ->).
    cbn [storage eurcToken]. by rewrite booking_at_store_eq.
  - intros w Hw. destruct (Hmiss' w Hw) as (_ & _ & ->).
    cbn [storage eurcToken]. by rewrite booking_at_store_eq.
Qed.

End Proofs.


(** ** A worked scenario on the reference ledger

    One property, one guest with funds and an allowance for the contract,
    a platform fee of 3% (30 tenths of a percent). *)

Definition villa : PropertyMarketplace.Property :=
  {| PropertyMarketplace.propertyId := "villa-1";
     PropertyMarketplace.propertyTokenAddress := 77;
     PropertyMarketplace.owner := 100;
     PropertyMarketplace.pricePerNight := 100;
     PropertyMarketplace.isActive := true;
     PropertyMarketplace.propertyURI := "ipfs://villa-1" |}.

Definition unlisted : PropertyMarketplace.Property :=
  {| PropertyMarketplace.propertyId := "";
     PropertyMarketplace.propertyTokenAddress := 0;
     PropertyMarketplace.owner := 0;
     PropertyMarketplace.pricePerNight := 0;
     PropertyMarketplace.isActive := false;
     PropertyMarketplace.propertyURI := "" |}.

Definition marketplace : PropertyMarketplace.State :=
  {| PropertyMarketplace.properties :=
       fun id => if String.eqb id "villa-1" then villa else unlisted;
     PropertyMarketplace.platformFeePercentage := 30 |}.

Definition arbiter : address := 1.
Definition treasury_account : address := 50.
Definition host_account : address := 100.
Definition guest_account : address := 200.
Definition contract_account : address := 999.

Definition at_time (now : Z) (sender : address) : Env :=
  {| block_timestamp := now; msgSender := sender; this := contract_account;
     propertyMarketplace := marketplace |}.

Definition t0 : Z := 1700000000.

Definition funded : Ledger :=
  {| balanceOf := {[ guest_account := 10000 ]};
     allowance := {[ (guest_account, contract_account) := 10000 ]} |}.

(** Run a call; a reverted call leaves storage and token as they were. *)
Definition after {T : Type} {token : IERC20 T} (env : Env) (c : Call)
    (st : Storage * T) : Storage * T :=
  match run (call env c) (fst st) (snd st) with
  | Ok (_, w) => (storage w, eurcToken w)
  | Reverted _ => st
  end.

Definition deployed : Storage * Ledger := (constructor arbiter treasury_account, funded).

(** The guest books the villa from [t0 + 7d] to [t0 + 10d] for 300. *)
Definition booked : Storage * Ledger :=
  after (at_time t0 guest_account)
    (Call_createBooking "villa-1" (t0 + 7 * one_day) (t0 + 10 * one_day) 300 "ipfs://b1")
    deployed.

(** The check-in window opens on the check-in date and nobody checks in. *)
Definition window_open : Storage * Ledger :=
  after (at_time (t0 + 7 * one_day) host_account) (Call_triggerCheckInWindow 1) booked.

Definition disputed : Storage * Ledger :=
  after (at_time (t0 + 8 * one_day + 1) host_account) (Call_processMissedCheckIn 1)
    window_open.

(** Inside the dispute window the host consents first. *)
Definition host_consented : Storage * Ledger :=
  after (at_time (t0 + 8 * one_day + 2) host_account) (Call_hostResolveDispute 1) disputed.

(** Or nobody consents and the dispute is escalated after the deadline. *)
Definition escalated : Storage * Ledger :=
  after (at_time (t0 + 9 * one_day + 2) guest_account) (Call_escalateDispute 1) disputed.

Lemma after_reachable {T : Type} {token : IERC20 T} (env : Env) (c : Call)
    (st : Storage * T) :
  reachable (T:=T) (fst st) -> 0 <= block_timestamp env ->
  reachable (T:=T) (fst (after env c st)).
Proof.
  intros Hreach Hts. unfold after.
  destruct (run (call env c) (fst st) (snd st)) as [[[] w]|e] eqn:Hrun.
  - cbn [fst]. by apply (reachable_call (fst st) env c (snd st) w).
  - exact Hreach.
Qed.

Lemma deployed_reachable : reachable (T:=Ledger) (fst deployed).
Proof. apply reachable_deployed. Qed.

Lemma booked_reachable : reachable (T:=Ledger) (fst booked).
Proof. apply after_reachable; [apply deployed_reachable|vm_compute; discriminate]. Qed.

Lemma window_open_reachable : reachable (T:=Ledger) (fst window_open).
Proof. apply after_reachable; [apply booked_reachable|vm_compute; discriminate]. Qed.

Lemma disputed_reachable : reachable (T:=Ledger) (fst disputed).
Proof. apply after_reachable; [apply window_open_reachable|vm_compute; discriminate]. Qed.

Lemma host_consented_reachable : reachable (T:=Ledger) (fst host_consented).
Proof. apply after_reachable; [apply disputed_reachable|vm_compute; discriminate]. Qed.

Lemma escalated_reachable : reachable (T:=Ledger) (fst escalated).
Proof. apply after_reachable; [apply disputed_reachable|vm_compute; discriminate]. Qed.

Lemma booked_bookings :
  bookings (fst booked) = {[ 1 := booking_at (fst booked) 1 ]}.
Proof. vm_compute. reflexivity. Qed.

(** The scenario of the specification: with the stay [t0+7d, t0+10d)
    booked, a request shifted by one day is refused as a date conflict, the
    back-to-back request starting at [t0+10d] is accepted as booking 2. *)
Lemma no_double_booking_witness :
  run (createBooking (at_time t0 guest_account) "villa-1"
         (t0 + 8 * one_day) (t0 + 11 * one_day) 300 "ipfs://b2")
      (fst booked) (snd booked)
  = Reverted DateConflict
  /\ exists w,
      run (createBooking (at_time t0 guest_account) "villa-1"
             (t0 + 10 * one_day) (t0 + 13 * one_day) 300 "ipfs://b2")
          (fst booked) (snd booked)
      = Ok (2, w).
Proof.
  destruct (no_double_booking (T:=Ledger) (fst booked) booked_reachable)
    as (_ & _ & _ & Hconflict & _ & Hfree & _).
  split.
  - apply (Hconflict (at_time t0 guest_account)).
    + vm_compute. discriminate.
    + exists 1, (booking_at (fst booked) 1).
      split; [vm_compute; reflexivity|]. split; [reflexivity|].
      split; [intros [Hc|Hc]; vm_compute in Hc; discriminate|].
      split; vm_compute; reflexivity.
    + repeat split; vm_compute; congruence.
    + split; vm_compute; reflexivity.
  - eexists.
    apply (Hfree (at_time t0 guest_account) "villa-1"%string _ _ 300 "ipfs://b2"%string
             (snd booked)
             (move guest_account contract_account 300
                (spend guest_account contract_account 300 (snd booked)))).
    + repeat split; vm_compute; congruence.
    + split; vm_compute; reflexivity.
    + vm_compute. discriminate.
    + intros j b. rewrite booked_bookings.
      intros [<- <-]%lookup_singleton_Some _ _. left. vm_compute. discriminate.
    + vm_compute. reflexivity.
    + repeat split; vm_compute; discriminate.
Defined.

(** The stored split of booking 1: 9 + 291 = 300, with 9 = 300 * 30 / 1000,
    and still so after the arbiter resolved its dispute. *)
Lemma fee_conservation_witness :
  platformFee (booking_at (fst booked) 1) + hostAmount (booking_at (fst booked) 1)
  = totalAmount (booking_at (fst booked) 1)
  /\ platformFee (booking_at (fst booked) 1) = 300 * 30 / 1000
  /\ exists b', bookings (fst (after (at_time (t0 + 10 * one_day) arbiter)
                                (Call_adminResolveDispute 1 40) escalated)) !! 1
                = Some b'
                /\ platformFee b' + hostAmount b' = totalAmount b'.
Proof.
  split; [|split].
  - destruct (fee_conservation (T:=Ledger) (fst booked) booked_reachable) as (Hall & _).
    apply (Hall 1). vm_compute. reflexivity.
  - destruct (fee_conservation (T:=Ledger) (fst deployed) deployed_reachable)
      as (_ & Hcreate & _).
    destruct (Hcreate (at_time t0 guest_account) "villa-1"%string
                (t0 + 7 * one_day) (t0 + 10 * one_day) 300 "ipfs://b1"%string
                (snd deployed) 1
                {| storage := fst booked; eurcToken := snd booked;
                   emitted := [BookingCreated 1 "villa-1" guest_account
                                 (t0 + 7 * one_day) 300] |})
      as (b & Hb & _ & Hfee & _); [vm_compute; reflexivity|].
    cbn [storage] in Hb. unfold booking_at. rewrite Hb. exact Hfee.
  - destruct (fee_conservation (T:=Ledger) (fst escalated) escalated_reachable)
      as (_ & _ & _ & Hkeep).
    destruct (Hkeep (at_time (t0 + 10 * one_day) arbiter) (Call_adminResolveDispute 1 40)
                (snd escalated)
                {| storage := fst (after (at_time (t0 + 10 * one_day) arbiter)
                                     (Call_adminResolveDispute 1 40) escalated);
                   eurcToken := snd (after (at_time (t0 + 10 * one_day) arbiter)
                                       (Call_adminResolveDispute 1 40) escalated);
                   emitted := [BookingCompleted 1; BookingRefunded 1 116] |}
                1 (booking_at (fst escalated) 1))
      as (b' & Hb' & _ & _ & _ & Hsum); [vm_compute; reflexivity..|].
    exists b'. split; [exact Hb'|exact Hsum].
Defined.

(** After the host consented, the guest's consent inside the window
    completes booking 1 in the same call; a stranger is turned away. *)
Lemma dual_consent_resolution_witness :
  run (guestResolveDispute (at_time (t0 + 8 * one_day + 3) arbiter) 1)
      (fst host_consented) (snd host_consented)
  = Reverted (Error "Not the guest")
  /\ exists w,
      run (guestResolveDispute (at_time (t0 + 8 * one_day + 3) guest_account) 1)
          (fst host_consented) (snd host_consented)
      = Ok (tt, w)
      /\ status (booking_at (storage w) 1) = Completed
      /\ isResolvedByHost (booking_at (storage w) 1) = true
      /\ isResolvedByGuest (booking_at (storage w) 1) = true.
Proof.
  split.
  - pose proof (dual_consent_resolution (T:=Ledger) (at_time (t0 + 8 * one_day + 3) arbiter)
                  1 (fst host_consented) (snd host_consented)) as Hthm.
    cbv zeta in Hthm. destruct Hthm as (_ & Hstranger & _).
    apply Hstranger. vm_compute. discriminate.
  - pose proof (dual_consent_resolution (T:=Ledger)
                  (at_time (t0 + 8 * one_day + 3) guest_account)
                  1 (fst host_consented) (snd host_consented)) as Hthm.
    cbv zeta in Hthm. destruct Hthm as (_ & _ & _ & _ & _ & _ & _ & Hguest & _).
    destruct (run (guestResolveDispute (at_time (t0 + 8 * one_day + 3) guest_account) 1)
                (fst host_consented) (snd host_consented)) as [[[] w]|e] eqn:Hrun;
      [|vm_compute in Hrun; discriminate].
    exists w. split; [reflexivity|].
    destruct (Hguest w eq_refl) as (_ & _ & _ & Hg & Hh & Hiff & _).
    assert (Hh' : isResolvedByHost (booking_at (storage w) 1) = true)
      by (rewrite Hh; vm_compute; reflexivity).
    split; [apply Hiff; split; assumption|]. split; assumption.
Defined.

(** A stay of one day and one second is accepted; a stay of one second
    short of a day is refused with the one-night error. *)
Lemma creation_date_rules_witness :
  (exists e,
      run (createBooking (at_time t0 guest_account) "villa-1"
             (t0 + one_day) (t0 + 2 * one_day - 1) 300 "ipfs://b")
          (fst deployed) (snd deployed)
      = Reverted e
      /\ (InvalidDateRange e
          \/ (e = DateConflict
              /\ date_order_checks (at_time t0 guest_account)
                   (t0 + one_day) (t0 + 2 * one_day - 1)
              /\ hasBookingConflict (fst deployed) "villa-1"
                   (t0 + one_day) (t0 + 2 * one_day - 1) = true))).
Proof.
  pose proof (creation_date_rules (T:=Ledger) (at_time t0 guest_account) "villa-1"
                (t0 + one_day) (t0 + 2 * one_day - 1) 300 "" "ipfs://b"
                (fst deployed) (snd deployed)) as Hthm.
  cbv zeta in Hthm. destruct Hthm as (_ & _ & _ & Hclass & _).
  apply Hclass.
  - intros (_ & _ & Hday). vm_compute in Hday. apply Hday. reflexivity.
  - repeat split; vm_compute; congruence.
Defined.

(** The stay need not be a whole number of days: one day and one second
    is booked. *)
Lemma creation_accepts_partial_day :
  (exists w,
      run (createBooking (at_time t0 guest_account) "villa-1"
             (t0 + one_day) (t0 + 2 * one_day + 1) 300 "ipfs://b")
          (fst deployed) (snd deployed)
      = Ok (1, w))
  /\ (t0 + 2 * one_day + 1 - (t0 + one_day)) mod one_day = 1
  /\ (exists w,
      run (createBookingPaid (at_time t0 guest_account) "villa-1"
             (t0 + one_day) (t0 + 2 * one_day + 1) 300 "revolut-1" "ipfs://b")
          (fst deployed) (snd deployed)
      = Ok (1, w)).
Proof.
  split; [|split].
  - destruct (run (createBooking (at_time t0 guest_account) "villa-1"
                     (t0 + one_day) (t0 + 2 * one_day + 1) 300 "ipfs://b")
                (fst deployed) (snd deployed)) as [[id w]|e] eqn:Hrun.
    + exists w. vm_compute in Hrun. injection Hrun as <- _. reflexivity.
    + vm_compute in Hrun. discriminate.
  - vm_compute. reflexivity.
  - destruct (run (createBookingPaid (at_time t0 guest_account) "villa-1"
                     (t0 + one_day) (t0 + 2 * one_day + 1) 300 "revolut-1" "ipfs://b")
                (fst deployed) (snd deployed)) as [[id w]|e] eqn:Hrun.
    + exists w. vm_compute in Hrun. injection Hrun as <- _. reflexivity.
    + vm_compute in Hrun. discriminate.
Qed.

(** The arbiter gives the guest 40% of the host amount of booking 1: the
    guest gets 116 of 291, the host 175, the treasury the fee of 9, and
    the booking is Completed; nobody else may resolve. *)
Lemma adminResolveDispute_correct_witness :
  run (adminResolveDispute (at_time (t0 + 10 * one_day) host_account) 1 40)
      (fst escalated) (snd escalated)
  = Reverted (OwnableUnauthorizedAccount host_account)
  /\ exists w,
      run (adminResolveDispute (at_time (t0 + 10 * one_day) arbiter) 1 40)
          (fst escalated) (snd escalated)
      = Ok (tt, w)
      /\ status (booking_at (storage w) 1) = Completed
      /\ balance (eurcToken w) guest_account = 9700 + 116
      /\ balance (eurcToken w) host_account = 175
      /\ balance (eurcToken w) treasury_account = 9.
Proof.
  split.
  - pose proof (adminResolveDispute_correct (T:=Ledger)
                  (at_time (t0 + 10 * one_day) host_account) 1 40
                  (fst escalated) (snd escalated)) as Hthm.
    cbv zeta in Hthm. destruct Hthm as (_ & Hother & _).
    apply Hother. vm_compute. discriminate.
  - pose proof (adminResolveDispute_correct (T:=Ledger)
                  (at_time (t0 + 10 * one_day) arbiter) 1 40
                  (fst escalated) (snd escalated)) as Hthm.
    cbv zeta in Hthm. destruct Hthm as (_ & _ & _ & _ & _ & Hescrow & _).
    eexists. split.
    + apply (Hescrow eq_refl); [vm_compute; reflexivity|vm_compute; split; discriminate
                               |reflexivity|vm_compute; discriminate
                               |vm_compute; discriminate|].
      vm_compute. reflexivity.
    + vm_compute. repeat split; reflexivity.
Defined.

(** Past the dispute deadline with nobody resolved, anyone escalates
    booking 1; inside the window the call is refused. *)
Lemma escalateDispute_correct_witness :
  run (escalateDispute (at_time (t0 + 8 * one_day + 2) guest_account) 1)
      (fst disputed) (snd disputed)
  = Reverted DisputeWindowOpen
  /\ exists w,
      run (escalateDispute (at_time (t0 + 9 * one_day + 2) guest_account) 1)
          (fst disputed) (snd disputed)
      = Ok (tt, w)
      /\ status (booking_at (storage w) 1) = EscalatedToAdmin.
Proof.
  split.
  - pose proof (escalateDispute_correct (T:=Ledger)
                  (at_time (t0 + 8 * one_day + 2) guest_account) 1
                  (fst disputed) (snd disputed)) as Hthm.
    cbv zeta in Hthm. destruct Hthm as (_ & _ & _ & _ & _ & _ & Hopen & _).
    apply Hopen; vm_compute; [reflexivity|discriminate].
  - pose proof (escalateDispute_correct (T:=Ledger)
                  (at_time (t0 + 9 * one_day + 2) guest_account) 1
                  (fst disputed) (snd disputed)) as Hthm.
    cbv zeta in Hthm. destruct Hthm as (Hiff & Honly & Hat & _).
    destruct (proj1 Hiff) as [w Hw].
    { split; [vm_compute; reflexivity|]. split; [vm_compute; reflexivity|].
      intros [Hh _]. vm_compute in Hh. discriminate. }
    exists w. split; [exact Hw|]. rewrite (Honly w Hw). rewrite Hat. reflexivity.
Defined.


(** The villa is taken from [t0 + 7d] to [t0 + 10d] by booking 1, which
    is Active.  A request for [t0 + 8d] to [t0 + 11d] meets the overlap
    test against it; made on day 9 it is refused because its check-in is
    not in the future, and made by the host because hosts do not book
    their own property: in neither case with the date-conflict error. *)
Lemma overlap_refused_by_earlier_check :
  let existing := booking_at (fst booked) 1 in
  let ci := t0 + 8 * one_day in
  let co := t0 + 11 * one_day in
  (propertyId existing = "villa-1" /\ status existing = Active
   /\ (ci <? checkOutDate existing) && (co >? checkInDate existing) = true)
  /\ run (createBooking (at_time (t0 + 9 * one_day) guest_account) "villa-1" ci co 300
            "ipfs://b2") (fst booked) (snd booked)
     = Reverted (Error "Check-in must be in the future")
  /\ run (createBookingPaid (at_time (t0 + 9 * one_day) guest_account) "villa-1" ci co 300
            "revolut-2" "ipfs://b2") (fst booked) (snd booked)
     = Reverted (Error "Check-in must be in the future")
  /\ run (createBooking (at_time t0 host_account) "villa-1" ci co 300 "ipfs://b2")
         (fst booked) (snd booked)
     = Reverted (Error "Cannot book own property").
Proof. vm_compute. repeat split. Qed.


(** The guest checks in during the window. *)
Definition checked_in : Storage * Ledger :=
  after (at_time (t0 + 7 * one_day + 60) guest_account) (Call_checkIn 1) window_open.

(** Later the owner names another treasury and the guest books again. *)
Definition much_later : Storage * Ledger :=
  after (at_time (t0 + 30 * one_day) guest_account)
    (Call_createBooking "villa-1" (t0 + 40 * one_day) (t0 + 42 * one_day) 200 "ipfs://b2")
    (after (at_time (t0 + 20 * one_day) arbiter) (Call_setTreasury 51) checked_in).

Lemma after_calls_from {T : Type} {token : IERC20 T} (env : Env) (c : Call)
    (s : Storage) (st : Storage * T) :
  calls_from (T:=T) s (fst st) -> 0 <= block_timestamp env ->
  calls_from (T:=T) s (fst (after env c st)).
Proof.
  intros Hcalls Hts. unfold after.
  destruct (run (call env c) (fst st) (snd st)) as [[[] w]|e] eqn:Hrun.
  - cbn [fst]. by apply (calls_more s (fst st) env c (snd st) w).
  - exact Hcalls.
Qed.

(** Opening the check-in window of booking 1 moves it from Active to
    CheckInReady. *)
Lemma status_moves_along_life_cycle_witness :
  status (booking_at (fst booked) 1) = Active
  /\ status (booking_at (fst window_open) 1) = CheckInReady
  /\ status_step (status (booking_at (fst booked) 1))
       (status (booking_at (fst window_open) 1)).
Proof.
  split; [vm_compute; reflexivity|]. split; [vm_compute; reflexivity|].
  destruct (run (call (at_time (t0 + 7 * one_day) host_account)
                   (Call_triggerCheckInWindow 1)) (fst booked) (snd booked))
    as [[[] w]|e] eqn:Hrun; [|vm_compute in Hrun; discriminate].
  assert (Hw : storage w = fst window_open).
  { unfold window_open, after. by rewrite Hrun. }
  destruct (status_moves_along_life_cycle (T:=Ledger) (fst booked)
              (at_time (t0 + 7 * one_day) host_account) (Call_triggerCheckInWindow 1)
              (snd booked) w 1 booked_reachable Hrun) as [Hsame|Hstep].
  - rewrite Hw in Hsame. vm_compute in Hsame. discriminate.
  - rewrite Hw in Hstep. exact Hstep.
Defined.

(** Booking 1 is checked in; a change of treasury and a new booking later
    it still is. *)
Lemma final_status_stays_witness :
  status (booking_at (fst checked_in) 1) = CheckedIn
  /\ _bookingIdCounter (fst much_later) = 2
  /\ status (booking_at (fst much_later) 1) = CheckedIn.
Proof.
  assert (Hin : status (booking_at (fst checked_in) 1) = CheckedIn)
    by (vm_compute; reflexivity).
  split; [exact Hin|]. split; [vm_compute; reflexivity|].
  rewrite <- Hin.
  apply (final_status_stays (T:=Ledger) (fst checked_in) (fst much_later) 1).
  - apply after_reachable; [apply window_open_reachable|vm_compute; discriminate].
  - unfold much_later.
    apply after_calls_from; [|vm_compute; discriminate].
    apply after_calls_from; [|vm_compute; discriminate].
    apply calls_none.
  - left. exact Hin.
Defined.

(** The guest cancels booking 1 a day after booking it: of the 300 paid
    in, 291 come back and 9 go to the treasury.  The host cannot cancel. *)
Lemma cancelBooking_correct_witness :
  run (cancelBooking (at_time (t0 + one_day) host_account) 1) (fst booked) (snd booked)
  = Reverted (Error "Not the guest")
  /\ exists w,
      run (cancelBooking (at_time (t0 + one_day) guest_account) 1) (fst booked) (snd booked)
      = Ok (tt, w)
      /\ status (booking_at (storage w) 1) = Cancelled
      /\ balance (eurcToken w) guest_account = 9700 + 291
      /\ balance (eurcToken w) treasury_account = 9
      /\ balance (eurcToken w) contract_account = 0.
Proof.
  split.
  - pose proof (cancelBooking_correct (T:=Ledger) (at_time (t0 + one_day) host_account) 1
                  (fst booked) (snd booked) booked_reachable) as Hthm.
    cbv zeta in Hthm. destruct Hthm as (_ & _ & _ & Hother & _).
    apply Hother. vm_compute. discriminate.
  - pose proof (cancelBooking_correct (T:=Ledger) (at_time (t0 + one_day) guest_account) 1
                  (fst booked) (snd booked) booked_reachable) as Hthm.
    cbv zeta in Hthm. destruct Hthm as (Hiff & Hres & _).
    destruct (proj2 Hiff) as [w Hw].
    { split; [vm_compute; reflexivity|]. split; [vm_compute; reflexivity|].
      split; [vm_compute; reflexivity|]. vm_compute. by eexists. }
    exists w. split; [exact Hw|].
    destruct (Hres w Hw) as (_ & _ & Hstatus & _).
    split; [exact Hstatus|].
    vm_compute in Hw. injection Hw as <-. vm_compute. repeat split; reflexivity.
Defined.

(** On the contract just deployed, a check-in window for booking 5 is
    refused and one for booking 0 is opened. *)
Lemma triggerCheckInWindow_unknown_booking_witness :
  run (triggerCheckInWindow (at_time t0 guest_account) 5) (fst deployed) (snd deployed)
  = Reverted (Error "Booking does not exist")
  /\ exists w,
      run (triggerCheckInWindow (at_time t0 guest_account) 0) (fst deployed) (snd deployed)
      = Ok (tt, w)
      /\ emitted w = [CheckInWindowOpened 0 (t0 + CHECK_IN_WINDOW)]
      /\ _bookingIdCounter (storage w) = 0.
Proof.
  split.
  - destruct (triggerCheckInWindow_unknown_booking (T:=Ledger) (at_time t0 guest_account) 5
                (fst deployed) (snd deployed) deployed_reachable) as (Hbeyond & _).
    apply Hbeyond. vm_compute. reflexivity.
  - destruct (triggerCheckInWindow_unknown_booking (T:=Ledger) (at_time t0 guest_account) 0
                (fst deployed) (snd deployed) deployed_reachable) as (_ & _ & Hzero).
    destruct Hzero as (w & Hw & _ & Hlog & _);
      [reflexivity | reflexivity | vm_compute; discriminate | vm_compute; discriminate |].
    exists w. split; [exact Hw|]. split; [exact Hlog|].
    vm_compute in Hw. injection Hw as <-. reflexivity.
Defined.

(** With the window of booking 1 open until [t0 + 8d]: an hour in, the
    guest checks in and a missed check-in is refused; an hour after the
    deadline it is the other way round. *)
Lemma checkIn_or_missed_witness :
  (exists w, run (checkIn (at_time (t0 + 7 * one_day + 3600) guest_account) 1)
               (fst window_open) (snd window_open) = Ok (tt, w))
  /\ run (processMissedCheckIn (at_time (t0 + 7 * one_day + 3600) host_account) 1)
       (fst window_open) (snd window_open)
     = Reverted (Error "Check-in window not expired")
  /\ (exists w, run (processMissedCheckIn (at_time (t0 + 8 * one_day + 3600) host_account) 1)
                  (fst window_open) (snd window_open) = Ok (tt, w))
  /\ run (checkIn (at_time (t0 + 8 * one_day + 3600) guest_account) 1)
       (fst window_open) (snd window_open)
     = Reverted (Error "Check-in window expired").
Proof.
  assert (Hready : status (booking_at (fst window_open) 1) = CheckInReady)
    by (vm_compute; reflexivity).
  split; [|split; [vm_compute; reflexivity|split; [|vm_compute; reflexivity]]].
  - destruct (checkIn_or_missed (T:=Ledger) (at_time (t0 + 7 * one_day + 3600) guest_account)
                1 (fst window_open) (snd window_open) Hready) as (Hin & _).
    apply Hin. split; [vm_compute; reflexivity|vm_compute; discriminate].
  - destruct (checkIn_or_missed (T:=Ledger) (at_time (t0 + 8 * one_day + 3600) host_account)
                1 (fst window_open) (snd window_open) Hready) as (_ & Hmiss & _).
    apply Hmiss. split; [vm_compute; reflexivity|vm_compute; discriminate].
Defined.

End BookingManagerProofs.

(** * Properties of the event listener *)

Module EventListenerProofs.
Import EventListener.

(** ** The identity string of an event *)


























(** ** The order of a batch *)

(** [a] does not come after [b]: an earlier block, or the same block and
    no later position. *)
Definition precedes (a b : Event) : Prop := compareEvents a b <= 0.

Lemma precedes_spec (a b : Event) :
  precedes a b <->
  blockNumber a < blockNumber b
  \/ (blockNumber a = blockNumber b /\ transactionIndex a <= transactionIndex b).
Proof.
  unfold precedes, compareEvents.
  destruct (blockNumber a =? blockNumber b) eqn:Hb; cbn [negb].
  - apply Z.eqb_eq in Hb. lia.
  - apply Z.eqb_neq in Hb. lia.
Qed.

Lemma before_spec (a b : Event) :
  (compareEvents a b <? 0) = true <->
  blockNumber a < blockNumber b
  \/ (blockNumber a = blockNumber b /\ transactionIndex a < transactionIndex b).
Proof.
  rewrite Z.ltb_lt. unfold compareEvents.
  destruct (blockNumber a =? blockNumber b) eqn:Hb; cbn [negb].
  - apply Z.eqb_eq in Hb. lia.
  - apply Z.eqb_neq in Hb. lia.
Qed.

Lemma insertEvent_perm (e : Event) (sorted : list Event) :
  insertEvent e sorted ≡ₚ e :: sorted.
Proof.
  induction sorted as [|x rest IH]; cbn [insertEvent]; [done|].
  destruct (compareEvents e x <? 0); [done|].
  rewrite IH. apply Permutation_swap.
Qed.

Lemma insertEvent_sorted (e : Event) (sorted : list Event) :
  StronglySorted precedes sorted -> StronglySorted precedes (insertEvent e sorted).
Proof.
  induction sorted as [|x rest IH]; cbn [insertEvent]; intros Hs.
  { by repeat constructor. }
  apply StronglySorted_inv in Hs as [Hrest Hx].
  destruct (compareEvents e x <? 0) eqn:Hlt.
  - apply before_spec in Hlt. constructor.
    + by constructor.
    + constructor.
      * apply precedes_spec. lia.
      * eapply Forall_impl; [exact Hx|]. intros y Hy. cbn in Hy.
        apply precedes_spec in Hy. apply precedes_spec. lia.
  - constructor; [by apply IH|].
    rewrite insertEvent_perm. constructor; [|exact Hx].
    apply precedes_spec.
    destruct (before_spec e x) as [_ Hb].
    destruct (Z.lt_trichotomy (blockNumber e) (blockNumber x)) as [?|[?|?]];
      [rewrite Hb in Hlt by lia; discriminate| |lia].
    destruct (Z.lt_ge_cases (transactionIndex e) (transactionIndex x));
      [rewrite Hb in Hlt by lia; discriminate|lia].
Qed.

(** The events of a batch at one position of one block, in their order. *)
Definition at_position (block index : Z) (events : list Event) : list Event :=
  filter (fun e => blockNumber e = block /\ transactionIndex e = index) events.

Lemma at_position_cons (block index : Z) (e : Event) (events : list Event) :
  at_position block index (e :: events)
  = if decide (blockNumber e = block /\ transactionIndex e = index)
    then e :: at_position block index events
    else at_position block index events.
Proof. unfold at_position. by rewrite filter_cons. Qed.

Lemma at_position_app (block index : Z) (events more : list Event) :
  at_position block index (events ++ more)
  = at_position block index events ++ at_position block index more.
Proof. unfold at_position. by rewrite filter_app. Qed.

Lemma at_position_none (block index : Z) (events : list Event) :
  Forall (fun e => ~ (blockNumber e = block /\ transactionIndex e = index)) events ->
  at_position block index events = [].
Proof.
  induction 1 as [|e events He _ IH]; [done|].
  rewrite at_position_cons. by destruct (decide _).
Qed.

Lemma insertEvent_stable (block index : Z) (e : Event) (sorted : list Event) :
  StronglySorted precedes sorted ->
  at_position block index (insertEvent e sorted)
  = at_position block index sorted ++ at_position block index [e].
Proof.
  induction sorted as [|x rest IH]; cbn [insertEvent]; intros Hs; [done|].
  apply StronglySorted_inv in Hs as [Hrest Hx].
  destruct (compareEvents e x <? 0) eqn:Hlt.
  - apply before_spec in Hlt.
    rewrite (at_position_cons _ _ e (x :: rest)), (at_position_cons _ _ e []).
    destruct (decide (blockNumber e = block /\ transactionIndex e = index))
      as [[Hb Hi]|Hno]; [|by rewrite app_nil_r].
    rewrite (at_position_none block index (x :: rest)); [done|].
    constructor.
    + lia.
    + eapply Forall_impl; [exact Hx|]. intros y Hy. cbn in Hy.
      apply precedes_spec in Hy. lia.
  - rewrite !(at_position_cons _ _ x). rewrite (IH Hrest).
    by destruct (decide (blockNumber x = block /\ transactionIndex x = index)).
Qed.

Lemma sortEvents_fold (events acc : list Event) :
  StronglySorted precedes acc ->
  let sorted := fold_left (fun sorted e => insertEvent e sorted) events acc in
  StronglySorted precedes sorted
  /\ sorted ≡ₚ acc ++ events
  /\ forall block index,
      at_position block index sorted
      = at_position block index acc ++ at_position block index events.
Proof.
  revert acc. induction events as [|e events IH]; intros acc Hacc; cbn [fold_left].
  { split; [done|]. split; [by rewrite app_nil_r|].
    intros. by rewrite app_nil_r. }
  destruct (IH (insertEvent e acc) (insertEvent_sorted e acc Hacc)) as (Hs & Hp & Hst).
  split; [exact Hs|]. split.
  - rewrite Hp, insertEvent_perm. by rewrite <- Permutation_middle.
  - intros block index. rewrite Hst, (insertEvent_stable block index e acc Hacc).
    rewrite <- app_assoc. f_equal.
    change (e :: events) with ([e] ++ events). by rewrite at_position_app.
Qed.

(** When both queries are answered, [getAllEvents] returns the events of
    the two contracts, each once, ordered by block and then by position
    in the block; events at the same position of the same block keep the
    order in which the node returned them, those of the marketplace
    before those of the booking manager.  When the second query fails the
    marketplace events come back as the node returned them, and none when
    the first fails. *)
Theorem getAllEvents_ordered (provider : Provider) (fromBlock toBlock : Z) :
  (forall propertyEvents bookingEvents,
      propertyMarketplace_queryFilter provider fromBlock toBlock = Some propertyEvents ->
      bookingManager_queryFilter provider fromBlock toBlock = Some bookingEvents ->
      let events := getAllEvents provider fromBlock toBlock in
      events ≡ₚ propertyEvents ++ bookingEvents
      /\ StronglySorted precedes events
      /\ forall block index,
          at_position block index events
          = at_position block index propertyEvents
            ++ at_position block index bookingEvents)
  /\ (forall propertyEvents,
      propertyMarketplace_queryFilter provider fromBlock toBlock = Some propertyEvents ->
      bookingManager_queryFilter provider fromBlock toBlock = None ->
      getAllEvents provider fromBlock toBlock = propertyEvents)
  /\ (propertyMarketplace_queryFilter provider fromBlock toBlock = None ->
      getAllEvents provider fromBlock toBlock = []).
Proof.
  unfold getAllEvents. split; [|split].
  - intros pe be -> ->. cbv zeta. unfold sortEvents.
    destruct (sortEvents_fold (pe ++ be) [] (SSorted_nil _)) as (Hs & Hp & Hst).
    split; [exact Hp|]. split; [exact Hs|].
    intros block index. by rewrite Hst, at_position_app.
  - by intros pe -> ->.
  - by intros ->.
Qed.

Section Delivery.
Context {W : Type}.
Variable runHandler : Handler -> HandlerInput -> W -> Completion W.

(** ** One delivery *)


Lemma parseEvent_other (now now' : Z) (e : Event) :
  (parseEvent now e = ParsedUnknown -> parseEvent now' e = ParsedUnknown)
  /\ (parseEvent now e = ParsedThrow -> parseEvent now' e = ParsedThrow).
Proof.
  unfold parseEvent.
  destruct (truthy (name e)); [|destruct (truthy (eventName e))];
    destruct (args e) as [vs|]; split; try discriminate; reflexivity.
Qed.

Lemma release_mark_processing (id : string) (l : Listener) :
  id ∉ processingEvents l -> release id (mark_processing id l) = l.
Proof.
  intros Hid. destruct l as [n done busy]. unfold release, mark_processing. cbn in *.
  f_equal. set_solver.
Qed.

Lemma release_mark_processed (id : string) (l : Listener) :
  id ∉ processingEvents l ->
  release id (mark_processed id (mark_processing id l)) = mark_processed id l.
Proof.
  intros Hid. destruct l as [n done busy]. unfold release, mark_processed, mark_processing.
  cbn in *. f_equal. set_solver.
Qed.

(** [processEvent], case by case. *)
Inductive delivery (now : Z) (e : Event) (l : Listener) (w : W)
    : Outcome * (Listener * W) -> Prop :=
| delivery_unknown :
    parseEvent now e = ParsedUnknown ->
    delivery now e l w (UnknownEventFormat, (l, w))
| delivery_throw :
    parseEvent now e = ParsedThrow ->
    delivery now e l w (ThrewBeforeTry, (l, w))
| delivery_in_flight id input :
    parseEvent now e = ParsedEvent id input ->
    id ∈ processingEvents l ->
    delivery now e l w (AlreadyBeingProcessed, (l, w))
| delivery_committed id input :
    parseEvent now e = ParsedEvent id input ->
    id ∉ processingEvents l -> id ∈ processedEvents l ->
    delivery now e l w (AlreadyProcessed, (l, w))
| delivery_no_handler id input :
    parseEvent now e = ParsedEvent id input ->
    id ∉ processingEvents l -> id ∉ processedEvents l ->
    getEventHandler (input_name input) = None ->
    delivery now e l w (NoHandlerForEvent, (l, w))
| delivery_returned id input h w' :
    parseEvent now e = ParsedEvent id input ->
    id ∉ processingEvents l -> id ∉ processedEvents l ->
    getEventHandler (input_name input) = Some h ->
    runHandler h input w = Returned w' ->
    delivery now e l w (ProcessedSuccessfully, (mark_processed id l, w'))
| delivery_threw id input h w' :
    parseEvent now e = ParsedEvent id input ->
    id ∉ processingEvents l -> id ∉ processedEvents l ->
    getEventHandler (input_name input) = Some h ->
    runHandler h input w = Threw w' ->
    delivery now e l w (ErrorProcessingEvent, (l, w')).

Lemma processEvent_delivery (now : Z) (e : Event) (l : Listener) (w : W) :
  delivery now e l w (processEvent runHandler now e (l, w)).
Proof.
  unfold processEvent, processEvent_enter. cbn [fst snd].
  destruct (parseEvent now e) as [id input| |] eqn:Hparse.
  - destruct (decide (id ∈ processingEvents l)) as [Hbusy|Hbusy].
    { rewrite bool_decide_eq_true_2 by assumption. by eapply delivery_in_flight. }
    rewrite bool_decide_eq_false_2 by assumption.
    destruct (decide (id ∈ processedEvents l)) as [Hdone|Hdone].
    { rewrite bool_decide_eq_true_2 by assumption. by eapply delivery_committed. }
    rewrite bool_decide_eq_false_2 by assumption.
    destruct (getEventHandler (input_name input)) as [h|] eqn:Hh.
    + destruct (runHandler h input w) as [w'|w'] eqn:Hrun; cbn.
      * rewrite release_mark_processed by assumption. by eapply delivery_returned.
      * rewrite release_mark_processing by assumption. by eapply delivery_threw.
    + rewrite release_mark_processing by assumption. by eapply delivery_no_handler.
  - by apply delivery_unknown.
  - by apply delivery_throw.
Qed.






(** ** One poll *)

Lemma ends_in_throw_cons (o : Outcome) (os : list Outcome) :
  o <> ThrewBeforeTry ->
  ends_in_throw (o :: os) = ends_in_throw os.
Proof.
  intros Ho. unfold ends_in_throw. destruct os as [|o' os'].
  - cbn. by destruct o.
  - by rewrite last_cons_cons.
Qed.

(** What the loop over a batch leaves behind. *)
Lemma processEvents_marks (now : Z) (events : list Event) (l : Listener) (w : W)
    (os : list Outcome) (l' : Listener) (w' : W) :
  processEvents runHandler now events (l, w) = (os, (l', w')) ->
  lastProcessedBlock l' = lastProcessedBlock l
  /\ processingEvents l' = processingEvents l
  /\ processedEvents l ⊆ processedEvents l'
  /\ (forall id, id ∈ processedEvents l' ->
      id ∈ processedEvents l
      \/ exists i e input, events !! i = Some e
                           /\ parseEvent now e = ParsedEvent id input
                           /\ os !! i = Some ProcessedSuccessfully)
  /\ (forall (i : nat) e id input,
      events !! i = Some e -> parseEvent now e = ParsedEvent id input ->
      os !! i = Some ProcessedSuccessfully -> id ∈ processedEvents l')
  /\ (forall (i : nat) e id input,
      events !! i = Some e -> parseEvent now e = ParsedEvent id input ->
      os !! i = Some ErrorProcessingEvent -> id ∉ processedEvents l)
  /\ (ends_in_throw os = false -> length os = length events).
Proof.
  revert l w os l' w'.
  induction events as [|e rest IH]; intros l w os l' w'; cbn [processEvents].
  - intros [= <- <- <-].
    split; [reflexivity|]. split; [reflexivity|]. split; [reflexivity|].
    split; [intros id Hid; by left|].
    split; [intros i e id input He; by rewrite lookup_nil in He|].
    split; [intros i e id input He; by rewrite lookup_nil in He|].
    reflexivity.
  - pose proof (processEvent_delivery now e l w) as Hd.
    destruct (processEvent runHandler now e (l, w)) as [o [l1 w1]] eqn:Hone.
    assert (Hstep : lastProcessedBlock l1 = lastProcessedBlock l
                    /\ processingEvents l1 = processingEvents l
                    /\ processedEvents l ⊆ processedEvents l1
                    /\ (forall id, id ∈ processedEvents l1 ->
                        id ∈ processedEvents l
                        \/ exists input, parseEvent now e = ParsedEvent id input
                                         /\ o = ProcessedSuccessfully)
                    /\ (forall id input, parseEvent now e = ParsedEvent id input ->
                        o = ProcessedSuccessfully -> id ∈ processedEvents l1)
                    /\ (forall id input, parseEvent now e = ParsedEvent id input ->
                        o = ErrorProcessingEvent -> id ∉ processedEvents l)).
    { inversion Hd as [Hp|Hp|id input Hp Hbusy|id input Hp Hbusy Hdone
                       |id input Hp Hbusy Hdone Hh|id input h w0 Hp Hbusy Hdone Hh Hrun
                       |id input h w0 Hp Hbusy Hdone Hh Hrun];
        subst; cbn [processedEvents processingEvents lastProcessedBlock mark_processed].
      1-5: split; [reflexivity|]; split; [reflexivity|]; split; [reflexivity|];
        split; [intros id0 Hin; by left|];
        split; intros id0 input0 _ Ho; discriminate Ho.
      - split; [reflexivity|]. split; [reflexivity|]. split; [apply union_subseteq_r|].
        split; [|split].
        + intros id0 [->%elem_of_singleton|Hin]%elem_of_union; [right; eauto|by left].
        + intros id0 input0 Hp0 _. assert (id0 = id) by congruence. subst id0.
          apply elem_of_union_l. by apply elem_of_singleton.
        + intros id0 input0 _ Ho. discriminate Ho.
      - split; [reflexivity|]. split; [reflexivity|]. split; [reflexivity|].
        split; [intros id0 Hin; by left|].
        split; [intros id0 input0 _ Ho; discriminate Ho|].
        intros id0 input0 Hp0 _. assert (id0 = id) by congruence. by subst id0. }
    destruct Hstep as (Hb1 & Hf1 & Hsub1 & Hin1 & Hok1 & Herr1).
    destruct (decide (o = ThrewBeforeTry)) as [->|Hnt].
    { intros [= <- <- <-].
      split; [exact Hb1|]. split; [exact Hf1|]. split; [exact Hsub1|].
      split; [|split; [|split]].
      - intros id Hid. destruct (Hin1 id Hid) as [?|(input & _ & ?)]; [by left|discriminate].
      - intros [|i] e0 id input He Hp Ho; [discriminate Ho|].
        change ((@nil Outcome) !! i = Some ProcessedSuccessfully) in Ho.
        by rewrite lookup_nil in Ho.
      - intros [|i] e0 id input He Hp Ho; [discriminate Ho|].
        change ((@nil Outcome) !! i = Some ErrorProcessingEvent) in Ho.
        by rewrite lookup_nil in Ho.
      - cbn. discriminate. }
    destruct (processEvents runHandler now rest (l1, w1)) as [os2 [l2 w2]] eqn:Hrest.
    destruct (IH l1 w1 os2 l2 w2 Hrest) as (Hb2 & Hf2 & Hsub2 & Hin2 & Hok2 & Herr2 & Hlen2).
    assert (Hres : (o :: os2, (l2, w2)) = (os, (l', w')) ->
                   os = o :: os2 /\ l' = l2 /\ w' = w2) by (intros [= <- <- <-]; auto).
    intros Heq.
    assert (Heq' : (o :: os2, (l2, w2)) = (os, (l', w')))
      by (destruct o; first [exact Heq | congruence]).
    destruct (Hres Heq') as (-> & -> & ->). clear Heq Heq' Hres.
    split; [congruence|]. split; [congruence|].
    split; [by transitivity (processedEvents l1)|].
    split; [|split; [|split; [|]]].
    + intros id Hid. destruct (Hin2 id Hid) as [Hid1|(i & e0 & input & He & Hp & Ho)].
      * destruct (Hin1 id Hid1) as [?|(input & Hp & ->)]; [by left|].
        right. exists 0%nat, e, input. auto.
      * right. exists (S i), e0, input. auto.
    + intros [|i] e0 id input He Hp Ho; cbn in *.
      * injection He as <-. injection Ho as ->. apply Hsub2. by apply (Hok1 id input).
      * by apply (Hok2 i e0 id input).
    + intros [|i] e0 id input He Hp Ho; cbn in *.
      * injection He as <-. injection Ho as ->. by apply (Herr1 id input).
      * intros Hin. apply (Herr2 i e0 id input He Hp Ho). by apply Hsub1.
    + rewrite ends_in_throw_cons by assumption. intros Hne. cbn. by rewrite Hlen2.
Qed.

(** One poll, for any table of handlers.  In a poll that finds a higher
    block and runs its loop to the end, every event of the batch is
    attempted; the committed set after the poll is the one before it
    together with the identities of the events whose handler returned; an
    event whose handler threw was not in the committed set and is not put
    there; the in-flight set is as before.  The cursor then moves to the
    block number read at the start of the poll, so the next poll asks for
    the blocks after it. *)
Theorem poll_marks_and_cursor (now : Z) (provider : Provider) (l : Listener) (w : W)
    (currentBlock : Z) :
  getBlockNumber provider = Some currentBlock ->
  currentBlock > lastProcessedBlock l ->
  let events := getAllEvents provider (lastProcessedBlock l + 1) currentBlock in
  let result := processNewBlocks runHandler now provider (l, w) in
  let l' := fst (snd result) in
  ends_in_throw (fst result) = false ->
  lastProcessedBlock l' = currentBlock
  /\ length (fst result) = length events
  /\ processingEvents l' = processingEvents l
  /\ (forall id, id ∈ processedEvents l' <->
                 id ∈ processedEvents l
                 \/ exists i e input, events !! i = Some e
                                      /\ parseEvent now e = ParsedEvent id input
                                      /\ fst result !! i = Some ProcessedSuccessfully)
  /\ (forall (i : nat) e id input,
      events !! i = Some e -> parseEvent now e = ParsedEvent id input ->
      fst result !! i = Some ErrorProcessingEvent ->
      (id ∉ processedEvents l)
      /\ (id ∈ processedEvents l' ->
          exists j e' input', events !! j = Some e'
                              /\ parseEvent now e' = ParsedEvent id input'
                              /\ fst result !! j = Some ProcessedSuccessfully))
  /\ (forall now' provider' nextBlock,
      getBlockNumber provider' = Some nextBlock -> nextBlock > currentBlock ->
      processNewBlocks runHandler now' provider' (snd result)
      = let (os, st') :=
          processEvents runHandler now'
            (getAllEvents provider' (currentBlock + 1) nextBlock) (snd result) in
        if ends_in_throw os then (os, st')
        else (os, (set_lastProcessedBlock nextBlock (fst st'), snd st'))).
Proof.
  intros Hhead Hnew. cbv zeta.
  destruct (processEvents runHandler now
              (getAllEvents provider (lastProcessedBlock l + 1) currentBlock) (l, w))
    as [os [l1 w1]] eqn:Hloop.
  assert (Hrun : processNewBlocks runHandler now provider (l, w)
                 = if ends_in_throw os then (os, (l1, w1))
                   else (os, (set_lastProcessedBlock currentBlock l1, w1))).
  { unfold processNewBlocks. rewrite Hhead. cbn [fst snd].
    rewrite (proj2 (Z.gtb_gt _ _) Hnew). by rewrite Hloop. }
  rewrite Hrun. clear Hrun.
  destruct (processEvents_marks now _ l w os l1 w1 Hloop)
    as (Hb & Hf & Hsub & Hin & Hok & Herr & Hlen).
  destruct (ends_in_throw os) eqn:Hthrow; cbn [fst snd]; [intros H; congruence|].
  intros _.
  split; [reflexivity|]. split; [by apply Hlen|]. split; [exact Hf|].
  split; [|split].
  - intros id. cbn [processedEvents set_lastProcessedBlock]. split.
    + apply Hin.
    + intros [Hold|(i & e & input & He & Hp & Ho)]; [by apply Hsub|].
      exact (Hok i e id input He Hp Ho).
  - intros i e id input He Hp Ho. split.
    + exact (Herr i e id input He Hp Ho).
    + cbn [processedEvents set_lastProcessedBlock]. intros Hid.
      destruct (Hin id Hid) as [Hold|Hex]; [|exact Hex].
      exfalso. exact (Herr i e id input He Hp Ho Hold).
  - intros now' provider' nextBlock Hhead' Hnext.
    unfold processNewBlocks. rewrite Hhead'. cbn [fst snd lastProcessedBlock
                                                   set_lastProcessedBlock].
    by rewrite (proj2 (Z.gtb_gt _ _) Hnext).
Qed.


(** A batch on which no handler throws: every event has arguments, and
    the handler of an event returns on it. *)
Definition handled (now : Z) (e : Event) : Prop :=
  exists id input,
    parseEvent now e = ParsedEvent id input
    /\ forall h w, getEventHandler (input_name input) = Some h ->
                   exists w', runHandler h input w = Returned w'.

Lemma processEvents_handled (now : Z) (events : list Event) (l : Listener) (w : W)
    (os : list Outcome) (l' : Listener) (w' : W) :
  (forall e, e ∈ events -> handled now e) ->
  processEvents runHandler now events (l, w) = (os, (l', w')) ->
  length os = length events
  /\ (forall o, o ∈ os -> o <> ErrorProcessingEvent /\ o <> ThrewBeforeTry)
  /\ processingEvents l' = processingEvents l
  /\ processedEvents l ⊆ processedEvents l'
  /\ (forall e id input,
      e ∈ events -> parseEvent now e = ParsedEvent id input ->
      is_Some (getEventHandler (input_name input)) ->
      id ∉ processingEvents l -> id ∈ processedEvents l').
Proof.
  revert l w os l' w'.
  induction events as [|e events IH]; intros l w os l' w' Hall Hloop.
  { cbn in Hloop. injection Hloop as <- <- <-.
    repeat split; try done; set_solver. }
  cbn [processEvents] in Hloop.
  pose proof (processEvent_delivery now e l w) as Hd.
  destruct (Hall e) as (ide & inpute & Hpe & Hret); [set_solver|].
  destruct (processEvent runHandler now e (l, w)) as [o [l1 w1]] eqn:Hstep.
  assert (Hone : o <> ErrorProcessingEvent /\ o <> ThrewBeforeTry
                 /\ processingEvents l1 = processingEvents l
                 /\ processedEvents l ⊆ processedEvents l1
                 /\ (is_Some (getEventHandler (input_name inpute)) ->
                     ide ∉ processingEvents l -> ide ∈ processedEvents l1)).
  { inversion Hd as [Hq|Hq|id0 input0 Hq Hb|id0 input0 Hq Hb Hdn
                    |id0 input0 Hq Hb Hdn Hh0
                    |id0 input0 h w0 Hq Hb Hdn Hh0 Hrun
                    |id0 input0 h w0 Hq Hb Hdn Hh0 Hrun]; subst;
      rewrite Hpe in Hq; try discriminate; injection Hq as <- <-.
    - repeat split; try done; try (intros _ Hno; by destruct Hno).
    - repeat split; done.
    - repeat split; try done; rewrite ?Hh0; try (by intros [? ?]).
    - repeat split; try done; cbn; set_solver.
    - destruct (Hret h w Hh0) as [w2 Hw2]. congruence. }
  destruct Hone as (Hne & Hnt & Hb1 & Hs1 & Hc1).
  destruct (processEvents runHandler now events (l1, w1)) as [os2 [l2 w2]] eqn:Hrest.
  assert (Heq : (os, (l', w')) = (o :: os2, (l2, w2))).
  { rewrite <- Hloop. by destruct o. }
  injection Heq as -> -> ->.
  destruct (IH l1 w1 os2 l2 w2) as (Hlen & Hos & Hb2 & Hs2 & Hc2);
    [intros e0 He0; apply Hall; set_solver|done|].
  split; [cbn; by rewrite Hlen|]. split.
  { intros o0 [->|Hin]%elem_of_cons; [done|by apply Hos]. }
  split; [congruence|]. split; [set_solver|].
  intros e0 id input [->|Hin]%elem_of_cons Hp Hh Hb.
  - rewrite Hpe in Hp. injection Hp as <- <-. apply Hs2. by apply Hc1.
  - apply (Hc2 e0 id input Hin Hp Hh). by rewrite Hb1.
Qed.

Lemma handled_ends (os : list Outcome) :
  (forall o, o ∈ os -> o <> ErrorProcessingEvent /\ o <> ThrewBeforeTry) ->
  ends_in_throw os = false.
Proof.
  intros Hos. unfold ends_in_throw.
  destruct (last os) as [o|] eqn:Hlast; [|done].
  apply last_Some_elem_of in Hlast. destruct (Hos o Hlast) as [_ Hnt]. by destruct o.
Qed.


(** One poll over a batch on which no handler throws. *)
Lemma processNewBlocks_handled (now : Z) (provider : Provider) (l : Listener) (w : W)
    (currentBlock : Z) :
  getBlockNumber provider = Some currentBlock ->
  currentBlock > lastProcessedBlock l ->
  let events := getAllEvents provider (lastProcessedBlock l + 1) currentBlock in
  (forall e, e ∈ events -> handled now e) ->
  let result := processNewBlocks runHandler now provider (l, w) in
  let l' := fst (snd result) in
  lastProcessedBlock l' = currentBlock
  /\ length (fst result) = length events
  /\ (forall o, o ∈ fst result -> o <> ErrorProcessingEvent /\ o <> ThrewBeforeTry)
  /\ processingEvents l' = processingEvents l
  /\ processedEvents l ⊆ processedEvents l'
  /\ (forall e id input,
      e ∈ events -> parseEvent now e = ParsedEvent id input ->
      is_Some (getEventHandler (input_name input)) ->
      id ∉ processingEvents l -> id ∈ processedEvents l')
  /\ (forall now' provider' nextBlock,
      getBlockNumber provider' = Some nextBlock -> nextBlock > currentBlock ->
      processNewBlocks runHandler now' provider' (snd result)
      = let (os, st') :=
          processEvents runHandler now'
            (getAllEvents provider' (currentBlock + 1) nextBlock) (snd result) in
        if ends_in_throw os then (os, st')
        else (os, (set_lastProcessedBlock nextBlock (fst st'), snd st'))).
Proof.
  intros Hhead Hnew. cbv zeta. intros Hall.
  destruct (processEvents runHandler now
              (getAllEvents provider (lastProcessedBlock l + 1) currentBlock) (l, w))
    as [os [l1 w1]] eqn:Hloop.
  destruct (processEvents_handled now _ l w os l1 w1 Hall Hloop)
    as (Hlen & Hos & Hb & Hs & Hc).
  assert (Hrun : processNewBlocks runHandler now provider (l, w)
                 = (os, (set_lastProcessedBlock currentBlock l1, w1))).
  { unfold processNewBlocks. rewrite Hhead. cbn [fst snd].
    rewrite (proj2 (Z.gtb_gt _ _) Hnew), Hloop. by rewrite (handled_ends os Hos). }
  rewrite Hrun. cbn [fst snd processedEvents processingEvents lastProcessedBlock
                       set_lastProcessedBlock].
  repeat (split; [done|]).
  intros now' provider' nextBlock Hhead' Hnext.
  unfold processNewBlocks. rewrite Hhead'.
  cbn [fst snd lastProcessedBlock set_lastProcessedBlock].
  by rewrite (proj2 (Z.gtb_gt _ _) Hnext).
Qed.

End Delivery.


(** ** The store side of the handlers *)

Section Store.

Variable containsi : string -> string -> bool.
Variable microUnits : string -> Z.
Variable parseInt_or_0 : string -> Z.
Variable roundedQuotient : Z -> Z -> Z.
Variable isoDate : Z -> option string.
Variable createPropertyFromChain : string -> Cms -> bool * Cms.
Variable fetchBookingData : Handler -> HandlerInput -> option BookingData.
Variable readsAsNumber : string -> bool.

Local Abbreviation create autoSync :=
  (createBookingInStrapi autoSync containsi microUnits parseInt_or_0 roundedQuotient
     isoDate createPropertyFromChain).

Local Abbreviation entryOf :=
  (new_entry microUnits parseInt_or_0 roundedQuotient).

Local Abbreviation handle autoSync :=
  (cmsHandlers autoSync containsi microUnits parseInt_or_0 roundedQuotient isoDate
     createPropertyFromChain fetchBookingData readsAsNumber).

(** The store once the next requests have met the fates [rest] leaves. *)
Definition answered (rest : list bool) (cms : Cms) : Cms :=
  {| cms_properties := cms_properties cms; cms_bookings := cms_bookings cms;
     cms_users := cms_users cms; next_id := next_id cms; failures := rest |}.

Lemma request_ok (cms : Cms) : failures cms = [] -> request cms = (true, cms).
Proof. unfold request. by intros ->. Qed.

Lemma request_next (cms : Cms) (failed : bool) (rest : list bool) :
  failures cms = failed :: rest -> request cms = (negb failed, answered rest cms).
Proof. unfold request. by intros ->. Qed.

Lemma filter_never {A : Type} (l : list A) : filter (fun _ : A => false = true) l = [].
Proof.
  induction l as [|x l IH]; [done|].
  rewrite filter_cons. by destruct (decide (false = true)).
Qed.

Lemma findBookingByBlockchainId_empty (id : string) (cms : Cms) :
  fst (findBookingByBlockchainId id cms) = [].
Proof.
  unfold findBookingByBlockchainId. destruct (request cms) as [[|] cms1]; cbn [fst].
  - apply filter_never.
  - reflexivity.
Qed.

Lemma findBookingByBlockchainId_ok (id : string) (cms : Cms) :
  failures cms = [] -> findBookingByBlockchainId id cms = ([], cms).
Proof.
  intros Hok. unfold findBookingByBlockchainId. rewrite (request_ok cms Hok).
  by rewrite filter_never.
Qed.

Definition linkedTo (p : Z) (bs : list CmsBooking) : list CmsBooking :=
  filter (fun b => property b = Some p) bs.

Definition withLedgerId (id : string) (bs : list CmsBooking) : list CmsBooking :=
  filter (fun b => blockchainBookingId b = Some id) bs.

Definition listedAs (prop : string) (ps : list CmsProperty) : list CmsProperty :=
  filter (fun p => BlockchainPropertyId p = Some prop) ps.

(** The user the guest's wallet resolves to when the store answers. *)
Definition userOf (wallet : string) (cms : Cms) : option CmsUser :=
  if String.eqb wallet "" then None
  else head (filter (fun u => containsi (walletAddress u) wallet = true) (cms_users cms)).

Lemma findUserByWalletAddress_ok (wallet : string) (cms : Cms) :
  failures cms = [] ->
  findUserByWalletAddress containsi wallet cms = (userOf wallet cms, cms).
Proof.
  intros Hok. unfold findUserByWalletAddress, userOf.
  destruct (String.eqb wallet ""); [done|]. by rewrite (request_ok cms Hok).
Qed.

(** The run of [createBookingInStrapi] against a store that answers every
    request and lists the property. *)
Lemma createBookingInStrapi_run (data : BookingData) (cms : Cms) (found : CmsProperty)
    (rest : list CmsProperty) :
  failures cms = [] ->
  listedAs (propertyId data) (cms_properties cms) = found :: rest ->
  create true data cms
  = match linkedTo (property_id found) (cms_bookings cms) with
    | existing :: _ => Returned (Some existing, cms)
    | [] =>
        match isoDate (checkInDate data), isoDate (checkOutDate data) with
        | Some startDate, Some endDate =>
            let entry := entryOf data (property_id found) (userOf (guest data) cms)
                           startDate endDate (next_id cms) in
            Returned (Some entry, add_booking entry cms)
        | _, _ => Threw (None, cms)
        end
    end.
Proof.
  intros Hok Hfound. unfold createBookingInStrapi. cbn [negb].
  rewrite (findBookingByBlockchainId_ok _ cms Hok).
  unfold findPropertyByBlockchainId. rewrite (request_ok cms Hok).
  unfold listedAs in Hfound. rewrite Hfound.
  unfold findBookingsByPropertyId. rewrite (request_ok cms Hok).
  unfold linkedTo.
  destruct (filter (fun b => property b = Some (property_id found)) (cms_bookings cms))
    as [|existing others]; [|reflexivity].
  rewrite (findUserByWalletAddress_ok _ cms Hok).
  destruct (isoDate (checkInDate data)) as [startDate|]; [|reflexivity].
  destruct (isoDate (checkOutDate data)) as [endDate|]; [|reflexivity].
  by rewrite (request_ok cms Hok).
Qed.

(** The same run when the first two reads are answered and the read of
    the property's bookings fails. *)
Lemma createBookingInStrapi_failed_read (data : BookingData) (cms : Cms)
    (found : CmsProperty) (rest : list CmsProperty) (startDate endDate : string) :
  failures cms = [false; false; true] ->
  listedAs (propertyId data) (cms_properties cms) = found :: rest ->
  isoDate (checkInDate data) = Some startDate ->
  isoDate (checkOutDate data) = Some endDate ->
  create true data cms
  = let entry := entryOf data (property_id found) (userOf (guest data) cms)
                   startDate endDate (next_id cms) in
    Returned (Some entry, add_booking entry (answered [] cms)).
Proof.
  intros Hfail Hfound Hin Hout. unfold createBookingInStrapi. cbn [negb].
  unfold findBookingByBlockchainId. rewrite (request_next cms false _ Hfail).
  cbn [negb]. rewrite filter_never.
  unfold findPropertyByBlockchainId.
  rewrite (request_next (answered _ cms) false [true] eq_refl). cbn [negb].
  unfold listedAs in Hfound. cbn [answered cms_properties]. rewrite Hfound.
  unfold findBookingsByPropertyId.
  rewrite (request_next (answered _ (answered _ cms)) true [] eq_refl). cbn [negb].
  change (answered [] (answered [true] (answered [false; true] cms)))
    with (answered [] cms).
  rewrite (findUserByWalletAddress_ok _ (answered [] cms) eq_refl).
  rewrite Hin, Hout. rewrite (request_ok (answered [] cms) eq_refl). reflexivity.
Qed.


(** C10, as the code has it.  With auto-sync on and the property listed:
    against a store that answers its requests, a booking event for a
    property that already has a linked booking, whatever that booking's
    dates and status, gets the linked booking back and changes nothing;
    of two booking events for the same property the first (its dates
    being in the range of [Date]) creates the record and the second gets
    that record back, so one record is linked to the property afterwards;
    an event whose date is out of that range throws and creates nothing.
    But when the read of the property's bookings fails, the property is
    taken to have none and a record is posted whatever the store holds. *)
Theorem one_booking_per_property (cms : Cms) (prop : string) (found : CmsProperty)
    (rest : list CmsProperty) :
  listedAs prop (cms_properties cms) = found :: rest ->
  (forall data existing others,
      failures cms = [] -> propertyId data = prop ->
      linkedTo (property_id found) (cms_bookings cms) = existing :: others ->
      create true data cms = Returned (Some existing, cms))
  /\ (forall first second startDate endDate,
      failures cms = [] -> propertyId first = prop -> propertyId second = prop ->
      linkedTo (property_id found) (cms_bookings cms) = [] ->
      isoDate (checkInDate first) = Some startDate ->
      isoDate (checkOutDate first) = Some endDate ->
      exists entry cms1,
        create true first cms = Returned (Some entry, cms1)
        /\ create true second cms1 = Returned (Some entry, cms1)
        /\ cms_bookings cms1 = cms_bookings cms ++ [entry]
        /\ linkedTo (property_id found) (cms_bookings cms1) = [entry])
  /\ (forall data,
      failures cms = [] -> propertyId data = prop ->
      linkedTo (property_id found) (cms_bookings cms) = [] ->
      isoDate (checkInDate data) = None \/ isoDate (checkOutDate data) = None ->
      create true data cms = Threw (None, cms))
  /\ (forall data startDate endDate,
      failures cms = [false; false; true] -> propertyId data = prop ->
      isoDate (checkInDate data) = Some startDate ->
      isoDate (checkOutDate data) = Some endDate ->
      exists entry cms1,
        create true data cms = Returned (Some entry, cms1)
        /\ property entry = Some (property_id found)
        /\ cms_bookings cms1 = cms_bookings cms ++ [entry]
        /\ linkedTo (property_id found) (cms_bookings cms1)
           = linkedTo (property_id found) (cms_bookings cms) ++ [entry]).
Proof.
  intros Hfound. split; [|split; [|split]].
  - intros data existing others Hok <- Hlinked.
    rewrite (createBookingInStrapi_run data cms found rest Hok Hfound).
    by rewrite Hlinked.
  - intros first second startDate endDate Hok H1 H2 Hnone Hin Hout. subst prop.
    pose proof (createBookingInStrapi_run first cms found rest Hok Hfound) as Hrun.
    rewrite Hnone, Hin, Hout in Hrun. cbv zeta in Hrun.
    set (entry := entryOf first (property_id found) (userOf (guest first) cms)
                    startDate endDate (next_id cms)) in *.
    assert (Hlinked : linkedTo (property_id found)
                        (cms_bookings (add_booking entry cms)) = [entry]).
    { unfold linkedTo in *. cbn [add_booking cms_bookings].
      rewrite filter_app, Hnone. cbn [app].
      rewrite filter_cons. destruct (decide _) as [_|Hno]; [done|].
      by destruct Hno. }
    exists entry, (add_booking entry cms).
    split; [exact Hrun|]. split; [|split; [reflexivity|exact Hlinked]].
    rewrite (createBookingInStrapi_run second (add_booking entry cms) found rest).
    + by rewrite Hlinked.
    + exact Hok.
    + rewrite H2. exact Hfound.
  - intros data Hok <- Hnone Hdate.
    rewrite (createBookingInStrapi_run data cms found rest Hok Hfound), Hnone.
    destruct Hdate as [->| ->]; [reflexivity|].
    by destruct (isoDate (checkInDate data)).
  - intros data startDate endDate Hfail <- Hin Hout.
    rewrite (createBookingInStrapi_failed_read data cms found rest startDate endDate
               Hfail Hfound Hin Hout). cbv zeta.
    eexists. eexists. split; [reflexivity|]. split; [reflexivity|].
    split; [reflexivity|].
    unfold linkedTo. cbn [add_booking cms_bookings answered].
    rewrite filter_app. f_equal.
    rewrite filter_cons. destruct (decide _) as [_|Hno]; [done|].
    by destruct Hno.
Qed.

(** C6, as the code behaves.  The lookup by ledger id finds nothing
    whatever the store holds; so a booking event (with dates in the range
    of [Date]) for a booking that the store already holds, but not linked
    to the property's record, gets a second record with the same ledger
    id. *)
Theorem replay_posts_second_record (data : BookingData) (cms : Cms)
    (found : CmsProperty) (rest : list CmsProperty) (startDate endDate : string) :
  failures cms = [] ->
  listedAs (propertyId data) (cms_properties cms) = found :: rest ->
  linkedTo (property_id found) (cms_bookings cms) = [] ->
  isoDate (checkInDate data) = Some startDate ->
  isoDate (checkOutDate data) = Some endDate ->
  fst (findBookingByBlockchainId (bookingId data) cms) = []
  /\ exists entry,
      create true data cms = Returned (Some entry, add_booking entry cms)
      /\ withLedgerId (bookingId data) (cms_bookings (add_booking entry cms))
         = withLedgerId (bookingId data) (cms_bookings cms) ++ [entry].
Proof.
  intros Hok Hfound Hnone Hin Hout. split; [apply findBookingByBlockchainId_empty|].
  pose proof (createBookingInStrapi_run data cms found rest Hok Hfound) as Hrun.
  rewrite Hnone, Hin, Hout in Hrun. cbv zeta in Hrun.
  eexists. split; [exact Hrun|].
  unfold withLedgerId. cbn [add_booking cms_bookings].
  rewrite filter_app. f_equal.
  rewrite filter_cons. destruct (decide _) as [_|Hno]; [done|].
  by destruct Hno.
Qed.

(** ** Polling with the store's handlers *)

(** An event as the node delivers it: it has arguments, and a
    [PropertyUpdated] event carries its price as an integer, as the
    contract interface decodes it. *)
Definition decoded (now : Z) (e : Event) : Prop :=
  exists id input,
    parseEvent now e = ParsedEvent id input
    /\ (input_name input = "PropertyUpdated" ->
        exists p price rest, input_args input = p :: VBigInt price :: rest).

Lemma getEventHandler_PropertyUpdated (name : string) :
  getEventHandler name = Some handlePropertyUpdated -> name = "PropertyUpdated".
Proof.
  unfold getEventHandler. repeat (case_match; try discriminate). intros _.
  match goal with
  | H : String.eqb name "PropertyUpdated" = true |- _ => by apply String.eqb_eq in H
  end.
Qed.

(** The handlers of the booking events catch what their store calls
    throw, and the other handlers have nothing that throws on a decoded
    event. *)
Lemma cmsHandlers_return (autoSync : bool) (h : Handler) (input : HandlerInput)
    (cms : Cms) :
  (h = handlePropertyUpdated ->
   exists p price rest, input_args input = p :: VBigInt price :: rest) ->
  exists cms', handle autoSync h input cms = Returned cms'.
Proof.
  intros Hprice. destruct h; cbn [cmsHandlers]; try (eexists; reflexivity).
  - destruct (Hprice eq_refl) as (p & price & rest & ->). by eexists.
  - destruct (fetchBookingData _ input) as [data|]; [|by eexists].
    destruct (createBookingInStrapi _ _ _ _ _ _ _ data cms) as [[r c]|[r c]]; by eexists.
  - destruct (fetchBookingData _ input) as [data|]; [|by eexists].
    destruct (createBookingInStrapi _ _ _ _ _ _ _ data cms) as [[r c]|[r c]]; by eexists.
Qed.

Lemma decoded_handled (autoSync : bool) (now : Z) (e : Event) :
  decoded now e -> handled (handle autoSync) now e.
Proof.
  intros (id & input & Hp & Hprice). exists id, input. split; [exact Hp|].
  intros h cms Hh. apply cmsHandlers_return. intros ->.
  apply Hprice. by apply getEventHandler_PropertyUpdated.
Qed.

(** C4, as the code has it.  In a poll that finds a higher block, over
    events as the node delivers them, no failure of a handler reaches the
    listener: a booking handler whose store call throws logs the error and
    returns.  So no event of the batch ends as failed, every event that
    has a handler and is not in flight is in the committed set after the
    poll whatever the store did, the loop always runs to its end, and the
    cursor moves to the block number read at the start of the poll: the
    next poll asks for the blocks after it and an event whose store write
    failed is not delivered again. *)
Theorem poll_commits_failed_writes (autoSync : bool) (now : Z) (provider : Provider)
    (l : Listener) (cms : Cms) (currentBlock : Z) :
  getBlockNumber provider = Some currentBlock ->
  currentBlock > lastProcessedBlock l ->
  let events := getAllEvents provider (lastProcessedBlock l + 1) currentBlock in
  (forall e, e ∈ events -> decoded now e) ->
  let result := processNewBlocks (handle autoSync) now provider (l, cms) in
  let l' := fst (snd result) in
  (forall h input data failed,
      h = handleBookingCreated \/ h = handleBookingCreatedPaid ->
      fetchBookingData h input = Some data ->
      forall store, create autoSync data store = Threw failed ->
                    handle autoSync h input store = Returned (snd failed))
  /\ lastProcessedBlock l' = currentBlock
  /\ length (fst result) = length events
  /\ (forall o, o ∈ fst result -> o <> ErrorProcessingEvent /\ o <> ThrewBeforeTry)
  /\ processingEvents l' = processingEvents l
  /\ processedEvents l ⊆ processedEvents l'
  /\ (forall e id input,
      e ∈ events -> parseEvent now e = ParsedEvent id input ->
      is_Some (getEventHandler (input_name input)) ->
      id ∉ processingEvents l -> id ∈ processedEvents l')
  /\ (forall now' provider' nextBlock,
      getBlockNumber provider' = Some nextBlock -> nextBlock > currentBlock ->
      processNewBlocks (handle autoSync) now' provider' (snd result)
      = let (os, st') :=
          processEvents (handle autoSync) now'
            (getAllEvents provider' (currentBlock + 1) nextBlock) (snd result) in
        if ends_in_throw os then (os, st')
        else (os, (set_lastProcessedBlock nextBlock (fst st'), snd st'))).
Proof.
  intros Hhead Hnew. cbv zeta. intros Hall. split.
  - intros h input data [r c] [-> | ->] Hdata store Hthrew; cbn [cmsHandlers];
      rewrite Hdata, Hthrew; reflexivity.
  - apply (processNewBlocks_handled (handle autoSync) now provider l cms currentBlock
             Hhead Hnew).
    intros e He. apply decoded_handled. by apply Hall.
Qed.

(** The update of a booking's status never reaches the store: the lookup
    by ledger id finds no booking, so [updateBookingInStrapi] returns
    after its read without a write, and the handlers of check-in and
    cancellation leave every record as it is. *)
Theorem status_updates_never_written (autoSync : bool) (id newStatus : string)
    (input : HandlerInput) (cms : Cms) :
  updateBookingInStrapi id newStatus cms = Returned (snd (request cms))
  /\ cms_bookings (snd (request cms)) = cms_bookings cms
  /\ (forall h, h = handleCheckedIn \/ h = handleBookingCancelled ->
      exists cms',
        handle autoSync h input cms = Returned cms'
        /\ cms_bookings cms' = cms_bookings cms
        /\ cms_properties cms' = cms_properties cms).
Proof.
  assert (Hrun : forall i st, updateBookingInStrapi i st cms = Returned (snd (request cms))).
  { intros i st. unfold updateBookingInStrapi, findBookingByBlockchainId.
    destruct (request cms) as [[|] cms1]; cbn [snd]; [|reflexivity].
    by rewrite filter_never. }
  assert (Hsame : cms_bookings (snd (request cms)) = cms_bookings cms
                  /\ cms_properties (snd (request cms)) = cms_properties cms).
  { unfold request. by destruct (failures cms). }
  split; [apply Hrun|]. split; [apply Hsame|].
  intros h [-> | ->]; cbn [cmsHandlers]; rewrite Hrun; cbn [world_after];
    eexists; (split; [reflexivity|exact Hsame]).
Qed.

End Store.


(** ** A listener wired to a store

    The parameters of the synchronisation code are fixed here to run the
    listener on concrete events: whole-number amounts, Unix seconds for
    instants, no recovery of a missing property, and a chain read that
    returns a two-night ETH booking for the ids of the event. *)

Definition lower_ascii (c : ascii) : ascii :=
  let n := nat_of_ascii c in
  if ((65 <=? n) && (n <=? 90))%nat then ascii_of_nat (n + 32) else c.

Fixpoint lower (s : string) : string :=
  match s with
  | EmptyString => EmptyString
  | String c rest => String (lower_ascii c) (lower rest)
  end.

Definition containsi (field value : string) : bool :=
  bool_decide (is_Some (String.index 0 (lower value) (lower field))).

Definition wholeNumber (s : string) : Z :=
  match NilZero.int_of_string s with
  | Some n => Z.of_int n
  | None => 0
  end.

Definition microUnits (s : string) : Z := wholeNumber s * 1000000.

Definition roundedQuotient (a b : Z) : Z := (2 * a + b) / (2 * b).

Definition padded (width : nat) (n : Z) : string :=
  let digits := BigInt_toString n in
  String.concat "" (repeat "0" (width - String.length digits)) +:+ digits.

(** [toISOString().slice(0, 10)] of the instant of a Unix time: the
    calendar date, the year written with four digits, or with a sign and
    six digits outside 0 to 9999; no date beyond 8.64e15 milliseconds
    from the epoch. *)
Definition isoDate (seconds : Z) : option string :=
  if 8640000000000000 <? Z.abs (seconds * 1000) then None
  else
    let z := seconds / 86400 + 719468 in
    let era := z / 146097 in
    let doe := z - era * 146097 in
    let yoe := (doe - doe / 1460 + doe / 36524 - doe / 146096) / 365 in
    let doy := doe - (365 * yoe + yoe / 4 - yoe / 100) in
    let mp := (5 * doy + 2) / 153 in
    let d := doy - (153 * mp + 2) / 5 + 1 in
    let m := if mp <? 10 then mp + 3 else mp - 9 in
    let y := yoe + era * 400 + (if m <=? 2 then 1 else 0) in
    let year := if (0 <=? y) && (y <=? 9999) then padded 4 y
                else (if y <? 0 then "-" else "+") +:+ padded 6 (Z.abs y) in
    Some (String.substring 0 10 (year +:+ "-" +:+ padded 2 m +:+ "-" +:+ padded 2 d)).

Definition noRecovery (propertyId : string) (cms : Cms) : bool * Cms := (false, cms).

Definition stay (id : Z) (prop guestAddress : string) (checkIn : Z) : BookingData :=
  {| bookingId := BigInt_toString id; propertyId := prop;
     guest := guestAddress;
     checkInDate := checkIn; checkOutDate := checkIn + 2 * 86400;
     totalAmount := "2"; platformFee := "0"; hostAmount := "2";
     status := getBookingStatusString 0; numberOfNights := 2;
     paidViaFiat := false; paidOffChain := false;
     paymentMethod := None; data_paymentReference := None;
     data_ipfsUri := None; data_transactionHash := None;
     maxGuests := None |}.

Definition chainBooking (h : Handler) (input : HandlerInput) : option BookingData :=
  match input_args input with
  | VBigInt id :: VString prop :: VString guestAddress :: VBigInt checkIn :: _ =>
      Some (stay id prop guestAddress checkIn)
  | _ => None
  end.

Definition readsAsNumber (s : string) : bool :=
  bool_decide (is_Some (NilZero.int_of_string s)).

Definition handlers : Handler -> HandlerInput -> Cms -> Completion Cms :=
  cmsHandlers true containsi microUnits wholeNumber roundedQuotient isoDate noRecovery
    chainBooking readsAsNumber.

Definition inRange (fromBlock toBlock : Z) (logs : list Event) : list Event :=
  filter (fun e => fromBlock <= blockNumber e <= toBlock) logs.

(** A node at block [head] serving the logs of the two contracts. *)
Definition node (head : Z) (propertyLogs bookingLogs : list Event) : Provider :=
  {| getBlockNumber := Some head;
     propertyMarketplace_queryFilter := fun a b => Some (inRange a b propertyLogs);
     bookingManager_queryFilter := fun a b => Some (inRange a b bookingLogs) |}.

Definition log (eventName : string) (args : list Value) (tx : string) (block index : Z)
    : Event :=
  {| name := None; EventListener.eventName := Some eventName; EventListener.args := Some args;
     timestamp := None; transactionHash := Some tx;
     blockNumber := block; transactionIndex := index |}.

Definition priceUpdate : Event :=
  log "PropertyUpdated" [VString "villa-1"; VBigInt 120; VBool true] "0xa1" 11 0.

Definition removal : Event := log "PropertyRemoved" [VString "villa-2"] "0xa2" 11 1.

Definition bookingOf (id : Z) (prop : string) (checkIn : Z) (tx : string) (block : Z)
    : Event :=
  log "BookingCreated"
    [VBigInt id; VString prop; VString "0xGuest"; VBigInt checkIn; VBigInt 2] tx block 0.

Definition idOf (e : Event) : string :=
  match parseEvent 0 e with
  | ParsedEvent id _ => id
  | _ => ""
  end.

Definition listenerAt (block : Z) : Listener :=
  {| lastProcessedBlock := block; processedEvents := ∅; processingEvents := ∅ |}.

Definition emptyStore (failures : list bool) : Cms :=
  {| cms_properties := []; cms_bookings := []; cms_users := []; next_id := 1;
     failures := failures |}.

(** A store that holds one property. *)
Definition storeWith (prop : string) (bookings : list CmsBooking) (failures : list bool)
    : Cms :=
  {| cms_properties := [ {| property_id := 1; BlockchainPropertyId := Some prop;
                            Title := "Villa" |} ];
     cms_bookings := bookings; cms_users := []; next_id := 10;
     failures := failures |}.


(** A day the store can hold and one beyond the range of [Date]. *)
Lemma isoDate_examples :
  isoDate 1700000000 = Some "2023-11-14"
  /\ isoDate 0 = Some "1970-01-01"
  /\ isoDate 951782400 = Some "2000-02-29"
  /\ isoDate 253402300800 = Some "+010000-01"
  /\ isoDate 8640000000001 = None.
Proof. vm_compute. repeat split. Qed.


Definition createInStore : BookingData -> Cms -> Completion (option CmsBooking * Cms) :=
  createBookingInStrapi true containsi microUnits wholeNumber roundedQuotient isoDate
    noRecovery.

Definition villaRecord : CmsProperty :=
  {| property_id := 1; BlockchainPropertyId := Some "villa-1"; Title := "Villa" |}.

(** A booking record made by the web front end after payment: it carries
    the ledger id and no property relation. *)
Definition frontendBooking : CmsBooking :=
  {| booking_id := 5; property := None;
     StartDate := "2023-11-14"; EndDate := "2023-11-16";
     Guests := 2; Rooms := 1; PriceperNight := 1000000; NumberOfNights := 2;
     AtlasFee := 0; CleaningFee := 0; TotalPaid := 2000000; PaidBy := "ETH";
     BookingStatus := "Upcoming";
     blockchainBookingId := Some "7";
     booking_transactionHash := Some "0xb7";
     ipfsUri := None; paymentReference := None;
     users_permissions_user := None |}.

(** The record of booking 1, linked to the villa. *)
Definition linkedBooking : CmsBooking :=
  {| booking_id := 9; property := Some 1;
     StartDate := "2023-11-14"; EndDate := "2023-11-16";
     Guests := 2; Rooms := 1; PriceperNight := 1000000; NumberOfNights := 2;
     AtlasFee := 0; CleaningFee := 0; TotalPaid := 2000000; PaidBy := "ETH";
     BookingStatus := "Upcoming";
     blockchainBookingId := Some "1";
     booking_transactionHash := None;
     ipfsUri := None; paymentReference := None;
     users_permissions_user := None |}.

(** The event of booking 1 as the node delivers it, and as the listener's
    own format carries it after a restart: another block, no position,
    the numbers as strings. *)
Definition firstBooking : Event := bookingOf 1 "villa-1" 1700000000 "0xb1" 11.





(** The store answers four requests and fails the fifth, the POST. *)
Definition postFails : list bool := [false; false; false; false; true].

(** A poll at block 12 over a price update, a removal and booking 1
    while the POST of the booking fails: the three events are committed,
    the cursor is 12 and the store holds no booking. *)
Lemma poll_commits_failed_writes_witness :
  let result := processNewBlocks handlers 0 (node 12 [priceUpdate; removal] [firstBooking])
                  (listenerAt 10, storeWith "villa-1" [] postFails) in
  fst result = [ProcessedSuccessfully; ProcessedSuccessfully; ProcessedSuccessfully]
  /\ lastProcessedBlock (fst (snd result)) = 12
  /\ (idOf firstBooking ∈ processedEvents (fst (snd result)))
  /\ cms_bookings (snd (snd result)) = [].
Proof.
  cbv zeta.
  pose proof (poll_commits_failed_writes containsi microUnits wholeNumber roundedQuotient
                isoDate noRecovery chainBooking readsAsNumber true 0
                (node 12 [priceUpdate; removal] [firstBooking])
                (listenerAt 10) (storeWith "villa-1" [] postFails) 12) as Hthm.
  cbv zeta in Hthm.
  destruct Hthm as (_ & Hcursor & _ & _ & _ & _ & Hcommitted & _);
    [reflexivity | reflexivity | |].
  { intros e He.
    assert (Hevents : getAllEvents (node 12 [priceUpdate; removal] [firstBooking])
                        (lastProcessedBlock (listenerAt 10) + 1) 12
                      = [priceUpdate; firstBooking; removal])
      by (vm_compute; reflexivity).
    rewrite Hevents in He.
    apply elem_of_cons in He as [->|He];
      [|apply elem_of_cons in He as [->|He];
        [|apply list_elem_of_singleton in He as ->]].
    - eexists _, _. split; [vm_compute; reflexivity|]. intros _. by eexists _, _, _.
    - eexists _, _. split; [vm_compute; reflexivity|]. intros Hn. vm_compute in Hn.
      discriminate.
    - eexists _, _. split; [vm_compute; reflexivity|]. intros Hn. vm_compute in Hn.
      discriminate. }
  split; [vm_compute; reflexivity|]. split; [exact Hcursor|]. split.
  - eapply (Hcommitted firstBooking).
    + vm_compute. set_solver.
    + vm_compute. reflexivity.
    + vm_compute. by eexists.
    + vm_compute. set_solver.
  - vm_compute. reflexivity.
Defined.

(** The handler of booking 1 fails: the POST of its record is refused.
    The poll at block 12 still commits the event and moves the cursor to
    12, past block 11 that holds it; the poll at block 13 asks for block
    13 only and finds nothing; and were the event delivered again, with
    the store back, it would be answered from the committed set: the
    store never gets the booking. *)
Lemma failed_write_is_committed :
  let logs := [firstBooking] in
  let first := processNewBlocks handlers 0 (node 12 [] logs)
                 (listenerAt 10, storeWith "villa-1" [] postFails) in
  let second := processNewBlocks handlers 0 (node 13 [] logs) (snd first) in
  let again := processEvent handlers 0 firstBooking (snd second) in
  (blockNumber firstBooking = 11
   /\ createInStore (stay 1 "villa-1" "0xGuest" 1700000000)
        (storeWith "villa-1" [] postFails)
      = Threw (None, storeWith "villa-1" [] []))
  /\ fst first = [ProcessedSuccessfully]
  /\ bool_decide (idOf firstBooking ∈ processedEvents (fst (snd first))) = true
  /\ lastProcessedBlock (fst (snd first)) = 12
  /\ cms_bookings (snd (snd first)) = []
  /\ getAllEvents (node 13 [] logs) (lastProcessedBlock (fst (snd first)) + 1) 13 = []
  /\ fst second = []
  /\ lastProcessedBlock (fst (snd second)) = 13
  /\ failures (snd (snd second)) = []
  /\ fst again = AlreadyProcessed
  /\ cms_bookings (snd (snd again)) = [].
Proof. vm_compute. repeat split. Qed.

(** Two stays a month apart at the same property: one record; and a
    stay beyond the range of [Date] makes none. *)
Lemma one_booking_per_property_witness :
  let cms := storeWith "villa-1" [] [] in
  let first := stay 1 "villa-1" "0xGuest" 1700000000 in
  let second := stay 2 "villa-1" "0xGuest" (1700000000 + 30 * 86400) in
  (exists entry cms1,
      createInStore first cms = Returned (Some entry, cms1)
      /\ createInStore second cms1 = Returned (Some entry, cms1)
      /\ cms_bookings cms1 = [entry])
  /\ createInStore (stay 3 "villa-1" "0xGuest" 8640000000000) cms = Threw (None, cms).
Proof.
  cbv zeta.
  destruct (one_booking_per_property containsi microUnits wholeNumber roundedQuotient
              isoDate noRecovery (storeWith "villa-1" [] []) "villa-1" villaRecord [])
    as (_ & Htwo & Hrange & _); [reflexivity|].
  split.
  - destruct (Htwo (stay 1 "villa-1" "0xGuest" 1700000000)
                (stay 2 "villa-1" "0xGuest" (1700000000 + 30 * 86400))
                "2023-11-14" "2023-11-16")
      as (entry & cms1 & Hfirst & Hsecond & Hall & _);
      [reflexivity | reflexivity | reflexivity | reflexivity
      | vm_compute; reflexivity | vm_compute; reflexivity |].
    exists entry, cms1. split; [exact Hfirst|]. split; [exact Hsecond|exact Hall].
  - apply Hrange; [reflexivity..|]. right. vm_compute. reflexivity.
Defined.

(** The villa has the record of booking 1 linked to it.  The event of
    booking 2, a stay a month later, arrives while the read of the
    villa's bookings fails: a second record linked to the villa is
    posted. *)
Lemma failed_read_posts_second_booking :
  let cms := storeWith "villa-1" [linkedBooking] [false; false; true] in
  let event := bookingOf 2 "villa-1" (1700000000 + 30 * 86400) "0xb2" 11 in
  let result := processEvent handlers 0 event (listenerAt 10, cms) in
  fst (findBookingsByPropertyId 1 (storeWith "villa-1" [linkedBooking] []))
  = [linkedBooking]
  /\ fst (findBookingsByPropertyId 1 (storeWith "villa-1" [linkedBooking] [true])) = []
  /\ fst result = ProcessedSuccessfully
  /\ map property (cms_bookings (snd (snd result))) = [Some 1; Some 1]
  /\ map blockchainBookingId (cms_bookings (snd (snd result))) = [Some "1"; Some "2"]
  /\ map StartDate (cms_bookings (snd (snd result))) = ["2023-11-14"; "2023-12-14"].
Proof. vm_compute. repeat split. Qed.

(** The store holds booking 7 without a property relation; the event of
    booking 7 adds a second record with ledger id 7. *)
Lemma replay_posts_second_record_witness :
  let cms := storeWith "villa-1" [frontendBooking] [] in
  exists entry,
    createInStore (stay 7 "villa-1" "0xGuest" 1700000000) cms
    = Returned (Some entry, add_booking entry cms)
    /\ withLedgerId "7" (cms_bookings (add_booking entry cms)) = [frontendBooking; entry].
Proof.
  cbv zeta.
  destruct (replay_posts_second_record containsi microUnits wholeNumber roundedQuotient
              isoDate noRecovery (stay 7 "villa-1" "0xGuest" 1700000000)
              (storeWith "villa-1" [frontendBooking] []) villaRecord []
              "2023-11-14" "2023-11-16")
    as [_ (entry & Hrun & Hids)];
    [reflexivity | reflexivity | reflexivity
    | vm_compute; reflexivity | vm_compute; reflexivity |].
  exists entry. split; [exact Hrun|]. exact Hids.
Defined.

(** The same at the level of the handler, with the record it posts. *)
Lemma replayed_event_duplicates_booking :
  let cms := storeWith "villa-1" [frontendBooking] [] in
  let event := bookingOf 7 "villa-1" 1700000000 "0xb7" 11 in
  let result := processEvent handlers 0 event (listenerAt 10, cms) in
  fst result = ProcessedSuccessfully
  /\ map blockchainBookingId (cms_bookings (snd (snd result))) = [Some "7"; Some "7"]
  /\ map property (cms_bookings (snd (snd result))) = [None; Some 1]
  /\ map StartDate (cms_bookings (snd (snd result))) = ["2023-11-14"; "2023-11-14"].
Proof. vm_compute. repeat split. Qed.

(** A poll at block 12 over three events whose handlers return: the
    cursor is 12 and the removal is committed. *)
Lemma poll_marks_and_cursor_witness :
  let result := processNewBlocks handlers 0 (node 12 [priceUpdate; removal] [firstBooking])
                  (listenerAt 10, storeWith "villa-1" [] []) in
  lastProcessedBlock (fst (snd result)) = 12
  /\ length (fst result) = 3%nat
  /\ (idOf removal ∈ processedEvents (fst (snd result))).
Proof.
  cbv zeta.
  pose proof (poll_marks_and_cursor handlers 0
                (node 12 [priceUpdate; removal] [firstBooking])
                (listenerAt 10) (storeWith "villa-1" [] []) 12) as Hthm.
  cbv zeta in Hthm.
  destruct Hthm as (Hcursor & Hlen & _ & Hiff & _);
    [reflexivity | reflexivity | vm_compute; reflexivity |].
  split; [exact Hcursor|]. split; [rewrite Hlen; vm_compute; reflexivity|].
  apply Hiff. right. exists 2%nat, removal. eexists.
  split; [vm_compute; reflexivity|]. split; vm_compute; reflexivity.
Defined.


End EventListenerProofs.
